(** * claude-code-open: plugin pipeline, provider registry, stream translation
      and web-UI statistics

    A shallow embedding of the Go sources, one module per Go package:

    - [Plugins]   internal/plugins  (plugin.go and the plugin registry)
    - [Builtin]   internal/plugins/builtin (the three built-in plugins)
    - [Providers] internal/providers (registry.go and the Anthropic adapter)
    - [StreamTranslator] the OpenAI-to-Anthropic stream state machine
    - [Webui]     internal/webui (statistics store and key masking)

    followed by further facts about the same packages and their callers:

    - [PluginChains], [TokenCounter], [InjectorFacts]  the other chains of
      the plugin registry and the other built-in plugins
    - [ProviderRegistry]  [Get], [List], [GetByDomain], [IsStreaming]
    - [WebuiStats], [WebuiHandlers]  the statistics over many calls, and the
      handlers that read the configuration
    - [ModelBrowser]  the model lists and the browser of [cco models]
    - [Workflow]  internal/workflow, the executor
    - [CmdConfig], [CmdPlugins]  [cco config show], [cco plugins], [cco ui]

    Conventions.  A Go [[]byte] is a [list Byte.byte]; a nil slice is the
    empty list.  A Go [int]/[int64] is a [Z], with the two's-complement
    wrap-around written out wherever the code does arithmetic on it.  A Go
    [error] is [option error] ([None] is nil).  A Go map is a [gmap].  The
    read/write mutexes of the registries are not modelled: every function
    below is the body run under its lock. *)

From stdpp Require Import gmap strings list fin_maps sorting pretty.

Set Warnings "-register-all".

Open Scope Z_scope.

(** ** Shared types *)

Definition bytes := list Byte.byte.

(** Go's [error] values, as far as the sources build them: a plain message,
    or [fmt.Errorf("... %w", err)] wrapping another error behind a prefix. *)
Inductive error :=
| errorString (msg : string)
| wrapError (prefix : string) (err : error).

(** [context.Context], reduced to the three keys plugin.go defines. *)
Record Context := {
  ctxProvider : option string;
  ctxModel : option string;
  ctxRequestID : option string;
}.

(** What [encoding/json] decodes into an [interface{}]: nil, bool, number,
    string, [[]interface{}] and [map[string]interface{}].  Numbers are only
    relayed by the code below; the model keeps integer literals, and relays
    them as they are, which Go does for those a [float64] holds exactly
    ([InjectorFacts.relayed] below says which documents come back from the
    decoder and the encoder as they went in). *)
Inductive JSON :=
| JNull
| JBool (b : bool)
| JNumber (n : Z)
| JString (s : string)
| JArray (items : list JSON)
| JObject (fields : gmap string JSON).

(** What a call does: it returns, or it panics. *)
Inductive outcome (A : Type) :=
| Return (a : A)
| Panic (msg : string).
Arguments Return {A} a.
Arguments Panic {A} msg.

(** ** internal/plugins *)
Module Plugins.

(** plugin.go, [Plugin]: the methods every plugin has. *)
Record Plugin := {
  Name : string;
  Description : string;
  Priority : Z;
  Enabled : Context → bool;
}.

Record RequestTransformer := {
  RequestTransformer_Plugin :> Plugin;
  TransformRequest : Context → bytes → bytes * option error;
}.

Record ResponseTransformer := {
  ResponseTransformer_Plugin :> Plugin;
  TransformResponse : Context → bytes → bytes * option error;
}.

Record StreamTransformer := {
  StreamTransformer_Plugin :> Plugin;
  TransformChunk : Context → bytes → bytes * option error;
}.

Record RequestMetadata := {
  req_Provider : string;
  req_Model : string;
  req_InputTokens : Z;
  req_HasStreaming : bool;
  req_Raw : bytes;
}.

Record ResponseMetadata := {
  resp_Provider : string;
  resp_Model : string;
  resp_OutputTokens : Z;
  resp_Status : Z;
  resp_DurationMs : Z;
  resp_CachedTokens : Z;
  resp_Raw : bytes;
}.

(** [GetProvider], [GetModel], [GetRequestID]: the value under the key when
    it is a string, the empty string otherwise. *)
Definition GetProvider (ctx : Context) : string := default "" (ctxProvider ctx).
Definition GetModel (ctx : Context) : string := default "" (ctxModel ctx).
Definition GetRequestID (ctx : Context) : string := default "" (ctxRequestID ctx).

Section Registry.

(** Observer hooks return nothing: all they do is change state of their own
    (a log, the token counter's start times).  [W] is that state. *)
Context {W : Type}.

Record MetadataPlugin := {
  MetadataPlugin_Plugin :> Plugin;
  OnRequest : Context → RequestMetadata → W → W;
  OnResponse : Context → ResponseMetadata → W → W;
}.

Record Registry := {
  requestTransformers : list RequestTransformer;
  responseTransformers : list ResponseTransformer;
  streamTransformers : list StreamTransformer;
  metadataPlugins : list MetadataPlugin;
}.

Definition NewRegistry : Registry :=
  {| requestTransformers := [];
     responseTransformers := [];
     streamTransformers := [];
     metadataPlugins := [] |}.

(** [sort.Slice] of Go's standard library: it sorts in place with the given
    [less]; it is not stable.  Its algorithm is not part of the repository,
    so it is taken with its contract: the result is a permutation of the
    slice, and for a [less] that compares an integer key with [<] no element
    is followed by one with a smaller key. *)
Variable sort_Slice : ∀ A : Type, (A → A → bool) → list A → list A.

Hypothesis sort_Slice_Permutation :
  ∀ (A : Type) (less : A → A → bool) (l : list A), sort_Slice A less l ≡ₚ l.

Hypothesis sort_Slice_sorted :
  ∀ (A : Type) (key : A → Z) (l : list A),
    StronglySorted (λ x y, key x ≤ key y)
      (sort_Slice A (λ x y, bool_decide (key x < key y)) l).

Definition sortRequestTransformers (l : list RequestTransformer) : list RequestTransformer :=
  sort_Slice RequestTransformer (λ i j, bool_decide (Priority i < Priority j)) l.

Definition sortResponseTransformers (l : list ResponseTransformer) : list ResponseTransformer :=
  sort_Slice ResponseTransformer (λ i j, bool_decide (Priority i < Priority j)) l.

Definition sortStreamTransformers (l : list StreamTransformer) : list StreamTransformer :=
  sort_Slice StreamTransformer (λ i j, bool_decide (Priority i < Priority j)) l.

Definition RegisterRequestTransformer (plugin : RequestTransformer) (r : Registry) : Registry :=
  {| requestTransformers := sortRequestTransformers (requestTransformers r ++ [plugin]);
     responseTransformers := responseTransformers r;
     streamTransformers := streamTransformers r;
     metadataPlugins := metadataPlugins r |}.

Definition RegisterResponseTransformer (plugin : ResponseTransformer) (r : Registry) : Registry :=
  {| requestTransformers := requestTransformers r;
     responseTransformers := sortResponseTransformers (responseTransformers r ++ [plugin]);
     streamTransformers := streamTransformers r;
     metadataPlugins := metadataPlugins r |}.

Definition RegisterStreamTransformer (plugin : StreamTransformer) (r : Registry) : Registry :=
  {| requestTransformers := requestTransformers r;
     responseTransformers := responseTransformers r;
     streamTransformers := sortStreamTransformers (streamTransformers r ++ [plugin]);
     metadataPlugins := metadataPlugins r |}.

(** Metadata plugins are appended and not sorted. *)
Definition RegisterMetadataPlugin (plugin : MetadataPlugin) (r : Registry) : Registry :=
  {| requestTransformers := requestTransformers r;
     responseTransformers := responseTransformers r;
     streamTransformers := streamTransformers r;
     metadataPlugins := metadataPlugins r ++ [plugin] |}.

(** The loop shared, word for word, by [ApplyRequestTransformers],
    [ApplyResponseTransformers] and [ApplyStreamTransformers]; [hook] is the
    transform method of the chain.  Besides the Go result [(bytes, error)]
    it returns the calls made: each plugin whose hook ran, with the bytes it
    was given, in call order. *)
Section Chain.
Context {T : Type} (plugin_of : T → Plugin).
Context (hook : T → Context → bytes → bytes * option error).

Fixpoint applyTransformers (plugins : list T) (ctx : Context) (result : bytes)
  : list (T * bytes) * (bytes * option error) :=
  match plugins with
  | [] => ([], (result, None))
  | plugin :: rest =>
      if negb (Enabled (plugin_of plugin) ctx) then
        applyTransformers rest ctx result
      else
        match hook plugin ctx result with
        | (_, Some err) =>
            ([(plugin, result)],
             ([], Some (wrapError ("plugin " +:+ Name (plugin_of plugin) +:+ " failed: ") err)))
        | (transformed, None) =>
            let '(calls, out) := applyTransformers rest ctx transformed in
            ((plugin, result) :: calls, out)
        end
  end.

(** The bytes a chain of successful hooks produces, each fed the previous
    output: the reading of "t3(t2(t1(input)))". *)
Fixpoint composed (plugins : list T) (ctx : Context) (input : bytes) : bytes :=
  match plugins with
  | [] => input
  | plugin :: rest => composed rest ctx (hook plugin ctx input).1
  end.

(** Every recorded call was given the previous call's output, the first one
    [input]; only the last call may have failed. *)
Fixpoint fed (input : bytes) (calls : list (T * bytes)) (ctx : Context) : Prop :=
  match calls with
  | [] => True
  | (plugin, given) :: rest =>
      given = input ∧
      match rest with
      | [] => True
      | _ => (hook plugin ctx given).2 = None ∧ fed (hook plugin ctx given).1 rest ctx
      end
  end.

End Chain.

Definition ApplyRequestTransformers (r : Registry) (ctx : Context) (request : bytes) :=
  applyTransformers RequestTransformer_Plugin TransformRequest (requestTransformers r) ctx request.

Definition ApplyResponseTransformers (r : Registry) (ctx : Context) (response : bytes) :=
  applyTransformers ResponseTransformer_Plugin TransformResponse (responseTransformers r) ctx response.

Definition ApplyStreamTransformers (r : Registry) (ctx : Context) (chunk : bytes) :=
  applyTransformers StreamTransformer_Plugin TransformChunk (streamTransformers r) ctx chunk.

(** [NotifyRequest] and [NotifyResponse]: the observers called, in order,
    and the state they leave. *)
Fixpoint notifyRequest (plugins : list MetadataPlugin) (ctx : Context)
    (metadata : RequestMetadata) (w : W) : list MetadataPlugin * W :=
  match plugins with
  | [] => ([], w)
  | plugin :: rest =>
      if Enabled plugin ctx then
        let '(calls, w') := notifyRequest rest ctx metadata (OnRequest plugin ctx metadata w) in
        (plugin :: calls, w')
      else notifyRequest rest ctx metadata w
  end.

Fixpoint notifyResponse (plugins : list MetadataPlugin) (ctx : Context)
    (metadata : ResponseMetadata) (w : W) : list MetadataPlugin * W :=
  match plugins with
  | [] => ([], w)
  | plugin :: rest =>
      if Enabled plugin ctx then
        let '(calls, w') := notifyResponse rest ctx metadata (OnResponse plugin ctx metadata w) in
        (plugin :: calls, w')
      else notifyResponse rest ctx metadata w
  end.

Definition NotifyRequest (r : Registry) (ctx : Context) (metadata : RequestMetadata) (w : W) :=
  notifyRequest (metadataPlugins r) ctx metadata w.

Definition NotifyResponse (r : Registry) (ctx : Context) (metadata : ResponseMetadata) (w : W) :=
  notifyResponse (metadataPlugins r) ctx metadata w.

(** "Ascending priority": no plugin is followed by one of smaller priority. *)
Definition ascending {T : Type} (plugin_of : T → Plugin) : relation T :=
  λ p q, Priority (plugin_of p) ≤ Priority (plugin_of q).

(** Registering a list of request transformers one after the other. *)
Definition registerRequestTransformers (plugins : list RequestTransformer) (r : Registry) : Registry :=
  foldl (λ r plugin, RegisterRequestTransformer plugin r) r plugins.

(** *** Facts about the shared loop *)
Section ChainFacts.
Context {T : Type} (plugin_of : T → Plugin).
Context (hook : T → Context → bytes → bytes * option error).

Local Abbreviation apply := (applyTransformers plugin_of hook).
Local Abbreviation enabled ctx := (λ p : T, Enabled (plugin_of p) ctx = true).

Lemma applyTransformers_cons_disabled plugin rest ctx b :
  Enabled (plugin_of plugin) ctx = false →
  apply (plugin :: rest) ctx b = apply rest ctx b.
Proof. intros He. simpl. by rewrite He. Qed.

Lemma applyTransformers_cons_error plugin rest ctx b x err :
  Enabled (plugin_of plugin) ctx = true →
  hook plugin ctx b = (x, Some err) →
  apply (plugin :: rest) ctx b =
    ([(plugin, b)],
     ([], Some (wrapError ("plugin " +:+ Name (plugin_of plugin) +:+ " failed: ") err))).
Proof. intros He Hh. simpl. by rewrite He, Hh. Qed.

Lemma applyTransformers_cons_ok plugin rest ctx b x :
  Enabled (plugin_of plugin) ctx = true →
  hook plugin ctx b = (x, None) →
  apply (plugin :: rest) ctx b =
    ((plugin, b) :: (apply rest ctx x).1, (apply rest ctx x).2).
Proof.
  intros He Hh. simpl. rewrite He, Hh. simpl.
  by destruct (apply rest ctx x) as [calls out].
Qed.

(** Case analysis on the head of the chain, as the loop body branches. *)
Ltac chain_head plugin ctx b x err He Hh :=
  destruct (Enabled (plugin_of plugin) ctx) eqn:He;
  [ destruct (hook plugin ctx b) as [x [err|]] eqn:Hh;
    [ rewrite (applyTransformers_cons_error _ _ _ _ _ _ He Hh)
    | rewrite (applyTransformers_cons_ok _ _ _ _ _ He Hh) ]
  | rewrite (applyTransformers_cons_disabled _ _ _ _ He) ].

Lemma applyTransformers_calls_enabled plugins ctx b p given :
  (p, given) ∈ (apply plugins ctx b).1 →
  Enabled (plugin_of p) ctx = true ∧ p ∈ plugins.
Proof.
  revert b. induction plugins as [|plugin rest IH]; intros b.
  { by intros ?%elem_of_nil. }
  chain_head plugin ctx b x err He Hh; simpl.
  - intros [= -> ->]%list_elem_of_singleton. split; [done|left].
  - intros [[= -> ->]|Hin]%elem_of_cons; [split; [done|left]|].
    destruct (IH _ Hin) as [? ?]. split; [done|by right].
  - intros Hin. destruct (IH _ Hin) as [? ?]. split; [done|by right].
Qed.

Lemma applyTransformers_fed plugins ctx b :
  fed hook b (apply plugins ctx b).1 ctx.
Proof.
  revert b. induction plugins as [|plugin rest IH]; intros b; [done|].
  chain_head plugin ctx b x err He Hh; simpl; [done| |by apply IH].
  split; [done|]. specialize (IH x).
  destruct (apply rest ctx x).1 as [|c calls] eqn:Hc; [done|].
  by rewrite Hh.
Qed.

Lemma applyTransformers_sorted (R : relation T) plugins ctx b :
  StronglySorted R plugins → StronglySorted R (apply plugins ctx b).1.*1.
Proof.
  revert b. induction plugins as [|plugin rest IH]; intros b Hs; [constructor|].
  apply StronglySorted_cons in Hs as [Hall Hs].
  chain_head plugin ctx b x err He Hh; simpl; [repeat constructor| |by apply IH].
  constructor; [by apply IH|].
  apply Forall_forall. intros q Hq.
  apply list_elem_of_fmap in Hq as [[q' given] [-> Hq]].
  apply applyTransformers_calls_enabled in Hq as [_ Hq].
  rewrite Forall_forall in Hall. by apply Hall.
Qed.

(** Without an error every enabled plugin ran, and the result is the
    composition of the hooks that ran. *)
Lemma applyTransformers_success plugins ctx b :
  (apply plugins ctx b).2.2 = None →
  (apply plugins ctx b).1.*1 = filter (enabled ctx) plugins ∧
  (apply plugins ctx b).2.1 = composed hook (filter (enabled ctx) plugins) ctx b.
Proof.
  revert b. induction plugins as [|plugin rest IH]; intros b; [done|].
  chain_head plugin ctx b x err He Hh; simpl; [done| |].
  - intros Hok. destruct (IH _ Hok) as [Hc Ho].
    rewrite filter_cons_True by done. simpl. rewrite Hh. simpl.
    split; [f_equal; exact Hc|exact Ho].
  - intros Hok. rewrite filter_cons_False by congruence. by apply IH.
Qed.

(** With an error the result carries no bytes, the failing hook is the last
    call, and nothing after the failing plugin in the chain was called. *)
Lemma applyTransformers_failure plugins ctx b e :
  (apply plugins ctx b).2.2 = Some e →
  (apply plugins ctx b).2.1 = [] ∧
  ∃ pre p post given err,
    plugins = pre ++ p :: post ∧
    (apply plugins ctx b).1 = (apply pre ctx b).1 ++ [(p, given)] ∧
    (apply pre ctx b).1.*1 = filter (enabled ctx) pre ∧
    Enabled (plugin_of p) ctx = true ∧
    (hook p ctx given).2 = Some err ∧
    e = wrapError ("plugin " +:+ Name (plugin_of p) +:+ " failed: ") err.
Proof.
  revert b. induction plugins as [|plugin rest IH]; intros b; [done|].
  chain_head plugin ctx b x err He Hh; simpl.
  - intros [= <-]. split; [done|].
    exists [], plugin, rest, b, err. simpl. by rewrite Hh.
  - intros He'. destruct (IH _ He') as [Hnil (pre & p & post & given & err' & -> & Hc & Hf & Hen & Hhk & ->)].
    split; [done|].
    exists (plugin :: pre), p, post, given, err'.
    rewrite <-app_comm_cons, (applyTransformers_cons_ok _ _ _ _ _ He Hh). simpl.
    rewrite filter_cons_True by done.
    repeat split; [by rewrite Hc|f_equal; exact Hf|done..].
  - intros He'. destruct (IH _ He') as [Hnil (pre & p & post & given & err' & -> & Hc & Hf & Hen & Hhk & ->)].
    split; [done|].
    exists (plugin :: pre), p, post, given, err'.
    rewrite <-app_comm_cons, (applyTransformers_cons_disabled _ _ _ _ He).
    rewrite filter_cons_False by congruence. done.
Qed.

Lemma applyTransformers_all_disabled plugins ctx b :
  Forall (λ p, Enabled (plugin_of p) ctx = false) plugins →
  apply plugins ctx b = ([], (b, None)).
Proof.
  induction 1 as [|plugin rest Hd _ IH]; [done|].
  by rewrite applyTransformers_cons_disabled.
Qed.

End ChainFacts.

(** *** Facts about the observers' loops *)

Lemma notifyRequest_calls plugins ctx metadata w :
  (notifyRequest plugins ctx metadata w).1 = filter (λ p : MetadataPlugin, Enabled p ctx = true) plugins.
Proof.
  revert w. induction plugins as [|plugin rest IH]; intros w; [done|]. simpl.
  destruct (Enabled plugin ctx) eqn:He.
  - rewrite filter_cons_True by done. specialize (IH (OnRequest plugin ctx metadata w)).
    destruct (notifyRequest rest ctx metadata _) as [calls w']. simpl in *. by rewrite IH.
  - rewrite filter_cons_False by congruence. apply IH.
Qed.

Lemma notifyResponse_calls plugins ctx metadata w :
  (notifyResponse plugins ctx metadata w).1 = filter (λ p : MetadataPlugin, Enabled p ctx = true) plugins.
Proof.
  revert w. induction plugins as [|plugin rest IH]; intros w; [done|]. simpl.
  destruct (Enabled plugin ctx) eqn:He.
  - rewrite filter_cons_True by done. specialize (IH (OnResponse plugin ctx metadata w)).
    destruct (notifyResponse rest ctx metadata _) as [calls w']. simpl in *. by rewrite IH.
  - rewrite filter_cons_False by congruence. apply IH.
Qed.

Lemma notifyRequest_all_disabled plugins ctx metadata w :
  Forall (λ p : MetadataPlugin, Enabled p ctx = false) plugins →
  notifyRequest plugins ctx metadata w = ([], w).
Proof. induction 1 as [|plugin rest Hd _ IH]; [done|]. simpl. by rewrite Hd. Qed.

Lemma notifyResponse_all_disabled plugins ctx metadata w :
  Forall (λ p : MetadataPlugin, Enabled p ctx = false) plugins →
  notifyResponse plugins ctx metadata w = ([], w).
Proof. induction 1 as [|plugin rest Hd _ IH]; [done|]. simpl. by rewrite Hd. Qed.

(** *** Facts about registration *)

Lemma RegisterRequestTransformer_sorted plugin r :
  StronglySorted (ascending RequestTransformer_Plugin)
    (requestTransformers (RegisterRequestTransformer plugin r)).
Proof.
  exact (sort_Slice_sorted RequestTransformer (λ p, Priority p) _).
Qed.

Lemma registerRequestTransformers_Permutation plugins r :
  requestTransformers (registerRequestTransformers plugins r) ≡ₚ requestTransformers r ++ plugins.
Proof.
  unfold registerRequestTransformers.
  induction plugins as [|plugin plugins IH] using rev_ind.
  { by rewrite app_nil_r. }
  rewrite foldl_snoc. simpl. unfold sortRequestTransformers.
  rewrite sort_Slice_Permutation, IH. by rewrite app_assoc.
Qed.

Lemma registerRequestTransformers_sorted plugins :
  StronglySorted (ascending RequestTransformer_Plugin)
    (requestTransformers (registerRequestTransformers plugins NewRegistry)).
Proof.
  unfold registerRequestTransformers.
  destruct plugins as [|plugin plugins _] using rev_ind; [constructor|].
  rewrite foldl_snoc. apply RegisterRequestTransformer_sorted.
Qed.

(** Three transformers of priorities 10, 50 and 1000 end up in that order,
    in whatever order they were registered. *)
Lemma registerRequestTransformers_three plugins (t10 t50 t1000 : RequestTransformer) :
  plugins ≡ₚ [t10; t50; t1000] →
  Priority t10 = 10 → Priority t50 = 50 → Priority t1000 = 1000 →
  requestTransformers (registerRequestTransformers plugins NewRegistry) = [t10; t50; t1000].
Proof.
  intros Hp H10 H50 H1000.
  apply (StronglySorted_unique_strong (ascending RequestTransformer_Plugin)).
  - intros x1 x2 Hx1 Hx2. unfold ascending. intros Hle Hge.
    rewrite registerRequestTransformers_Permutation in Hx1. simpl in Hx1.
    rewrite Hp in Hx1.
    assert (Priority x1 = Priority x2) as Heq by lia.
    set_unfold in Hx1. set_unfold in Hx2.
    destruct Hx1 as [->|[->|[->|[]]]], Hx2 as [->|[->|[->|[]]]]; try done; lia.
  - apply registerRequestTransformers_sorted.
  - unfold ascending. repeat constructor; lia.
  - by rewrite registerRequestTransformers_Permutation.
Qed.

(** *** The claims about the registry *)

(** C2.  Whatever the order in which a set of request transformers was
    registered, [ApplyRequestTransformers] calls the enabled ones in
    ascending [Priority] order, gives the first the request and each next
    one the previous output, and, when none fails, returns the composition
    of the hooks it called.  With three enabled transformers of priorities
    10, 50 and 1000 that succeed, they are called in that order and the
    result is t1000(t50(t10(request))). *)
Theorem ApplyRequestTransformers_priority_order
    (plugins : list RequestTransformer) (ctx : Context) (request : bytes) :
  let r := registerRequestTransformers plugins NewRegistry in
  let calls := (ApplyRequestTransformers r ctx request).1 in
  let out := (ApplyRequestTransformers r ctx request).2 in
  StronglySorted (ascending RequestTransformer_Plugin) calls.*1 ∧
  fed TransformRequest request calls ctx ∧
  (∀ p : RequestTransformer, p ∈ calls.*1 → p ∈ plugins ∧ Enabled p ctx = true) ∧
  (out.2 = None →
     calls.*1 ≡ₚ filter (λ p : RequestTransformer, Enabled p ctx = true) plugins ∧
     out.1 = composed TransformRequest calls.*1 ctx request) ∧
  (∀ t10 t50 t1000 : RequestTransformer,
     plugins ≡ₚ [t10; t50; t1000] →
     Priority t10 = 10 → Priority t50 = 50 → Priority t1000 = 1000 →
     Enabled t10 ctx = true → Enabled t50 ctx = true → Enabled t1000 ctx = true →
     let b1 := TransformRequest t10 ctx request in
     let b2 := TransformRequest t50 ctx b1.1 in
     let b3 := TransformRequest t1000 ctx b2.1 in
     b1.2 = None → b2.2 = None → b3.2 = None →
     calls.*1 = [t10; t50; t1000] ∧ out = (b3.1, None)).
Proof.
  intros r calls out. subst calls out. unfold ApplyRequestTransformers.
  pose proof (registerRequestTransformers_Permutation plugins NewRegistry) as Hperm.
  simpl in Hperm. fold r in Hperm.
  split; [|split; [|split; [|split]]].
  - apply applyTransformers_sorted, registerRequestTransformers_sorted.
  - apply applyTransformers_fed.
  - intros p Hp. apply list_elem_of_fmap in Hp as [[q given] [-> Hq]].
    apply applyTransformers_calls_enabled in Hq as [Hen Hq].
    split; [by rewrite <-Hperm|done].
  - intros Hok. apply applyTransformers_success in Hok as [Hc Ho].
    rewrite Hc, Ho. split; [by rewrite Hperm|done].
  - intros t10 t50 t1000 Hp H10 H50 H1000 E10 E50 E1000 Hb1 Hb2 Hb3.
    subst r. rewrite (registerRequestTransformers_three _ _ _ _ Hp H10 H50 H1000).
    destruct (TransformRequest t10 ctx request) as [x1 e1] eqn:Ht10. simpl in *. subst e1.
    destruct (TransformRequest t50 ctx x1) as [x2 e2] eqn:Ht50. simpl in *. subst e2.
    destruct (TransformRequest t1000 ctx x2) as [x3 e3] eqn:Ht1000. simpl in *. subst e3.
    by rewrite E10, Ht10, E50, Ht50, E1000, Ht1000.
Qed.

Lemma applyTransformers_skips_disabled {T : Type} (plugin_of : T → Plugin) hook
    (plugins : list T) ctx b (p : T) :
  Enabled (plugin_of p) ctx = false →
  p ∉ (applyTransformers plugin_of hook plugins ctx b).1.*1.
Proof.
  intros Hd Hin. apply list_elem_of_fmap in Hin as [[q given] [-> Hq]].
  apply applyTransformers_calls_enabled in Hq as [Hen _]. simpl in Hd. congruence.
Qed.

(** C7.  A plugin whose [Enabled ctx] is false is in none of the call lists
    of the three apply functions and the two notify functions; a chain made
    of disabled plugins only returns its input with a nil error and calls
    nothing, and disabled observers leave the observers' state as it was. *)
Theorem disabled_plugin_never_invoked (r : Registry) (ctx : Context) :
  (∀ (p : RequestTransformer) request,
     Enabled p ctx = false → p ∉ (ApplyRequestTransformers r ctx request).1.*1) ∧
  (∀ (p : ResponseTransformer) response,
     Enabled p ctx = false → p ∉ (ApplyResponseTransformers r ctx response).1.*1) ∧
  (∀ (p : StreamTransformer) chunk,
     Enabled p ctx = false → p ∉ (ApplyStreamTransformers r ctx chunk).1.*1) ∧
  (∀ (p : MetadataPlugin) metadata w,
     Enabled p ctx = false → p ∉ (NotifyRequest r ctx metadata w).1) ∧
  (∀ (p : MetadataPlugin) metadata w,
     Enabled p ctx = false → p ∉ (NotifyResponse r ctx metadata w).1) ∧
  (Forall (λ p : RequestTransformer, Enabled p ctx = false) (requestTransformers r) →
     ∀ request, ApplyRequestTransformers r ctx request = ([], (request, None))) ∧
  (Forall (λ p : ResponseTransformer, Enabled p ctx = false) (responseTransformers r) →
     ∀ response, ApplyResponseTransformers r ctx response = ([], (response, None))) ∧
  (Forall (λ p : StreamTransformer, Enabled p ctx = false) (streamTransformers r) →
     ∀ chunk, ApplyStreamTransformers r ctx chunk = ([], (chunk, None))) ∧
  (Forall (λ p : MetadataPlugin, Enabled p ctx = false) (metadataPlugins r) →
     ∀ w, (∀ metadata, NotifyRequest r ctx metadata w = ([], w)) ∧
          (∀ metadata, NotifyResponse r ctx metadata w = ([], w))).
Proof.
  unfold ApplyRequestTransformers, ApplyResponseTransformers,
    ApplyStreamTransformers, NotifyRequest, NotifyResponse.
  split; [|split; [|split; [|split; [|split; [|split; [|split; [|split]]]]]]].
  - intros p request. apply applyTransformers_skips_disabled.
  - intros p response. apply applyTransformers_skips_disabled.
  - intros p chunk. apply applyTransformers_skips_disabled.
  - intros p metadata w Hd. rewrite notifyRequest_calls.
    rewrite list_elem_of_filter. intros [Hen _]. congruence.
  - intros p metadata w Hd. rewrite notifyResponse_calls.
    rewrite list_elem_of_filter. intros [Hen _]. congruence.
  - intros Hall request. by apply applyTransformers_all_disabled.
  - intros Hall response. by apply applyTransformers_all_disabled.
  - intros Hall chunk. by apply applyTransformers_all_disabled.
  - intros Hall w. split; intros metadata.
    + by apply notifyRequest_all_disabled.
    + by apply notifyResponse_all_disabled.
Qed.

End Registry.

(** A sort that meets the contract of [sort.Slice], to run the registry on
    concrete plugins: stdpp's merge sort for "not less the other way". *)
Definition mergeSortSlice (A : Type) (less : A → A → bool) (l : list A) : list A :=
  merge_sort (λ x y, negb (less y x)) l.

Lemma StronglySorted_weaken {A : Type} (R1 R2 : relation A) (l : list A) :
  (∀ x y, R1 x y → R2 x y) → StronglySorted R1 l → StronglySorted R2 l.
Proof.
  intros HR. induction 1 as [|x l _ IH Hall]; constructor; [done|].
  eapply Forall_impl; [exact Hall|]. intros y. apply HR.
Qed.

Lemma mergeSortSlice_Permutation (A : Type) (less : A → A → bool) (l : list A) :
  mergeSortSlice A less l ≡ₚ l.
Proof. apply merge_sort_Permutation. Qed.

Lemma mergeSortSlice_sorted (A : Type) (key : A → Z) (l : list A) :
  StronglySorted (λ x y, key x ≤ key y)
    (mergeSortSlice A (λ x y, bool_decide (key x < key y)) l).
Proof.
  unfold mergeSortSlice.
  set (R := λ x y : A, Is_true (negb (bool_decide (key y < key x)))).
  assert (HR : ∀ x y, R x y ↔ key x ≤ key y).
  { intros x y. unfold R. rewrite negb_True, bool_decide_spec. lia. }
  assert (Transitive R).
  { intros x y z. rewrite !HR. lia. }
  assert (Total R).
  { intros x y. rewrite !HR. lia. }
  apply (StronglySorted_weaken R); [intros x y; apply HR|].
  apply (StronglySorted_merge_sort R).
Qed.

End Plugins.

(** Three request transformers of priorities 1000, 10 and 50, registered in
    that order; each appends one byte to the body. *)
Module PluginExample.
Import Plugins.

Definition appendByte (name : string) (priority : Z) (b : Byte.byte) : RequestTransformer :=
  {| RequestTransformer_Plugin :=
       {| Name := name; Description := ""; Priority := priority; Enabled := λ _, true |};
     TransformRequest := λ _ request, (request ++ [b], None) |}.

Definition t10 := appendByte "t10" 10 Byte.x61.
Definition t50 := appendByte "t50" 50 Byte.x62.
Definition t1000 := appendByte "t1000" 1000 Byte.x63.

Definition ctx0 : Context :=
  {| ctxProvider := None; ctxModel := None; ctxRequestID := None |}.

Definition registry0 : @Registry unit :=
  registerRequestTransformers mergeSortSlice [t1000; t10; t50] NewRegistry.

Lemma ApplyRequestTransformers_priority_order_witness :
  (ApplyRequestTransformers registry0 ctx0 [Byte.x5f]).1.*1 = [t10; t50; t1000] ∧
  (ApplyRequestTransformers registry0 ctx0 [Byte.x5f]).2 =
    ([Byte.x5f; Byte.x61; Byte.x62; Byte.x63], None).
Proof.
  destruct (ApplyRequestTransformers_priority_order (W:=unit) mergeSortSlice
              mergeSortSlice_Permutation mergeSortSlice_sorted
              [t1000; t10; t50] ctx0 [Byte.x5f]) as (_ & _ & _ & _ & Hthree).
  apply (Hthree t10 t50 t1000); try reflexivity.
  exact (Permutation_cons_append [t10; t50] t1000).
Defined.

End PluginExample.

(** ** The proxy handler's use of the pipeline *)
Module Proxy.
Import Plugins.

(** *** Observers that fail

    [OnRequest] and [OnResponse] return nothing, so the only way for an
    observer to fail is to panic.  [NotifyRequest] and [NotifyResponse] are
    given again here for hooks that can: a hook returns the state it leaves
    and the value it panicked with, if it did, and, the loops having no
    [recover], a panic leaves them at once. *)
Module Observers.
Section Observers.
Context {W : Type}.

Record MetadataPlugin := {
  MetadataPlugin_Plugin :> Plugin;
  OnRequest : Context → RequestMetadata → W → W * option string;
  OnResponse : Context → ResponseMetadata → W → W * option string;
}.

(** The loop of [NotifyRequest] and of [NotifyResponse], [hook] being
    [OnRequest] or [OnResponse]: the observers called, in order, the state
    they leave, and the panic that ended the loop, if one did. *)
Fixpoint notify {M : Type} (hook : MetadataPlugin → Context → M → W → W * option string)
    (plugins : list MetadataPlugin) (ctx : Context) (metadata : M) (w : W)
  : list MetadataPlugin * (W * option string) :=
  match plugins with
  | [] => ([], (w, None))
  | plugin :: rest =>
      if Enabled plugin ctx then
        match hook plugin ctx metadata w with
        | (w', Some v) => ([plugin], (w', Some v))
        | (w', None) =>
            let '(calls, end_) := notify hook rest ctx metadata w' in
            (plugin :: calls, end_)
        end
      else notify hook rest ctx metadata w
  end.

Definition NotifyRequest (plugins : list MetadataPlugin) (ctx : Context)
    (metadata : RequestMetadata) (w : W) :=
  notify OnRequest plugins ctx metadata w.

Definition NotifyResponse (plugins : list MetadataPlugin) (ctx : Context)
    (metadata : ResponseMetadata) (w : W) :=
  notify OnResponse plugins ctx metadata w.

(** An observer whose hooks always return. *)
Definition returning (plugin : @Plugins.MetadataPlugin W) : MetadataPlugin :=
  {| MetadataPlugin_Plugin := plugin;
     OnRequest := λ ctx metadata w, (Plugins.OnRequest plugin ctx metadata w, None);
     OnResponse := λ ctx metadata w, (Plugins.OnResponse plugin ctx metadata w, None) |}.

End Observers.
End Observers.

Section Handler.
Context {W : Type}.

Inductive RequestStep :=
| Abort (status : Z)
| Forward (body : bytes).

(** Modelled from the spec: the proxy handler's treatment of a plugin error
    (section 7, PluginError, and section 4.5, steps 7 and 9).  The handler is
    not among the sources; only the registry functions it calls are.  A
    failing request chain aborts the request with status 500.  *)
Definition applyRequestPipeline (r : @Registry W) (ctx : Context) (body : bytes) : RequestStep :=
  match (ApplyRequestTransformers r ctx body).2 with
  | (_, Some _) => Abort 500
  | (transformed, None) => Forward transformed
  end.

(** Modelled from the spec: the proxy handler's treatment of a plugin error
    in the response chain (section 7: "log, pass the pre-transform bytes
    through").  The registry returns no bytes with an error, so the bytes
    passed through are the ones the handler gave to the chain. *)
Definition applyResponsePipeline (r : @Registry W) (ctx : Context) (body : bytes) : bytes :=
  match (ApplyResponseTransformers r ctx body).2 with
  | (_, Some _) => body
  | (transformed, None) => transformed
  end.

(** Modelled from the spec: the same for one chunk of a streamed response. *)
Definition applyStreamPipeline (r : @Registry W) (ctx : Context) (chunk : bytes) : bytes :=
  match (ApplyStreamTransformers r ctx chunk).2 with
  | (_, Some _) => chunk
  | (transformed, None) => transformed
  end.

(** Modelled from the spec: steps 6 and 7 of the handler (section 4.5),
    "fire OnRequest on all metadata observers" and then "apply request
    transformers", under the policy of section 7 for observers, "log,
    continue".  An observer fails by panicking, and [NotifyRequest] lets the
    panic through, so the handler is the one to recover it; the request then
    goes on to the request chain.  [observers] are the registry's metadata
    plugins. *)
Definition handleRequest (r : @Registry W) (observers : list (@Observers.MetadataPlugin W))
    (ctx : Context) (metadata : RequestMetadata) (body : bytes) (w : W) : W * RequestStep :=
  let '(_, (w', _)) := Observers.NotifyRequest observers ctx metadata w in
  (w', applyRequestPipeline r ctx body).

(** Modelled from the spec: steps 9 (buffered) and 10 of the handler, the
    response chain and then "fire OnResponse on metadata observers", under
    the same policy: the body written, and the observers' state. *)
Definition handleResponse (r : @Registry W) (observers : list (@Observers.MetadataPlugin W))
    (ctx : Context) (metadata : ResponseMetadata) (body : bytes) (w : W) : W * bytes :=
  let written := applyResponsePipeline r ctx body in
  let '(_, (w', _)) := Observers.NotifyResponse observers ctx metadata w in
  (w', written).

(** *** Facts *)

(** A chain whose first part goes through and whose next plugin is enabled
    and fails stops there: the calls are those of the first part and the
    failing one, no bytes are returned, and the error is the plugin's,
    wrapped with its name. *)
Lemma applyTransformers_failing_hook {T : Type} (plugin_of : T → Plugin)
    (hook : T → Context → bytes → bytes * option error)
    (pre : list T) (p : T) (post : list T) (ctx : Context)
    (input given out : bytes) (calls : list (T * bytes)) (err : error) :
  applyTransformers plugin_of hook pre ctx input = (calls, (given, None)) →
  Enabled (plugin_of p) ctx = true →
  hook p ctx given = (out, Some err) →
  applyTransformers plugin_of hook (pre ++ p :: post) ctx input =
    (calls ++ [(p, given)],
     ([], Some (wrapError ("plugin " +:+ Name (plugin_of p) +:+ " failed: ") err))).
Proof.
  intros Hpre Hen Hfail. revert input calls Hpre.
  induction pre as [|q pre IH]; intros input calls Hpre.
  - injection Hpre as <- <-. simpl. by rewrite Hen, Hfail.
  - simpl in *. destruct (Enabled (plugin_of q) ctx); simpl in *; [|by apply IH].
    destruct (hook q ctx input) as [transformed [e|]]; [done|].
    destruct (applyTransformers plugin_of hook pre ctx transformed) as [calls' res] eqn:Hrest.
    injection Hpre as <- ->. by rewrite (IH transformed calls').
Qed.

(** The same for the observers: a panic ends the notification. *)
Lemma notify_panicking_hook {M : Type}
    (hook : @Observers.MetadataPlugin W → Context → M → W → W * option string)
    (pre : list Observers.MetadataPlugin) (p : Observers.MetadataPlugin)
    (post : list Observers.MetadataPlugin) (ctx : Context) (metadata : M)
    (w w1 w2 : W) (calls : list Observers.MetadataPlugin) (v : string) :
  Observers.notify hook pre ctx metadata w = (calls, (w1, None)) →
  Enabled (Observers.MetadataPlugin_Plugin p) ctx = true →
  hook p ctx metadata w1 = (w2, Some v) →
  Observers.notify hook (pre ++ p :: post) ctx metadata w = (calls ++ [p], (w2, Some v)).
Proof.
  intros Hpre Hen Hpanic. revert w calls Hpre.
  induction pre as [|q pre IH]; intros w calls Hpre.
  - injection Hpre as <- <-. simpl. by rewrite Hen, Hpanic.
  - simpl in *. destruct (Enabled (Observers.MetadataPlugin_Plugin q) ctx); [|by apply IH].
    destruct (hook q ctx metadata w) as [w' [v'|]]; [done|].
    destruct (Observers.notify hook pre ctx metadata w') as [calls' res] eqn:Hrest.
    injection Hpre as <- ->. by rewrite (IH w' calls').
Qed.

(** With hooks that always return, the loops are those of the registry. *)
Lemma notify_returning (plugins : list (@Plugins.MetadataPlugin W)) (ctx : Context) :
  (∀ metadata w,
     Observers.NotifyRequest (Observers.returning <$> plugins) ctx metadata w =
       (Observers.returning <$> (notifyRequest plugins ctx metadata w).1,
        ((notifyRequest plugins ctx metadata w).2, None))) ∧
  (∀ metadata w,
     Observers.NotifyResponse (Observers.returning <$> plugins) ctx metadata w =
       (Observers.returning <$> (notifyResponse plugins ctx metadata w).1,
        ((notifyResponse plugins ctx metadata w).2, None))).
Proof.
  unfold Observers.NotifyRequest, Observers.NotifyResponse.
  split; intros metadata; induction plugins as [|p plugins IH]; intros w; try done;
    simpl; destruct (Enabled p ctx); simpl; try apply IH; rewrite IH;
    [by destruct (notifyRequest plugins ctx metadata _)
    |by destruct (notifyResponse plugins ctx metadata _)].
Qed.

(** C3.  Request transformers fail closed.  When the transformers before
    [p] go through and [p], enabled, returns an error,
    [ApplyRequestTransformers] stops at [p]: it returns no bytes and [p]'s
    error (wrapped with its name), the transformers after [p] are not
    called, and the handler aborts with status 500 instead of forwarding.
    This is the only way for the chain to fail.  Response and stream
    transformers fail open: their chains stop in the same way, and the
    handler writes the bytes it had before the chain.  An observer that
    panics ends [NotifyRequest] or [NotifyResponse], which do not recover,
    but the handler goes on: whatever the observers do, the request reaches
    the request chain and the response is written.  With observers that
    return, the handler leaves the state [NotifyRequest] of the registry
    leaves. *)
Theorem plugin_error_policy (r : @Registry W) (ctx : Context) :
  (∀ pre p post request calls given out err,
     requestTransformers r = pre ++ p :: post →
     applyTransformers RequestTransformer_Plugin TransformRequest pre ctx request
       = (calls, (given, None)) →
     Enabled p ctx = true →
     TransformRequest p ctx given = (out, Some err) →
     ApplyRequestTransformers r ctx request =
       (calls ++ [(p, given)],
        ([], Some (wrapError ("plugin " +:+ Name p +:+ " failed: ") err))) ∧
     applyRequestPipeline r ctx request = Abort 500) ∧
  (∀ request e,
     (ApplyRequestTransformers r ctx request).2.2 = Some e →
     (ApplyRequestTransformers r ctx request).2.1 = [] ∧
     (∃ pre p post given err,
        requestTransformers r = pre ++ p :: post ∧
        (ApplyRequestTransformers r ctx request).1.*1 =
          filter (λ q : RequestTransformer, Enabled q ctx = true) pre ++ [p] ∧
        (TransformRequest p ctx given).2 = Some err ∧
        e = wrapError ("plugin " +:+ Name p +:+ " failed: ") err) ∧
     applyRequestPipeline r ctx request = Abort 500) ∧
  (∀ request,
     (ApplyRequestTransformers r ctx request).2.2 = None →
     applyRequestPipeline r ctx request =
       Forward (ApplyRequestTransformers r ctx request).2.1) ∧
  (∀ pre p post response calls given out err,
     responseTransformers r = pre ++ p :: post →
     applyTransformers ResponseTransformer_Plugin TransformResponse pre ctx response
       = (calls, (given, None)) →
     Enabled p ctx = true →
     TransformResponse p ctx given = (out, Some err) →
     ApplyResponseTransformers r ctx response =
       (calls ++ [(p, given)],
        ([], Some (wrapError ("plugin " +:+ Name p +:+ " failed: ") err))) ∧
     applyResponsePipeline r ctx response = response) ∧
  (∀ pre p post chunk calls given out err,
     streamTransformers r = pre ++ p :: post →
     applyTransformers StreamTransformer_Plugin TransformChunk pre ctx chunk
       = (calls, (given, None)) →
     Enabled p ctx = true →
     TransformChunk p ctx given = (out, Some err) →
     ApplyStreamTransformers r ctx chunk =
       (calls ++ [(p, given)],
        ([], Some (wrapError ("plugin " +:+ Name p +:+ " failed: ") err))) ∧
     applyStreamPipeline r ctx chunk = chunk) ∧
  (∀ pre p post metadata w calls w1 w2 v,
     Observers.NotifyRequest pre ctx metadata w = (calls, (w1, None)) →
     Enabled (Observers.MetadataPlugin_Plugin p) ctx = true →
     Observers.OnRequest p ctx metadata w1 = (w2, Some v) →
     Observers.NotifyRequest (pre ++ p :: post) ctx metadata w = (calls ++ [p], (w2, Some v)) ∧
     ∀ body, handleRequest r (pre ++ p :: post) ctx metadata body w =
               (w2, applyRequestPipeline r ctx body)) ∧
  (∀ pre p post metadata w calls w1 w2 v,
     Observers.NotifyResponse pre ctx metadata w = (calls, (w1, None)) →
     Enabled (Observers.MetadataPlugin_Plugin p) ctx = true →
     Observers.OnResponse p ctx metadata w1 = (w2, Some v) →
     Observers.NotifyResponse (pre ++ p :: post) ctx metadata w = (calls ++ [p], (w2, Some v)) ∧
     ∀ body, handleResponse r (pre ++ p :: post) ctx metadata body w =
               (w2, applyResponsePipeline r ctx body)) ∧
  (∀ observers metadata body w,
     (handleRequest r observers ctx metadata body w).2 = applyRequestPipeline r ctx body ∧
     (∀ status, (handleRequest r observers ctx metadata body w).2 = Abort status →
        status = 500 ∧ is_Some (ApplyRequestTransformers r ctx body).2.2)) ∧
  (∀ observers metadata body w,
     (handleResponse r observers ctx metadata body w).2 = applyResponsePipeline r ctx body) ∧
  (∀ metadata body w,
     handleRequest r (Observers.returning <$> metadataPlugins r) ctx metadata body w =
       ((NotifyRequest r ctx metadata w).2, applyRequestPipeline r ctx body)).
Proof.
  split; [|split; [|split; [|split; [|split; [|split; [|split; [|split; [|split]]]]]]]].
  - intros pre p post request calls given out err Hsplit Hpre Hen Hfail.
    assert (Hrun := applyTransformers_failing_hook RequestTransformer_Plugin TransformRequest
                      pre p post ctx request given out calls err Hpre Hen Hfail).
    unfold applyRequestPipeline, ApplyRequestTransformers. rewrite Hsplit, Hrun. done.
  - intros request e He. unfold applyRequestPipeline.
    destruct (ApplyRequestTransformers r ctx request) as [calls [out oe]] eqn:Hrun.
    simpl in He. subst oe. unfold ApplyRequestTransformers in Hrun.
    destruct (applyTransformers_failure RequestTransformer_Plugin TransformRequest
                (requestTransformers r) ctx request e) as
      [Hnil (pre & p & post & given & err & Hsplit & Hcalls & Hpre & _ & Hfail & ->)].
    { by rewrite Hrun. }
    rewrite Hrun in Hnil, Hcalls. simpl in *. split; [done|]. split; [|done].
    exists pre, p, post, given, err. split; [done|]. split; [|done].
    rewrite Hcalls, fmap_app, Hpre. done.
  - intros request Hok. unfold applyRequestPipeline.
    destruct (ApplyRequestTransformers r ctx request) as [calls [out oe]].
    simpl in *. by subst oe.
  - intros pre p post response calls given out err Hsplit Hpre Hen Hfail.
    assert (Hrun := applyTransformers_failing_hook ResponseTransformer_Plugin TransformResponse
                      pre p post ctx response given out calls err Hpre Hen Hfail).
    unfold applyResponsePipeline, ApplyResponseTransformers. rewrite Hsplit, Hrun. done.
  - intros pre p post chunk calls given out err Hsplit Hpre Hen Hfail.
    assert (Hrun := applyTransformers_failing_hook StreamTransformer_Plugin TransformChunk
                      pre p post ctx chunk given out calls err Hpre Hen Hfail).
    unfold applyStreamPipeline, ApplyStreamTransformers. rewrite Hsplit, Hrun. done.
  - intros pre p post metadata w calls w1 w2 v Hpre Hen Hpanic.
    assert (Hrun := notify_panicking_hook Observers.OnRequest pre p post ctx metadata
                      w w1 w2 calls v Hpre Hen Hpanic).
    split; [exact Hrun|]. intros body. unfold handleRequest, Observers.NotifyRequest.
    by rewrite Hrun.
  - intros pre p post metadata w calls w1 w2 v Hpre Hen Hpanic.
    assert (Hrun := notify_panicking_hook Observers.OnResponse pre p post ctx metadata
                      w w1 w2 calls v Hpre Hen Hpanic).
    split; [exact Hrun|]. intros body. unfold handleResponse, Observers.NotifyResponse.
    by rewrite Hrun.
  - intros observers metadata body w. unfold handleRequest.
    destruct (Observers.NotifyRequest observers ctx metadata w) as [calls [w' panic]].
    split; [done|]. simpl. unfold applyRequestPipeline.
    destruct (ApplyRequestTransformers r ctx body) as [cs [out [e|]]]; simpl; [|done].
    intros status [= <-]. by split; [|eexists].
  - intros observers metadata body w. unfold handleResponse.
    by destruct (Observers.NotifyResponse observers ctx metadata w) as [calls [w' panic]].
  - intros metadata body w. unfold handleRequest, NotifyRequest.
    by rewrite (proj1 (notify_returning (metadataPlugins r) ctx)).
Qed.

End Handler.
End Proxy.

(** A request chain and a response chain in which the second of three
    plugins fails, with a disabled plugin in front, and observers the
    second of which panics. *)
Module ProxyExample.
Import Plugins Proxy PluginExample.

Definition boom : error := errorString "boom".

Definition failing : RequestTransformer :=
  {| RequestTransformer_Plugin :=
       {| Name := "failing"; Description := ""; Priority := 20; Enabled := λ _, true |};
     TransformRequest := λ _ request, (request, Some boom) |}.

Definition disabled : RequestTransformer :=
  {| RequestTransformer_Plugin :=
       {| Name := "disabled"; Description := ""; Priority := 5; Enabled := λ _, false |};
     TransformRequest := λ _ request, ([], Some boom) |}.

Definition failingResponse : ResponseTransformer :=
  {| ResponseTransformer_Plugin :=
       {| Name := "failing"; Description := ""; Priority := 20; Enabled := λ _, true |};
     TransformResponse := λ _ response, ([], Some boom) |}.

Definition registry1 : @Registry nat :=
  {| requestTransformers := [disabled; t10; failing; t50];
     responseTransformers := [failingResponse];
     streamTransformers := [];
     metadataPlugins := [] |}.

(** Observers that count the calls made to them. *)
Definition counting (name : string) : @Observers.MetadataPlugin nat :=
  {| Observers.MetadataPlugin_Plugin :=
       {| Name := name; Description := ""; Priority := 0; Enabled := λ _, true |};
     Observers.OnRequest := λ _ _ n, (S n, None);
     Observers.OnResponse := λ _ _ n, (S n, None) |}.

Definition panicking : @Observers.MetadataPlugin nat :=
  {| Observers.MetadataPlugin_Plugin :=
       {| Name := "panicking"; Description := ""; Priority := 0; Enabled := λ _, true |};
     Observers.OnRequest := λ _ _ n, (n, Some "nil map");
     Observers.OnResponse := λ _ _ n, (n, Some "nil map") |}.

Definition metadata0 : RequestMetadata :=
  {| req_Provider := "openai"; req_Model := "gpt-4o"; req_InputTokens := 0;
     req_HasStreaming := false; req_Raw := [] |}.

Example ApplyRequestTransformers_fails_closed :
  ApplyRequestTransformers registry1 ctx0 [Byte.x5f] =
    ([(t10, [Byte.x5f]); (failing, [Byte.x5f; Byte.x61])],
     ([], Some (wrapError "plugin failing failed: " boom))) ∧
  applyRequestPipeline registry1 ctx0 [Byte.x5f] = Abort 500.
Proof. split; reflexivity. Qed.

Example ApplyResponseTransformers_fails_open :
  (ApplyResponseTransformers registry1 ctx0 [Byte.x5f]).2 =
    ([], Some (wrapError "plugin failing failed: " boom)) ∧
  applyResponsePipeline registry1 ctx0 [Byte.x5f] = [Byte.x5f].
Proof. split; reflexivity. Qed.

(** The failing request transformer of [registry1], and the panicking
    observer between two that count. *)
Lemma plugin_error_policy_witness :
  (ApplyRequestTransformers registry1 ctx0 [Byte.x5f] =
     ([(t10, [Byte.x5f])] ++ [(failing, [Byte.x5f; Byte.x61])],
      ([], Some (wrapError ("plugin " +:+ Name failing +:+ " failed: ") boom))) ∧
   applyRequestPipeline registry1 ctx0 [Byte.x5f] = Abort 500) ∧
  (Observers.NotifyRequest ([counting "first"] ++ panicking :: [counting "last"])
     ctx0 metadata0 0%nat = ([counting "first"] ++ [panicking], (1%nat, Some "nil map")) ∧
   ∀ body, handleRequest registry1 ([counting "first"] ++ panicking :: [counting "last"])
             ctx0 metadata0 body 0%nat = (1%nat, applyRequestPipeline registry1 ctx0 body)).
Proof.
  destruct (plugin_error_policy registry1 ctx0) as (Hclosed & _ & _ & _ & _ & Hobserver & _).
  split.
  - apply (Hclosed [disabled; t10] failing [t50] [Byte.x5f] [(t10, [Byte.x5f])]
             [Byte.x5f; Byte.x61] [Byte.x5f; Byte.x61] boom); reflexivity.
  - apply (Hobserver [counting "first"] panicking [counting "last"] metadata0 0%nat
             [counting "first"] 1%nat 1%nat "nil map"); reflexivity.
Defined.

End ProxyExample.

(** ** internal/plugins/builtin *)
Module Builtin.

(** The plugins work on the decoded body.  [json.Unmarshal] into a
    [map[string]interface{}] succeeds on an object, leaves the map nil on
    [null], and fails on any other document; [json.Marshal] of the map gives
    back an object ([null] for the nil map).  A body is therefore taken as
    the [JSON] document it holds. *)

Definition unmarshalError : error :=
  errorString "json: cannot unmarshal into Go value of type map[string]interface {}".

Record SystemPromptInjectorPlugin := {
  systemPrompt : string;
  spi_enabled : bool;
}.

Definition NewSystemPromptInjectorPlugin (systemPrompt : string) (enabled : bool) :=
  {| systemPrompt := systemPrompt; spi_enabled := enabled |}.

Definition SystemPromptInjector_Name : string := "system-prompt-injector".
Definition SystemPromptInjector_Priority : Z := 10.
Definition SystemPromptInjector_Enabled (p : SystemPromptInjectorPlugin) (ctx : Context) : bool :=
  spi_enabled p && bool_decide (systemPrompt p ≠ "").

(** The separator "\n\n". *)
Definition lineFeed : Ascii.ascii :=
  Ascii.Ascii false true false true false false false false.
Definition blankLine : string := String lineFeed (String lineFeed "").

Definition SystemPromptInjector_TransformRequest (p : SystemPromptInjectorPlugin)
    (request : JSON) : outcome (JSON * option error) :=
  match request with
  | JObject req =>
      match req !! "system" with
      | Some (JString existingSystem) =>
          if bool_decide (existingSystem ≠ "") then
            Return (JObject (<["system" := JString (systemPrompt p +:+ blankLine +:+ existingSystem)]> req), None)
          else
            Return (JObject (<["system" := JString (systemPrompt p)]> req), None)
      | _ => Return (JObject (<["system" := JString (systemPrompt p)]> req), None)
      end
  | JNull => Panic "assignment to entry in nil map"
  | _ => Return (request, Some unmarshalError)
  end.

Record ResponseFilterPlugin := {
  filterWords : list string;
  replacement : string;
  rf_enabled : bool;
}.

Definition NewResponseFilterPlugin (filterWords : list string) (replacement : string) (enabled : bool) :=
  {| filterWords := filterWords; replacement := replacement; rf_enabled := enabled |}.

Definition ResponseFilter_Name : string := "response-filter".
Definition ResponseFilter_Priority : Z := 50.
Definition ResponseFilter_Enabled (p : ResponseFilterPlugin) (ctx : Context) : bool :=
  rf_enabled p && bool_decide (0 < length (filterWords p))%nat.

(** [replaceAll]: the body sets [result := s] and returns it. *)
Definition replaceAll (s old new : string) : string :=
  let result := s in
  result.

(** One turn of the loop over [content]. *)
Definition filterBlock (p : ResponseFilterPlugin) (item : JSON) : JSON :=
  match item with
  | JObject block =>
      match block !! "text" with
      | Some (JString text) =>
          let filtered :=
            foldl (λ filtered word, replaceAll filtered word (replacement p)) text (filterWords p) in
          JObject (<["text" := JString filtered]> block)
      | _ => item
      end
  | _ => item
  end.

Definition ResponseFilter_TransformResponse (p : ResponseFilterPlugin)
    (response : JSON) : JSON * option error :=
  match response with
  | JObject resp =>
      match resp !! "content" with
      | Some (JArray content) =>
          (JObject (<["content" := JArray (filterBlock p <$> content)]> resp), None)
      | _ => (JObject resp, None)
      end
  | JNull => (JNull, None)
  | _ => (response, Some unmarshalError)
  end.

(** What section 4.4(c) asks of one text: every occurrence of [old] gone,
    [new] in its place, scanning from the left as [strings.ReplaceAll] does
    (an empty [old] is left alone here). *)
Fixpoint dropPrefix (old s : string) : option string :=
  match old, s with
  | EmptyString, _ => Some s
  | String a old', String b s' => if Ascii.eqb a b then dropPrefix old' s' else None
  | String _ _, EmptyString => None
  end.

Fixpoint replaceEvery (fuel : nat) (s old new : string) : string :=
  match fuel with
  | O => s
  | S fuel =>
      match s with
      | EmptyString => EmptyString
      | String c s' =>
          match dropPrefix old s with
          | Some after => new +:+ replaceEvery fuel after old new
          | None => String c (replaceEvery fuel s' old new)
          end
      end
  end.

Definition intendedReplaceAll (s old new : string) : string :=
  if bool_decide (old = "") then s else replaceEvery (String.length s) s old new.

(** A response with one text block that holds a configured word. *)
Definition secretBlock : gmap string JSON :=
  <["type" := JString "text"]> (<["text" := JString "the secret word"]> ∅).

Definition secretResponse : JSON :=
  JObject (<["role" := JString "assistant"]> (<["content" := JArray [JObject secretBlock]]> ∅)).

Definition secretFilter : ResponseFilterPlugin :=
  NewResponseFilterPlugin ["secret"] "[redacted]" true.

(** A request whose [system] is a list of structured blocks. *)
Definition structuredSystem : JSON :=
  JArray [JObject (<["type" := JString "text"]> (<["text" := JString "You are helpful"]> ∅))].

Definition structuredRequest : gmap string JSON :=
  <["model" := JString "m"]> (<["system" := structuredSystem]> ∅).

Definition briefInjector : SystemPromptInjectorPlugin :=
  NewSystemPromptInjectorPlugin "Be brief" true.

(** *** Facts *)

Lemma replaceAll_id s old new : replaceAll s old new = s.
Proof. reflexivity. Qed.

Lemma foldl_replaceAll_id words new text :
  foldl (λ filtered word, replaceAll filtered word new) text words = text.
Proof. induction words as [|w words IH]; simpl; [done|]. by rewrite replaceAll_id. Qed.

Lemma filterBlock_id p item : filterBlock p item = item.
Proof.
  destruct item as [| | | | |block]; try done. simpl.
  destruct (block !! "text") as [[| | |text| |]|] eqn:Ht; try done.
  rewrite foldl_replaceAll_id. f_equal. by apply insert_id.
Qed.

Lemma filterBlock_fmap_id p (content : list JSON) : filterBlock p <$> content = content.
Proof.
  induction content as [|item content IH]; [done|].
  rewrite fmap_cons, filterBlock_id. by rewrite IH.
Qed.

Example intendedReplaceAll_secret :
  intendedReplaceAll "the secret word" "secret" "[redacted]" = "the [redacted] word".
Proof. reflexivity. Qed.

(** C4 (the code does not do what the claim says).  [TransformResponse] of
    the response filter returns every decoded response as it was, whatever
    the word list and the replacement: [replaceAll] returns its first
    argument.  On [secretResponse] with the word "secret" configured the text
    block still reads "the secret word", where the replacement asked for
    gives "the [redacted] word". *)
Theorem ResponseFilter_TransformResponse_replaces_nothing :
  (∀ p resp, ResponseFilter_TransformResponse p (JObject resp) = (JObject resp, None)) ∧
  ResponseFilter_Enabled secretFilter
    {| ctxProvider := None; ctxModel := None; ctxRequestID := None |} = true ∧
  ResponseFilter_TransformResponse secretFilter secretResponse = (secretResponse, None) ∧
  secretBlock !! "text" = Some (JString "the secret word") ∧
  intendedReplaceAll "the secret word" "secret" (replacement secretFilter) ≠ "the secret word".
Proof.
  assert (Hid : ∀ p resp,
    ResponseFilter_TransformResponse p (JObject resp) = (JObject resp, None)).
  { intros p resp. simpl.
    destruct (resp !! "content") as [[| | | |content|]|] eqn:Hc; try done.
    rewrite filterBlock_fmap_id. by rewrite insert_id. }
  split; [exact Hid|]. split; [done|]. split; [apply Hid|]. split; [done|].
  vm_compute. discriminate.
Qed.

Lemma SystemPromptInjector_prepends_to_string p req existing :
  req !! "system" = Some (JString existing) → existing ≠ "" →
  SystemPromptInjector_TransformRequest p (JObject req) =
    Return (JObject (<["system" := JString (systemPrompt p +:+ blankLine +:+ existing)]> req), None).
Proof. intros Hs Hne. simpl. rewrite Hs. by rewrite bool_decide_eq_true_2. Qed.

Lemma SystemPromptInjector_sets_when_absent p req :
  req !! "system" = None →
  SystemPromptInjector_TransformRequest p (JObject req) =
    Return (JObject (<["system" := JString (systemPrompt p)]> req), None).
Proof. intros Hs. simpl. by rewrite Hs. Qed.

(** C5 (the code does not do what the claim says for a structured system
    field).  When [system] holds a list of blocks the type assertion to
    string fails and the plugin overwrites the field with its prompt: the
    blocks are gone from the result.  On [structuredRequest] the result's
    [system] is the string "Be brief". *)
Theorem SystemPromptInjector_overwrites_structured_system :
  (∀ p req blocks,
     req !! "system" = Some (JArray blocks) →
     SystemPromptInjector_TransformRequest p (JObject req) =
       Return (JObject (<["system" := JString (systemPrompt p)]> req), None)) ∧
  SystemPromptInjector_Enabled briefInjector
    {| ctxProvider := None; ctxModel := None; ctxRequestID := None |} = true ∧
  SystemPromptInjector_TransformRequest briefInjector (JObject structuredRequest) =
    Return (JObject (<["model" := JString "m"]> (<["system" := JString "Be brief"]> ∅)), None).
Proof.
  split; [|split].
  - intros p req blocks Hs. simpl. by rewrite Hs.
  - reflexivity.
  - vm_compute. reflexivity.
Qed.

End Builtin.

(** ** internal/config, as far as the providers read it *)
Module Config.

(** [config.Provider] is declared outside the sources at hand; the adapters
    read its name, its endpoint and its key material. *)
Record Provider := {
  Name : string;
  APIBase : string;
  APIKey : JSON;
}.

End Config.

(** ** internal/providers *)
Module Providers.

(** registry.go, [ContentBlockState] and [StreamState]. *)
Record ContentBlockState := {
  Type_ : string;
  StartSent : bool;
  StopSent : bool;
  ToolCallID : string;
  ToolCallIndex : Z;
  ToolName : string;
  Arguments : string;
}.

Record StreamState := {
  MessageStartSent : bool;
  MessageID : string;
  Model : string;
  InitialUsage : gmap string JSON;
  ContentBlocks : gmap Z ContentBlockState;
  CurrentIndex : Z;
}.

(** The implementations of the [Provider] interface that [Initialize]
    constructs, each holding the configuration entry it was built from. *)
Inductive Provider :=
| OpenRouterProvider (cfg : Config.Provider)
| OpenAIProvider (cfg : Config.Provider)
| AnthropicProvider (cfg : Config.Provider)
| NvidiaProvider (cfg : Config.Provider)
| GeminiProvider (cfg : Config.Provider)
| OllamaProvider (cfg : Config.Provider).

Definition NewOpenRouterProvider := OpenRouterProvider.
Definition NewOpenAIProvider := OpenAIProvider.
Definition NewAnthropicProvider := AnthropicProvider.
Definition NewNvidiaProvider := NvidiaProvider.
Definition NewGeminiProvider := GeminiProvider.
Definition NewOllamaProvider := OllamaProvider.

Definition providerConfig (p : Provider) : Config.Provider :=
  match p with
  | OpenRouterProvider cfg | OpenAIProvider cfg | AnthropicProvider cfg
  | NvidiaProvider cfg | GeminiProvider cfg | OllamaProvider cfg => cfg
  end.

(** [Name()]: the Anthropic adapter returns [p.Provider.Name]; the other
    adapters' files are not at hand and are taken to do the same. *)
Definition Name (p : Provider) : string := Config.Name (providerConfig p).

(** The Anthropic adapter's hooks. *)
Definition AnthropicProvider_SupportsStreaming : bool := true.

Definition AnthropicProvider_GetEndpoint (cfg : Config.Provider) : string := Config.APIBase cfg.

Definition AnthropicProvider_TransformRequest (cfg : Config.Provider) (request : bytes)
  : bytes * option error := (request, None).

Definition AnthropicProvider_TransformResponse (cfg : Config.Provider) (response : bytes)
  : bytes * option error := (response, None).

(** [state] is a pointer in Go: the call returns the state it leaves. *)
Definition AnthropicProvider_TransformStream (cfg : Config.Provider) (chunk : bytes)
    (state : StreamState) : (bytes * option error) * StreamState :=
  ((chunk, None), state).

Record Registry := {
  providers : gmap string Provider;
}.

Definition NewRegistry : Registry := {| providers := ∅ |}.

Definition Register (provider : Provider) (r : Registry) : Registry :=
  {| providers := <[Name provider := provider]> (providers r) |}.

(** [Get]: [Some p] is [(p, true)], [None] is [(nil, false)]. *)
Definition Get (r : Registry) (name : string) : option Provider :=
  providers r !! name.

Definition initializeOne (r : Registry) (cfgProvider : Config.Provider) : Registry :=
  if bool_decide (Config.Name cfgProvider = "openrouter") then
    Register (NewOpenRouterProvider cfgProvider) r
  else if bool_decide (Config.Name cfgProvider = "openai") then
    Register (NewOpenAIProvider cfgProvider) r
  else if bool_decide (Config.Name cfgProvider = "anthropic") then
    Register (NewAnthropicProvider cfgProvider) r
  else if bool_decide (Config.Name cfgProvider = "nvidia") then
    Register (NewNvidiaProvider cfgProvider) r
  else if bool_decide (Config.Name cfgProvider = "gemini") then
    Register (NewGeminiProvider cfgProvider) r
  else if bool_decide (Config.Name cfgProvider = "ollama") then
    Register (NewOllamaProvider cfgProvider) r
  else r.

Definition Initialize (r : Registry) (cfgProviders : list Config.Provider) : Registry :=
  foldl initializeOne r cfgProviders.

(** The names [Initialize] has a case for. *)
Definition initializedNames : list string :=
  ["openrouter"; "openai"; "anthropic"; "nvidia"; "gemini"; "ollama"].

(** The eight families the configuration wizard offers (cmd/config.go). *)
Definition supportedNames : list string :=
  ["openrouter"; "openai"; "anthropic"; "ollama"; "deepseek"; "groq"; "nvidia"; "gemini"].

(** *** Facts *)

Lemma initializeOne_registers r cfg :
  Config.Name cfg ∈ initializedNames →
  is_Some (Get (initializeOne r cfg) (Config.Name cfg)).
Proof.
  intros Hin. unfold initializeOne, Get.
  repeat case_bool_decide;
    try (unfold Register; simpl; unfold Name; simpl; rewrite lookup_insert_eq; by eexists).
  unfold initializedNames in Hin.
  repeat (apply elem_of_cons in Hin as [?|Hin]; [done|]).
  by apply elem_of_nil in Hin.
Qed.

Lemma initializeOne_keeps r cfg name :
  is_Some (Get r name) → is_Some (Get (initializeOne r cfg) name).
Proof.
  intros Hs. unfold initializeOne, Get in *.
  repeat case_bool_decide; try done;
    unfold Register; simpl; rewrite lookup_insert; case_decide; eauto.
Qed.

Lemma initializeOne_other r cfg name :
  name ∉ initializedNames → Get (initializeOne r cfg) name = Get r name.
Proof.
  intros Hn. unfold initializeOne, Get.
  repeat case_bool_decide; try done;
    unfold Register; simpl; unfold Name; simpl;
    apply lookup_insert_ne; intros Heq; apply Hn; rewrite <-Heq;
    match goal with
    | H : Config.Name cfg = _ |- _ => rewrite H; by apply (bool_decide_unpack _)
    end.
Qed.

Lemma Initialize_keeps cfgProviders r name :
  is_Some (Get r name) → is_Some (Get (Initialize r cfgProviders) name).
Proof.
  unfold Initialize. revert r.
  induction cfgProviders as [|cfg rest IH]; intros r Hs; [done|].
  simpl. by apply IH, initializeOne_keeps.
Qed.

(** For the six names with a case, [Get] finds an adapter afterwards. *)
Lemma Initialize_registers cfgProviders r cfg :
  cfg ∈ cfgProviders → Config.Name cfg ∈ initializedNames →
  is_Some (Get (Initialize r cfgProviders) (Config.Name cfg)).
Proof.
  unfold Initialize. revert r.
  induction cfgProviders as [|c rest IH]; intros r Hin Hname.
  { by apply elem_of_nil in Hin. }
  apply elem_of_cons in Hin as [->|Hin]; simpl.
  - by apply (Initialize_keeps rest), initializeOne_registers.
  - by apply IH.
Qed.

Lemma Initialize_other cfgProviders r name :
  name ∉ initializedNames → Get (Initialize r cfgProviders) name = Get r name.
Proof.
  intros Hn. unfold Initialize. revert r.
  induction cfgProviders as [|c rest IH]; intros r; [done|].
  simpl. rewrite IH. by apply initializeOne_other.
Qed.

(** C6 (the code does not do what the claim says for two of the eight
    families).  [Initialize] has no case for "deepseek" and none for "groq":
    whatever the configuration lists, [Get] finds no adapter under these two
    names afterwards, also when the configuration has an entry of that
    name. *)
Theorem Initialize_skips_deepseek_and_groq :
  "deepseek" ∈ supportedNames ∧ "groq" ∈ supportedNames ∧
  (∀ cfgProviders,
     Get (Initialize NewRegistry cfgProviders) "deepseek" = None ∧
     Get (Initialize NewRegistry cfgProviders) "groq" = None) ∧
  Get (Initialize NewRegistry
         [{| Config.Name := "deepseek";
             Config.APIBase := "https://api.deepseek.com/chat/completions";
             Config.APIKey := JString "sk-1" |}]) "deepseek" = None.
Proof.
  assert (Hd : "deepseek" ∉ initializedNames) by (by apply (bool_decide_unpack _)).
  assert (Hg : "groq" ∉ initializedNames) by (by apply (bool_decide_unpack _)).
  split; [by apply (bool_decide_unpack _)|].
  split; [by apply (bool_decide_unpack _)|].
  split.
  - intros cfgProviders. by rewrite !Initialize_other.
  - by rewrite Initialize_other.
Qed.

(** C8.  The Anthropic adapter returns the request, the response and a
    stream chunk as they are, with a nil error, and leaves the stream state
    as it was. *)
Theorem AnthropicProvider_is_identity (cfg : Config.Provider) (b : bytes) (s : StreamState) :
  AnthropicProvider_TransformRequest cfg b = (b, None) ∧
  AnthropicProvider_TransformResponse cfg b = (b, None) ∧
  (AnthropicProvider_TransformStream cfg b s).1 = (b, None) ∧
  (AnthropicProvider_TransformStream cfg b s).2 = s.
Proof. repeat split. Qed.

End Providers.

(** ** internal/webui *)
Module Webui.

(** Go's [int64], and [int] on the 64-bit targets the Justfile builds
    (amd64, arm64): arithmetic wraps around modulo 2^64. *)
Definition minInt64 : Z := - 2 ^ 63.
Definition maxInt64 : Z := 2 ^ 63 - 1.
Definition inInt64 (z : Z) : Prop := minInt64 ≤ z ≤ maxInt64.
Definition wrap64 (z : Z) : Z := (z + 2 ^ 63) `mod` 2 ^ 64 - 2 ^ 63.

(** [time.Time] is kept as an instant on an integer clock. *)
Record RequestLog := {
  Timestamp : Z;
  Provider : string;
  Model : string;
  InputTokens : Z;
  OutputTokens : Z;
  DurationMs : Z;
  Status : Z;
}.

Record Stats := {
  TotalRequests : Z;
  TotalTokens : Z;
  RequestsByModel : gmap string Z;
  TokensByModel : gmap string Z;
  RecentRequests : list RequestLog;
  StartTime : Z;
}.

(** The statistics [NewServer] starts with. *)
Definition newStats (startTime : Z) : Stats :=
  {| TotalRequests := 0;
     TotalTokens := 0;
     RequestsByModel := ∅;
     TokensByModel := ∅;
     RecentRequests := [];
     StartTime := startTime |}.

(** [fmt.Sprintf("%s/%s", provider, model)]. *)
Definition modelKeyOf (provider model : string) : string := provider +:+ "/" +:+ model.

(** A missing key of a Go map reads as the zero value. *)
Definition counter (m : gmap string Z) (key : string) : Z := default 0 (m !! key).

(** [Server.LogRequest], on the statistics the server points to; [now] is
    what [time.Now()] returns during the call. *)
Definition LogRequest (s : Stats) (now : Z) (provider model : string)
    (inputTokens outputTokens : Z) (durationMs : Z) (status : Z) : Stats :=
  let tokens := wrap64 (inputTokens + outputTokens) in
  let modelKey := modelKeyOf provider model in
  let log :=
    {| Timestamp := now; Provider := provider; Model := model;
       InputTokens := inputTokens; OutputTokens := outputTokens;
       DurationMs := durationMs; Status := status |} in
  let recent := RecentRequests s ++ [log] in
  {| TotalRequests := wrap64 (TotalRequests s + 1);
     TotalTokens := wrap64 (TotalTokens s + tokens);
     RequestsByModel :=
       <[modelKey := wrap64 (counter (RequestsByModel s) modelKey + 1)]> (RequestsByModel s);
     TokensByModel :=
       <[modelKey := wrap64 (counter (TokensByModel s) modelKey + tokens)]> (TokensByModel s);
     RecentRequests := if bool_decide (100 < length recent)%nat then drop 1 recent else recent;
     StartTime := StartTime s |}.

(** The statistics after a list of calls, each given as its arguments. *)
Definition logAll (s : Stats) (calls : list (Z * string * string * Z * Z * Z * Z)) : Stats :=
  foldl (λ s '(now, provider, model, inputTokens, outputTokens, durationMs, status),
           LogRequest s now provider model inputTokens outputTokens durationMs status) s calls.

(** [maskString]: Go's [len] and slicing count bytes, as [String.length]
    and [substring] do on a string of 8-bit characters. *)
Definition maskString (s : string) : string :=
  if bool_decide (s = "") then ""
  else if bool_decide (String.length s ≤ 8)%nat then "****"
  else String.substring 0 4 s +:+ "****" +:+ String.substring (String.length s - 4) 4 s.

(** [maskAPIKey]: the key is an [interface{}] read from the configuration. *)
Definition maskAPIKey (key : JSON) : string :=
  match key with
  | JNull => ""
  | JString v => maskString v
  | JArray v => "[" +:+ pretty (length v) +:+ " keys configured]"
  | _ => "[configured]"
  end.

(** *** Facts *)

Lemma wrap64_inInt64 z : inInt64 (wrap64 z).
Proof.
  unfold inInt64, wrap64, minInt64, maxInt64.
  pose proof (Z.mod_pos_bound (z + 2 ^ 63) (2 ^ 64)). lia.
Qed.

Lemma wrap64_id z : inInt64 z → wrap64 z = z.
Proof.
  unfold inInt64, wrap64, minInt64, maxInt64. intros Hz.
  rewrite Z.mod_small by lia. lia.
Qed.

Lemma LogRequest_recent_length s now provider model inputTokens outputTokens durationMs status :
  (length (RecentRequests s) ≤ 100)%nat →
  (length (RecentRequests (LogRequest s now provider model inputTokens outputTokens durationMs status)) ≤ 100)%nat.
Proof.
  intros Hlen. simpl. case_bool_decide as Hc.
  - rewrite length_drop, length_app. simpl. lia.
  - lia.
Qed.

Lemma logAll_recent_length calls startTime :
  (length (RecentRequests (logAll (newStats startTime) calls)) ≤ 100)%nat.
Proof.
  unfold logAll.
  induction calls as [|[[[[[[now provider] model] i] o] d] st] calls IH] using rev_ind.
  { simpl. lia. }
  rewrite foldl_snoc. by apply LogRequest_recent_length.
Qed.

(** C9, as the code has it.  A call of [LogRequest] keeps
    [len(RecentRequests) <= 100], appending the new entry and dropping the
    oldest one when there were 100 already; it sets [TotalRequests] to the
    old value plus 1, and [TotalTokens] and the model's token counter to the
    old value plus [inputTokens + outputTokens], all in 64-bit wrap-around
    arithmetic; these are the exact sums whenever the exact sums are within
    the range of [int64]. *)
Theorem LogRequest_keeps_stats (s : Stats) (now : Z) (provider model : string)
    (inputTokens outputTokens durationMs status : Z) :
  let s' := LogRequest s now provider model inputTokens outputTokens durationMs status in
  let key := modelKeyOf provider model in
  let log :=
    {| Timestamp := now; Provider := provider; Model := model;
       InputTokens := inputTokens; OutputTokens := outputTokens;
       DurationMs := durationMs; Status := status |} in
  ((length (RecentRequests s) ≤ 100)%nat → (length (RecentRequests s') ≤ 100)%nat) ∧
  ((length (RecentRequests s) < 100)%nat → RecentRequests s' = RecentRequests s ++ [log]) ∧
  ((length (RecentRequests s) = 100)%nat →
     RecentRequests s' = drop 1 (RecentRequests s) ++ [log]) ∧
  TotalRequests s' = wrap64 (TotalRequests s + 1) ∧
  TotalTokens s' = wrap64 (TotalTokens s + wrap64 (inputTokens + outputTokens)) ∧
  counter (TokensByModel s') key =
    wrap64 (counter (TokensByModel s) key + wrap64 (inputTokens + outputTokens)) ∧
  (inInt64 (TotalRequests s + 1) → TotalRequests s' = TotalRequests s + 1) ∧
  (inInt64 (inputTokens + outputTokens) →
     (inInt64 (TotalTokens s + (inputTokens + outputTokens)) →
        TotalTokens s' = TotalTokens s + (inputTokens + outputTokens)) ∧
     (inInt64 (counter (TokensByModel s) key + (inputTokens + outputTokens)) →
        counter (TokensByModel s') key =
          counter (TokensByModel s) key + (inputTokens + outputTokens))).
Proof.
  intros s' key log.
  split; [apply LogRequest_recent_length|].
  split.
  { intros Hlt. subst s'. simpl. rewrite bool_decide_eq_false_2; [done|].
    rewrite length_app. simpl. lia. }
  split.
  { intros Heq. subst s'. simpl. rewrite bool_decide_eq_true_2.
    - destruct (RecentRequests s) as [|r rs]; [simpl in Heq; lia|done].
    - rewrite length_app. simpl. lia. }
  split; [done|]. split; [done|].
  assert (Hc : counter (TokensByModel s') key =
    wrap64 (counter (TokensByModel s) key + wrap64 (inputTokens + outputTokens))).
  { subst s'. unfold counter at 1. simpl. by rewrite lookup_insert_eq. }
  split; [exact Hc|].
  split.
  { intros Hr. subst s'. simpl. by apply wrap64_id. }
  intros Hsum. split.
  - intros Hr. subst s'. simpl. rewrite (wrap64_id (inputTokens + outputTokens)) by done.
    by apply wrap64_id.
  - intros Hr. rewrite Hc, (wrap64_id (inputTokens + outputTokens)) by done.
    by apply wrap64_id.
Qed.

(** C9 as stated fails when the sum of the two token counts leaves the
    range of [int]: from fresh statistics, with [inputTokens] the largest
    [int] and [outputTokens = 1], [TotalTokens] does not go up by their sum
    (2^63) but down to the smallest [int64]. *)
Lemma LogRequest_token_sum_wraps :
  inInt64 maxInt64 ∧ inInt64 1 ∧
  TotalTokens (LogRequest (newStats 0) 0 "openai" "gpt-4o" maxInt64 1 0 200) = minInt64 ∧
  TotalTokens (LogRequest (newStats 0) 0 "openai" "gpt-4o" maxInt64 1 0 200)
    ≠ TotalTokens (newStats 0) + (maxInt64 + 1).
Proof.
  split; [unfold inInt64, minInt64, maxInt64; lia|].
  split; [unfold inInt64, minInt64, maxInt64; lia|].
  split; [by vm_compute|]. by vm_compute.
Qed.

Lemma substring_length_le n m s : (String.length (String.substring n m s) ≤ m)%nat.
Proof.
  revert n m. induction s as [|c s IH]; intros n m.
  - destruct n, m; simpl; lia.
  - destruct n as [|n]; [destruct m as [|m]|]; simpl; [lia| |apply IH].
    specialize (IH 0%nat m). lia.
Qed.

(** C10.  [maskString] returns the empty string for the empty string,
    "****" for a string of at most 8 bytes, and otherwise the first four
    bytes, "****" and the last four bytes: two strings longer than 8 that
    agree on their first four and last four bytes are masked alike.
    [maskAPIKey] of a key that is no string returns the empty string (nil),
    the number of keys in a list, or the placeholder "[configured]". *)
Theorem maskString_reveals_at_most_eight_bytes :
  maskString "" = "" ∧
  (∀ s, s ≠ "" → (String.length s ≤ 8)%nat → maskString s = "****") ∧
  (∀ s, (8 < String.length s)%nat →
     maskString s = String.substring 0 4 s +:+ "****" +:+ String.substring (String.length s - 4) 4 s) ∧
  (∀ s s', (8 < String.length s)%nat → (8 < String.length s')%nat →
     String.substring 0 4 s = String.substring 0 4 s' →
     String.substring (String.length s - 4) 4 s = String.substring (String.length s' - 4) 4 s' →
     maskString s = maskString s') ∧
  maskAPIKey JNull = "" ∧
  (∀ v, maskAPIKey (JArray v) = "[" +:+ pretty (length v) +:+ " keys configured]") ∧
  (∀ key, (∀ v, key ≠ JString v) → (∀ v, key ≠ JArray v) → key ≠ JNull →
     maskAPIKey key = "[configured]").
Proof.
  assert (Hlong : ∀ s, (8 < String.length s)%nat →
    maskString s = String.substring 0 4 s +:+ "****" +:+ String.substring (String.length s - 4) 4 s).
  { intros s Hs. unfold maskString.
    rewrite bool_decide_eq_false_2 by (intros ->; simpl in Hs; lia).
    rewrite bool_decide_eq_false_2 by lia. done. }
  split; [done|]. split.
  { intros s Hne Hs. unfold maskString.
    rewrite bool_decide_eq_false_2 by done. by rewrite bool_decide_eq_true_2. }
  split; [exact Hlong|]. split.
  { intros s s' Hs Hs' Hfirst Hlast. rewrite !Hlong by done. by rewrite Hfirst, Hlast. }
  split; [done|]. split; [done|].
  intros key Hstr Harr Hnil. destruct key; try done.
  - by destruct (Hstr s).
  - by destruct (Harr items).
Qed.

Example maskString_long : maskString "sk-1234567890abcd" = "sk-1****abcd".
Proof. reflexivity. Qed.

Example maskAPIKey_pool : maskAPIKey (JArray [JString "k1"; JString "k2"; JString "k3"]) = "[3 keys configured]".
Proof. reflexivity. Qed.

End Webui.

(** ** The stream translator (OpenAI-shaped chunks to Anthropic events) *)
Module StreamTranslator.
Import Providers.

(** *** Upstream events *)

(** One entry of [delta.tool_calls]: the upstream's own index, and the id,
    function name and piece of arguments it carries (empty when absent). *)
Record ToolCallDelta := {
  tc_index : Z;
  tc_id : string;
  tc_name : string;
  tc_arguments : string;
}.

(** The fields the translator reads off one well-formed upstream payload. *)
Record Chunk := {
  chunk_id : string;
  chunk_model : string;
  delta_content : string;
  delta_tool_calls : list ToolCallDelta;
  finish_reason : option string;
}.

(** An upstream SSE event: a payload that parses, one that does not, or the
    [DONE] sentinel.  The end of the list is the connection closing. *)
Inductive UpstreamEvent :=
| Data (c : Chunk)
| Malformed
| Done.

(** *** Anthropic events (the usage figures they carry are left out) *)

Inductive ContentBlock :=
| TextBlock
| ToolUseBlock (id name : string).

Inductive BlockDelta :=
| TextDelta (text : string)
| InputJSONDelta (partial_json : string).

Inductive Event :=
| message_start (id model : string)
| content_block_start (index : Z) (block : ContentBlock)
| content_block_delta (index : Z) (delta : BlockDelta)
| content_block_stop (index : Z)
| message_delta (stop_reason : string)
| message_stop.

(** *** The translator *)

(** Modelled from the spec: the state a response starts with (section 3),
    taken as Go's zero values and empty maps of [StreamState]. *)
Definition newStreamState : StreamState :=
  {| MessageStartSent := false; MessageID := ""; Model := "";
     InitialUsage := ∅; ContentBlocks := ∅; CurrentIndex := 0 |}.

Global Instance ContentBlockState_eq_dec : EqDecision ContentBlockState.
Proof. solve_decision. Defined.

(** Modelled from the spec: the index a newly opened block gets (sections 3
    and 4.3; the translator is not among the sources, only [StreamState]
    is).  Indices start at 0 and [CurrentIndex] is the index of the block
    opened last, so a fresh index is 0 for the first block and
    [CurrentIndex + 1] afterwards. *)
Definition freshIndex (st : StreamState) : Z :=
  if bool_decide (ContentBlocks st = ∅) then 0 else CurrentIndex st + 1.

(** Modelled from the spec: opening a block at a fresh index records it in
    [content_blocks] and makes it the current one. *)
Definition openBlock (block : ContentBlockState) (st : StreamState) : Z * StreamState :=
  let index := freshIndex st in
  (index,
   {| MessageStartSent := MessageStartSent st; MessageID := MessageID st;
      Model := Model st; InitialUsage := InitialUsage st;
      ContentBlocks := <[index := block]> (ContentBlocks st);
      CurrentIndex := index |}).

(** Modelled from the spec: the lookups of rule 2 ("no open text block",
    "state already tracks upstream tool index i") go through the blocks in
    index order; [firstIndex] is the lowest index among [candidates] whose
    block satisfies [P]. *)
Fixpoint firstIndex (P : ContentBlockState → bool) (blocks : gmap Z ContentBlockState)
    (candidates : list Z) : option Z :=
  match candidates with
  | [] => None
  | i :: rest =>
      match blocks !! i with
      | Some block => if P block then Some i else firstIndex P blocks rest
      | None => firstIndex P blocks rest
      end
  end.

Definition findBlock (P : ContentBlockState → bool) (st : StreamState) : option Z :=
  firstIndex P (ContentBlocks st) (seqZ 0 (freshIndex st)).

Definition isOpen (block : ContentBlockState) : bool :=
  StartSent block && negb (StopSent block).

Definition isOpenText (block : ContentBlockState) : bool :=
  bool_decide (Type_ block = "text") && isOpen block.

Definition tracksToolCall (i : Z) (block : ContentBlockState) : bool :=
  bool_decide (Type_ block = "tool_use") && bool_decide (ToolCallIndex block = i).

Definition newTextBlock : ContentBlockState :=
  {| Type_ := "text"; StartSent := true; StopSent := false;
     ToolCallID := ""; ToolCallIndex := 0; ToolName := ""; Arguments := "" |}.

Definition newToolUseBlock (tc : ToolCallDelta) : ContentBlockState :=
  {| Type_ := "tool_use"; StartSent := true; StopSent := false;
     ToolCallID := tc_id tc; ToolCallIndex := tc_index tc; ToolName := tc_name tc;
     Arguments := "" |}.

(** Modelled from the spec: "accumulate it" (rule 2), appending the piece
    to the block's [Arguments]. *)
Definition accumulate (index : Z) (arguments : string) (st : StreamState) : StreamState :=
  {| MessageStartSent := MessageStartSent st; MessageID := MessageID st;
     Model := Model st; InitialUsage := InitialUsage st;
     ContentBlocks :=
       alter (λ block,
                {| Type_ := Type_ block; StartSent := StartSent block;
                   StopSent := StopSent block; ToolCallID := ToolCallID block;
                   ToolCallIndex := ToolCallIndex block; ToolName := ToolName block;
                   Arguments := Arguments block +:+ arguments |})
             index (ContentBlocks st);
     CurrentIndex := CurrentIndex st |}.

(** Modelled from the spec: emission rule 1 of section 4.3, with the [id]
    and [model] the event carries and the state captures. *)
Definition emitMessageStart (id model : string) (st : StreamState) : list Event * StreamState :=
  if MessageStartSent st then ([], st)
  else
    ([message_start id model],
     {| MessageStartSent := true; MessageID := id; Model := model;
        InitialUsage := InitialUsage st; ContentBlocks := ContentBlocks st;
        CurrentIndex := CurrentIndex st |}).

(** Modelled from the spec: emission rule 2, text ("if there is no open
    text block, open one at a fresh index ...; emit content_block_delta"). *)
Definition emitText (content : string) (st : StreamState) : list Event * StreamState :=
  if bool_decide (content = "") then ([], st)
  else
    match findBlock isOpenText st with
    | Some index => ([content_block_delta index (TextDelta content)], st)
    | None =>
        let '(index, st') := openBlock newTextBlock st in
        ([content_block_start index TextBlock;
          content_block_delta index (TextDelta content)], st')
    end.

(** Modelled from the spec: emission rule 2, one entry of [tool_calls]
    ("if state already tracks upstream tool index i, reuse; else assign a
    fresh index and emit content_block_start ...; if the arguments delta is
    non-empty, accumulate it and emit content_block_delta"). *)
Definition emitToolCall (tc : ToolCallDelta) (st : StreamState) : list Event * StreamState :=
  let '(index, started, st1) :=
    match findBlock (tracksToolCall (tc_index tc)) st with
    | Some index => (index, [], st)
    | None =>
        let '(index, st') := openBlock (newToolUseBlock tc) st in
        (index, [content_block_start index (ToolUseBlock (tc_id tc) (tc_name tc))], st')
    end in
  if bool_decide (tc_arguments tc = "") then (started, st1)
  else
    (started ++ [content_block_delta index (InputJSONDelta (tc_arguments tc))],
     accumulate index (tc_arguments tc) st1).

Fixpoint emitToolCalls (tcs : list ToolCallDelta) (st : StreamState) : list Event * StreamState :=
  match tcs with
  | [] => ([], st)
  | tc :: rest =>
      let '(out, st1) := emitToolCall tc st in
      let '(out', st2) := emitToolCalls rest st1 in
      (out ++ out', st2)
  end.

(** Modelled from the spec: the mapping of [finish_reason] (section 4.2).
    The spec lists four values; any other is taken as ["end_turn"]. *)
Definition mapFinishReason (reason : string) : string :=
  if bool_decide (reason = "stop") then "end_turn"
  else if bool_decide (reason = "length") then "max_tokens"
  else if bool_decide (reason = "tool_calls") then "tool_use"
  else if bool_decide (reason = "content_filter") then "end_turn"
  else "end_turn".

Definition openIndices (st : StreamState) : list Z :=
  filter (λ i, from_option isOpen false (ContentBlocks st !! i) = true)
         (seqZ 0 (freshIndex st)).

Definition markStopped (block : ContentBlockState) : ContentBlockState :=
  {| Type_ := Type_ block; StartSent := StartSent block; StopSent := true;
     ToolCallID := ToolCallID block; ToolCallIndex := ToolCallIndex block;
     ToolName := ToolName block; Arguments := Arguments block |}.

(** Modelled from the spec: emission rule 4 ("emit content_block_stop for
    every still-open block, in ascending index order; emit message_delta;
    emit message_stop").  Rule 3 has no case of its own: the only signal of
    a finished block in the upstream dialect is the [finish_reason], which
    is also the terminal event. *)
Definition emitTail (stop_reason : string) (st : StreamState) : list Event * StreamState :=
  ((content_block_stop <$> openIndices st) ++ [message_delta stop_reason; message_stop],
   {| MessageStartSent := MessageStartSent st; MessageID := MessageID st;
      Model := Model st; InitialUsage := InitialUsage st;
      ContentBlocks := markStopped <$> ContentBlocks st;
      CurrentIndex := CurrentIndex st |}).

(** Modelled from the spec: emission rule 2 for one upstream delta, the
    text first and then the entries of [tool_calls] in their order. *)
Definition emitDeltas (c : Chunk) (st : StreamState) : list Event * StreamState :=
  let '(out1, st1) := emitText (delta_content c) st in
  let '(out2, st2) := emitToolCalls (delta_tool_calls c) st1 in
  (out1 ++ out2, st2).

(** Modelled from the spec: one upstream delta, rules 1, 2 and 4 in that
    order. *)
Definition translateChunk (c : Chunk) (st : StreamState) : list Event * StreamState :=
  let '(out0, st0) := emitMessageStart (chunk_id c) (chunk_model c) st in
  let '(out1, st1) := emitDeltas c st0 in
  match finish_reason c with
  | Some reason =>
      let '(out2, st2) := emitTail (mapFinishReason reason) st1 in
      (out0 ++ out1 ++ out2, st2)
  | None => (out0 ++ out1, st1)
  end.

(** Modelled from the spec: the end of a response that no [finish_reason]
    ended, at the [DONE] sentinel (rule 4) or when the upstream closes
    (section 4.3, robustness): the stops, a [message_delta] with
    ["end_turn"], and [message_stop].  Section 3 wants [message_start]
    exactly once per response, before any other event, so it comes first
    when nothing was parsed before; there is no chunk to take an id and a
    model from then, and the event carries the ones of the state. *)
Definition emitEnd (st : StreamState) : list Event * StreamState :=
  let '(out0, st0) := emitMessageStart (MessageID st) (Model st) st in
  let '(out1, st1) := emitTail "end_turn" st0 in
  (out0 ++ out1, st1).

(** Modelled from the spec: the translator's state for one response, the
    [StreamState] of section 3 and whether the response is complete.  Rule 4
    emits the tail "on the upstream terminal event", scenario S5 has a
    [finish_reason] followed by [DONE] and expects one tail, and section 3
    wants [message_stop] exactly once per response; the handler passes every
    chunk on (section 4.5, step 9), so it is the translator that has to know
    that the tail is out.  [StreamState] has no field for that. *)
Record TranslatorState := {
  stream : StreamState;
  completed : bool;
}.

Definition newTranslatorState : TranslatorState :=
  {| stream := newStreamState; completed := false |}.

(** Modelled from the spec: the translator as "a function of
    (upstream_chunk, state)" (section 4.3), called once per upstream event.
    A payload that does not parse emits nothing and leaves the state alone;
    a [finish_reason] and the [DONE] sentinel complete the response.  Once
    the response is complete nothing more is emitted, whatever the upstream
    still sends: section 3 wants [message_stop] once, after every block
    event, and rule 4 takes the delta with the [finish_reason] for the last
    one. *)
Definition TransformStream (ev : UpstreamEvent) (st : TranslatorState)
    : list Event * TranslatorState :=
  if completed st then ([], st)
  else
    match ev with
    | Data c =>
        let '(out, s) := translateChunk c (stream st) in
        (out, {| stream := s; completed := bool_decide (is_Some (finish_reason c)) |})
    | Malformed => ([], st)
    | Done =>
        let '(out, s) := emitEnd (stream st) in
        (out, {| stream := s; completed := true |})
    end.

(** Modelled from the spec: the upstream closing (section 4.3, robustness:
    "if the upstream closes without a terminal event, the translator still
    emits ..."). *)
Definition closeStream (st : TranslatorState) : list Event :=
  if completed st then [] else (emitEnd (stream st)).1.

(** Modelled from the spec: one response.  The handler gives the translator
    every upstream event, in order, and writes what it returns (section 4.5,
    step 9); the end of the list is the upstream closing. *)
Fixpoint translate (events : list UpstreamEvent) (st : TranslatorState) : list Event :=
  match events with
  | [] => closeStream st
  | ev :: rest =>
      let '(out, st') := TransformStream ev st in
      out ++ translate rest st'
  end.

Definition translateStream (events : list UpstreamEvent) : list Event :=
  translate events newTranslatorState.

(** *** Reading an emitted stream *)

Definition isDelta (i : Z) (e : Event) : bool :=
  match e with content_block_delta j _ => bool_decide (j = i) | _ => false end.


Definition count (P : Event → bool) (out : list Event) : nat :=
  length (filter (λ e, P e = true) out).


(** *** The state between two upstream events, and the shape of a stream *)






(** Scenario S5 of the spec. *)
Definition textChunk (content : string) : Chunk :=
  {| chunk_id := "chatcmpl-1"; chunk_model := "gpt-4o"; delta_content := content;
     delta_tool_calls := []; finish_reason := None |}.

Definition scenarioS5 : list UpstreamEvent :=
  [ Data (textChunk "Hello");
    Data (textChunk " world");
    Data {| chunk_id := "chatcmpl-1"; chunk_model := "gpt-4o"; delta_content := "";
            delta_tool_calls :=
              [{| tc_index := 0; tc_id := "tc_1"; tc_name := "get_time";
                  tc_arguments := "{}" |}];
            finish_reason := None |};
    Data {| chunk_id := "chatcmpl-1"; chunk_model := "gpt-4o"; delta_content := "";
            delta_tool_calls := []; finish_reason := Some "tool_calls" |};
    Done ].

(** Testable property 5: text, a tool call, text again, tool arguments under
    an upstream index of 7, end. *)
Definition scenarioInterleaved : list UpstreamEvent :=
  [ Malformed;
    Data (textChunk "a");
    Data {| chunk_id := "chatcmpl-1"; chunk_model := "gpt-4o"; delta_content := "";
            delta_tool_calls :=
              [{| tc_index := 7; tc_id := "tc_1"; tc_name := "get_time";
                  tc_arguments := "" |}];
            finish_reason := None |};
    Data (textChunk "b");
    Data {| chunk_id := "chatcmpl-1"; chunk_model := "gpt-4o"; delta_content := "";
            delta_tool_calls :=
              [{| tc_index := 7; tc_id := ""; tc_name := ""; tc_arguments := "{}" |}];
            finish_reason := Some "tool_calls" |} ].

Example translateStream_S5 :
  translateStream scenarioS5 =
    [ message_start "chatcmpl-1" "gpt-4o";
      content_block_start 0 TextBlock;
      content_block_delta 0 (TextDelta "Hello");
      content_block_delta 0 (TextDelta " world");
      content_block_start 1 (ToolUseBlock "tc_1" "get_time");
      content_block_delta 1 (InputJSONDelta "{}");
      content_block_stop 0;
      content_block_stop 1;
      message_delta "tool_use";
      message_stop ].
Proof. vm_compute. reflexivity. Qed.

Example translateStream_interleaved :
  translateStream scenarioInterleaved =
    [ message_start "chatcmpl-1" "gpt-4o";
      content_block_start 0 TextBlock;
      content_block_delta 0 (TextDelta "a");
      content_block_start 1 (ToolUseBlock "tc_1" "get_time");
      content_block_delta 0 (TextDelta "b");
      content_block_delta 1 (InputJSONDelta "{}");
      content_block_stop 0;
      content_block_stop 1;
      message_delta "tool_use";
      message_stop ].
Proof. vm_compute. reflexivity. Qed.

(** What each upstream event of S5 makes the translator return: the tail
    comes with the [finish_reason], and [DONE] adds nothing to it. *)
Fixpoint perEvent (events : list UpstreamEvent) (st : TranslatorState) : list (list Event) :=
  match events with
  | [] => [closeStream st]
  | ev :: rest => (TransformStream ev st).1 :: perEvent rest (TransformStream ev st).2
  end.

Example TransformStream_S5 :
  perEvent scenarioS5 newTranslatorState =
    [ [ message_start "chatcmpl-1" "gpt-4o";
        content_block_start 0 TextBlock;
        content_block_delta 0 (TextDelta "Hello") ];
      [ content_block_delta 0 (TextDelta " world") ];
      [ content_block_start 1 (ToolUseBlock "tc_1" "get_time");
        content_block_delta 1 (InputJSONDelta "{}") ];
      [ content_block_stop 0;
        content_block_stop 1;
        message_delta "tool_use";
        message_stop ];
      [];
      [] ].
Proof. vm_compute. reflexivity. Qed.

(** An upstream that closes at once, and one whose only event is [DONE]. *)
Example translateStream_empty_upstream :
  translateStream [] = [message_start "" ""; message_delta "end_turn"; message_stop] ∧
  translateStream [Done] = [message_start "" ""; message_delta "end_turn"; message_stop].
Proof. split; reflexivity. Qed.

(** *** Facts about the translator's steps *)

Local Arguments emitTail : simpl never.
Local Arguments emitDeltas : simpl never.
Local Arguments translateChunk : simpl never.
Local Arguments emitEnd : simpl never.































(** *** Reading the shape *)





















End StreamTranslator.

(** * Further coverage of the sources *)

(** ** internal/plugins: the other chains of the registry *)
Module PluginChains.
Import Plugins.

(** Registering lists of plugins, one call of the register function after
    the other. *)
Definition registerResponseTransformers {W : Type}
    (sort_Slice : ∀ A : Type, (A → A → bool) → list A → list A)
    (plugins : list ResponseTransformer) (r : @Registry W) : @Registry W :=
  foldl (λ r plugin, RegisterResponseTransformer sort_Slice plugin r) r plugins.

Definition registerStreamTransformers {W : Type}
    (sort_Slice : ∀ A : Type, (A → A → bool) → list A → list A)
    (plugins : list StreamTransformer) (r : @Registry W) : @Registry W :=
  foldl (λ r plugin, RegisterStreamTransformer sort_Slice plugin r) r plugins.

Definition registerMetadataPlugins {W : Type}
    (plugins : list (@MetadataPlugin W)) (r : @Registry W) : @Registry W :=
  foldl (λ r plugin, RegisterMetadataPlugin plugin r) r plugins.

(** The registry without the plugins that are disabled under [ctx]. *)
Definition dropDisabled {W : Type} (ctx : Context) (r : @Registry W) : @Registry W :=
  {| requestTransformers :=
       filter (λ p : RequestTransformer, Enabled p ctx = true) (requestTransformers r);
     responseTransformers :=
       filter (λ p : ResponseTransformer, Enabled p ctx = true) (responseTransformers r);
     streamTransformers :=
       filter (λ p : StreamTransformer, Enabled p ctx = true) (streamTransformers r);
     metadataPlugins :=
       filter (λ p : MetadataPlugin, Enabled p ctx = true) (metadataPlugins r) |}.

(** The state the observers leave when their hooks run one after the other. *)
Definition observedRequest {W : Type} (plugins : list (@MetadataPlugin W)) (ctx : Context)
    (metadata : RequestMetadata) (w : W) : W :=
  foldl (λ w plugin, OnRequest plugin ctx metadata w) w plugins.

Definition observedResponse {W : Type} (plugins : list (@MetadataPlugin W)) (ctx : Context)
    (metadata : ResponseMetadata) (w : W) : W :=
  foldl (λ w plugin, OnResponse plugin ctx metadata w) w plugins.

Section Facts.
Context {W : Type}.
Variable sort_Slice : ∀ A : Type, (A → A → bool) → list A → list A.
Hypothesis sort_Slice_Permutation :
  ∀ (A : Type) (less : A → A → bool) (l : list A), sort_Slice A less l ≡ₚ l.
Hypothesis sort_Slice_sorted :
  ∀ (A : Type) (key : A → Z) (l : list A),
    StronglySorted (λ x y, key x ≤ key y)
      (sort_Slice A (λ x y, bool_decide (key x < key y)) l).

Lemma registerResponseTransformers_lists plugins (r : @Registry W) :
  let r' := registerResponseTransformers sort_Slice plugins r in
  responseTransformers r' ≡ₚ responseTransformers r ++ plugins ∧
  requestTransformers r' = requestTransformers r ∧
  streamTransformers r' = streamTransformers r ∧
  metadataPlugins r' = metadataPlugins r ∧
  (plugins ≠ [] → StronglySorted (ascending ResponseTransformer_Plugin) (responseTransformers r')).
Proof.
  unfold registerResponseTransformers.
  induction plugins as [|plugin plugins IH] using rev_ind.
  { simpl. by rewrite app_nil_r. }
  rewrite foldl_snoc. simpl in *. destruct IH as (Hp & Hq & Hs & Hm & _).
  split; [|split; [done|split; [done|split; [done|]]]].
  - unfold sortResponseTransformers. rewrite sort_Slice_Permutation, Hp.
    by rewrite app_assoc.
  - intros _. exact (sort_Slice_sorted ResponseTransformer (λ p, Priority p) _).
Qed.

Lemma registerStreamTransformers_lists plugins (r : @Registry W) :
  let r' := registerStreamTransformers sort_Slice plugins r in
  streamTransformers r' ≡ₚ streamTransformers r ++ plugins ∧
  requestTransformers r' = requestTransformers r ∧
  responseTransformers r' = responseTransformers r ∧
  metadataPlugins r' = metadataPlugins r ∧
  (plugins ≠ [] → StronglySorted (ascending StreamTransformer_Plugin) (streamTransformers r')).
Proof.
  unfold registerStreamTransformers.
  induction plugins as [|plugin plugins IH] using rev_ind.
  { simpl. by rewrite app_nil_r. }
  rewrite foldl_snoc. simpl in *. destruct IH as (Hp & Hq & Hs & Hm & _).
  split; [|split; [done|split; [done|split; [done|]]]].
  - unfold sortStreamTransformers. rewrite sort_Slice_Permutation, Hp.
    by rewrite app_assoc.
  - intros _. exact (sort_Slice_sorted StreamTransformer (λ p, Priority p) _).
Qed.

Lemma StronglySorted_or_nil {A} (R : relation A) (l : list A) :
  (l ≠ [] → StronglySorted R l) → StronglySorted R l.
Proof. destruct l; [constructor|]. intros H. by apply H. Qed.

(** X1.  Response and stream transformers, registered in any order in a
    fresh registry, are called by [ApplyResponseTransformers] and
    [ApplyStreamTransformers] in ascending priority, each on the previous
    output; without an error all the enabled ones ran and the result is the
    composition of their hooks. *)
Theorem response_and_stream_chains_priority_order
    (responses : list ResponseTransformer) (streams : list StreamTransformer)
    (ctx : Context) (body : bytes) :
  let r := registerStreamTransformers sort_Slice streams
             (registerResponseTransformers sort_Slice responses (@NewRegistry W)) in
  let res := ApplyResponseTransformers r ctx body in
  let str := ApplyStreamTransformers r ctx body in
  StronglySorted (ascending ResponseTransformer_Plugin) res.1.*1 ∧
  fed TransformResponse body res.1 ctx ∧
  (res.2.2 = None →
     res.1.*1 ≡ₚ filter (λ p : ResponseTransformer, Enabled p ctx = true) responses ∧
     res.2.1 = composed TransformResponse res.1.*1 ctx body) ∧
  StronglySorted (ascending StreamTransformer_Plugin) str.1.*1 ∧
  fed TransformChunk body str.1 ctx ∧
  (str.2.2 = None →
     str.1.*1 ≡ₚ filter (λ p : StreamTransformer, Enabled p ctx = true) streams ∧
     str.2.1 = composed TransformChunk str.1.*1 ctx body).
Proof.
  intros r res str. subst res str.
  unfold ApplyResponseTransformers, ApplyStreamTransformers.
  destruct (registerResponseTransformers_lists responses (@NewRegistry W))
    as (Hrp & _ & Hrstr & _ & Hrs).
  destruct (registerStreamTransformers_lists streams
              (registerResponseTransformers sort_Slice responses NewRegistry))
    as (Hsp & _ & Hsr & _ & Hss).
  simpl in Hrp, Hrstr. rewrite Hrstr in Hsp. simpl in Hsp.
  fold r in Hsp, Hsr, Hss. rewrite <-Hsr in Hrp, Hrs.
  split; [|split; [|split; [|split; [|split]]]].
  - apply applyTransformers_sorted, StronglySorted_or_nil.
    intros Hne. apply Hrs. intros ->. by apply Permutation_nil_r in Hrp.
  - apply applyTransformers_fed.
  - intros Hok. apply applyTransformers_success in Hok as [Hc Ho].
    rewrite Hc, Ho. split; [by rewrite Hrp|done].
  - apply applyTransformers_sorted, StronglySorted_or_nil.
    intros Hne. apply Hss. intros ->. by apply Permutation_nil_r in Hsp.
  - apply applyTransformers_fed.
  - intros Hok. apply applyTransformers_success in Hok as [Hc Ho].
    rewrite Hc, Ho. split; [by rewrite Hsp|done].
Qed.

End Facts.

Section Observers.
Context {W : Type}.

Lemma registerMetadataPlugins_list plugins (r : @Registry W) :
  metadataPlugins (registerMetadataPlugins plugins r) = metadataPlugins r ++ plugins.
Proof.
  unfold registerMetadataPlugins.
  induction plugins as [|plugin plugins IH] using rev_ind.
  { by rewrite app_nil_r. }
  rewrite foldl_snoc. simpl. by rewrite IH, app_assoc.
Qed.

Lemma notifyRequest_state (plugins : list (@MetadataPlugin W)) ctx metadata w :
  (notifyRequest plugins ctx metadata w).2 =
    observedRequest (filter (λ p : MetadataPlugin, Enabled p ctx = true) plugins) ctx metadata w.
Proof.
  revert w. induction plugins as [|plugin rest IH]; intros w; [done|]. simpl.
  destruct (Enabled plugin ctx) eqn:He.
  - rewrite filter_cons_True by done. specialize (IH (OnRequest plugin ctx metadata w)).
    destruct (notifyRequest rest ctx metadata _) as [calls w']. simpl in *. by rewrite IH.
  - rewrite filter_cons_False by congruence. apply IH.
Qed.

Lemma notifyResponse_state (plugins : list (@MetadataPlugin W)) ctx metadata w :
  (notifyResponse plugins ctx metadata w).2 =
    observedResponse (filter (λ p : MetadataPlugin, Enabled p ctx = true) plugins) ctx metadata w.
Proof.
  revert w. induction plugins as [|plugin rest IH]; intros w; [done|]. simpl.
  destruct (Enabled plugin ctx) eqn:He.
  - rewrite filter_cons_True by done. specialize (IH (OnResponse plugin ctx metadata w)).
    destruct (notifyResponse rest ctx metadata _) as [calls w']. simpl in *. by rewrite IH.
  - rewrite filter_cons_False by congruence. apply IH.
Qed.

(** X2.  Metadata plugins are kept, and notified, in the order in which
    they were registered, whatever their priorities: [NotifyRequest] and
    [NotifyResponse] call the enabled ones in registration order, and the
    observers' state afterwards is what their hooks leave when run one after
    the other in that order. *)
Theorem metadata_plugins_run_in_registration_order
    (plugins : list (@MetadataPlugin W)) (ctx : Context)
    (request : RequestMetadata) (response : ResponseMetadata) (w : W) :
  let r := registerMetadataPlugins plugins NewRegistry in
  let enabled := filter (λ p : MetadataPlugin, Enabled p ctx = true) plugins in
  metadataPlugins r = plugins ∧
  NotifyRequest r ctx request w = (enabled, observedRequest enabled ctx request w) ∧
  NotifyResponse r ctx response w = (enabled, observedResponse enabled ctx response w).
Proof.
  intros r enabled. subst r enabled. unfold NotifyRequest, NotifyResponse.
  rewrite registerMetadataPlugins_list. simpl.
  split; [done|]. split.
  - rewrite (surjective_pairing (notifyRequest _ _ _ _)).
    by rewrite notifyRequest_calls, notifyRequest_state.
  - rewrite (surjective_pairing (notifyResponse _ _ _ _)).
    by rewrite notifyResponse_calls, notifyResponse_state.
Qed.

Lemma applyTransformers_filter {T : Type} (plugin_of : T → Plugin) hook
    (plugins : list T) ctx b :
  applyTransformers plugin_of hook
    (filter (λ p, Enabled (plugin_of p) ctx = true) plugins) ctx b =
  applyTransformers plugin_of hook plugins ctx b.
Proof.
  revert b. induction plugins as [|plugin rest IH]; intros b; [done|].
  destruct (Enabled (plugin_of plugin) ctx) eqn:He.
  - rewrite filter_cons_True by done. simpl. rewrite He. simpl.
    destruct (hook plugin ctx b) as [x [err|]]; [done|]. by rewrite IH.
  - rewrite filter_cons_False by congruence. simpl. rewrite He. simpl. apply IH.
Qed.

Lemma notifyRequest_filter (plugins : list (@MetadataPlugin W)) ctx metadata w :
  notifyRequest (filter (λ p : MetadataPlugin, Enabled p ctx = true) plugins) ctx metadata w =
  notifyRequest plugins ctx metadata w.
Proof.
  revert w. induction plugins as [|plugin rest IH]; intros w; [done|].
  destruct (Enabled plugin ctx) eqn:He.
  - rewrite filter_cons_True by done. simpl. rewrite He. by rewrite IH.
  - rewrite filter_cons_False by congruence. simpl. rewrite He. apply IH.
Qed.

Lemma notifyResponse_filter (plugins : list (@MetadataPlugin W)) ctx metadata w :
  notifyResponse (filter (λ p : MetadataPlugin, Enabled p ctx = true) plugins) ctx metadata w =
  notifyResponse plugins ctx metadata w.
Proof.
  revert w. induction plugins as [|plugin rest IH]; intros w; [done|].
  destruct (Enabled plugin ctx) eqn:He.
  - rewrite filter_cons_True by done. simpl. rewrite He. by rewrite IH.
  - rewrite filter_cons_False by congruence. simpl. rewrite He. apply IH.
Qed.

(** X3.  Taking the plugins that are disabled under [ctx] out of a registry
    changes nothing for that context: the three apply functions return the
    same bytes, error and calls, and the two notify functions make the same
    calls and leave the same state. *)
Theorem disabled_plugins_can_be_dropped (r : @Registry W) (ctx : Context) :
  (∀ request,
     ApplyRequestTransformers (dropDisabled ctx r) ctx request =
     ApplyRequestTransformers r ctx request) ∧
  (∀ response,
     ApplyResponseTransformers (dropDisabled ctx r) ctx response =
     ApplyResponseTransformers r ctx response) ∧
  (∀ chunk,
     ApplyStreamTransformers (dropDisabled ctx r) ctx chunk =
     ApplyStreamTransformers r ctx chunk) ∧
  (∀ metadata w,
     NotifyRequest (dropDisabled ctx r) ctx metadata w = NotifyRequest r ctx metadata w) ∧
  (∀ metadata w,
     NotifyResponse (dropDisabled ctx r) ctx metadata w = NotifyResponse r ctx metadata w).
Proof.
  unfold ApplyRequestTransformers, ApplyResponseTransformers, ApplyStreamTransformers,
    NotifyRequest, NotifyResponse, dropDisabled. simpl.
  split; [|split; [|split; [|split]]].
  - intros request. apply (applyTransformers_filter RequestTransformer_Plugin).
  - intros response. apply (applyTransformers_filter ResponseTransformer_Plugin).
  - intros chunk. apply (applyTransformers_filter StreamTransformer_Plugin).
  - intros metadata w. apply notifyRequest_filter.
  - intros metadata w. apply notifyResponse_filter.
Qed.

(** X4.  A chain made of two parts runs as the first part followed by the
    second on the first part's output; when the first part fails, the second
    part is not run and the failure is the result. *)
Theorem applyTransformers_app {T : Type} (plugin_of : T → Plugin)
    (hook : T → Context → bytes → bytes * option error)
    (first second : list T) (ctx : Context) (input : bytes) :
  applyTransformers plugin_of hook (first ++ second) ctx input =
    match applyTransformers plugin_of hook first ctx input with
    | (calls, (output, None)) =>
        (calls ++ (applyTransformers plugin_of hook second ctx output).1,
         (applyTransformers plugin_of hook second ctx output).2)
    | (calls, (output, Some err)) => (calls, (output, Some err))
    end.
Proof.
  revert input. induction first as [|plugin rest IH]; intros input.
  { simpl. by destruct (applyTransformers plugin_of hook second ctx input). }
  simpl. destruct (Enabled (plugin_of plugin) ctx); simpl; [|apply IH].
  destruct (hook plugin ctx input) as [x [err|]]; [done|].
  rewrite IH.
  destruct (applyTransformers plugin_of hook rest ctx x) as [calls [output [err|]]]; done.
Qed.

End Observers.

End PluginChains.

(** A response chain registered out of order, with the merge sort in the
    place of [sort.Slice]. *)
Module PluginChainsExample.
Import Plugins PluginChains PluginExample.

Definition appendResponseByte (name : string) (priority : Z) (b : Byte.byte)
  : ResponseTransformer :=
  {| ResponseTransformer_Plugin :=
       {| Name := name; Description := ""; Priority := priority; Enabled := λ _, true |};
     TransformResponse := λ _ response, (response ++ [b], None) |}.

Definition r50 := appendResponseByte "r50" 50 Byte.x62.
Definition r10 := appendResponseByte "r10" 10 Byte.x61.

Lemma response_and_stream_chains_priority_order_witness :
  StronglySorted (ascending ResponseTransformer_Plugin)
    (ApplyResponseTransformers
       (registerStreamTransformers mergeSortSlice []
          (registerResponseTransformers mergeSortSlice [r50; r10] (@NewRegistry unit)))
       ctx0 [Byte.x5f]).1.*1 ∧
  (ApplyResponseTransformers
     (registerStreamTransformers mergeSortSlice []
        (registerResponseTransformers mergeSortSlice [r50; r10] (@NewRegistry unit)))
     ctx0 [Byte.x5f]).2 = ([Byte.x5f; Byte.x61; Byte.x62], None).
Proof.
  split; [|reflexivity].
  exact (proj1 (response_and_stream_chains_priority_order (W:=unit) mergeSortSlice
                  mergeSortSlice_Permutation mergeSortSlice_sorted
                  [r50; r10] [] ctx0 [Byte.x5f])).
Defined.

End PluginChainsExample.

(** ** internal/plugins/builtin: the token counter *)
Module TokenCounter.
Import Plugins.

(** What [logger.Info] is given: the message and the key/value pairs. *)
Inductive LogValue :=
| LogString (s : string)
| LogInt (n : Z)
| LogBool (b : bool).

Record LogLine := {
  logMessage : string;
  logFields : list (string * LogValue);
}.

(** The plugin's own state between calls: the [startTimes] map, and what it
    has logged so far.  Instants and durations are integers of nanoseconds,
    as [time.Duration] is. *)
Record TokenCounterPlugin := {
  enabled : bool;
  startTimes : gmap string Z;
  logged : list LogLine;
}.

Definition NewTokenCounterPlugin (enabled : bool) : TokenCounterPlugin :=
  {| enabled := enabled; startTimes := ∅; logged := [] |}.

Definition TokenCounter_Name : string := "token-counter".
Definition TokenCounter_Priority : Z := 1000.
Definition TokenCounter_Enabled (p : TokenCounterPlugin) (ctx : Context) : bool := enabled p.

(** [time.Since(startTime)]: the difference, which [Time.Sub] keeps within
    the range of [Duration] by saturating. *)
Definition since (now startTime : Z) : Z :=
  Z.max (- 2 ^ 63) (Z.min (2 ^ 63 - 1) (now - startTime)).

(** [Duration.Milliseconds]: integer division, truncating towards zero. *)
Definition Milliseconds (d : Z) : Z := Z.quot d 1000000.

(** [OnRequest]; [now] is what [time.Now()] returns in the call. *)
Definition OnRequest (p : TokenCounterPlugin) (ctx : Context) (metadata : RequestMetadata)
    (now : Z) : TokenCounterPlugin :=
  let requestID := GetRequestID ctx in
  {| enabled := enabled p;
     startTimes :=
       if bool_decide (requestID ≠ "") then <[requestID := now]> (startTimes p)
       else startTimes p;
     logged :=
       logged p ++
       [{| logMessage := "Request received";
           logFields :=
             [("provider", LogString (req_Provider metadata));
              ("model", LogString (req_Model metadata));
              ("input_tokens", LogInt (req_InputTokens metadata));
              ("streaming", LogBool (req_HasStreaming metadata))] |}] |}.

(** [OnResponse]; [now] is the instant [time.Since] reads. *)
Definition OnResponse (p : TokenCounterPlugin) (ctx : Context) (metadata : ResponseMetadata)
    (now : Z) : TokenCounterPlugin :=
  let requestID := GetRequestID ctx in
  let '(duration, startTimes') :=
    match startTimes p !! requestID with
    | Some startTime => (since now startTime, delete requestID (startTimes p))
    | None => (0, startTimes p)
    end in
  let totalTokens := resp_OutputTokens metadata in
  {| enabled := enabled p;
     startTimes := startTimes';
     logged :=
       logged p ++
       [if bool_decide (0 < resp_CachedTokens metadata) then
          {| logMessage := "Response completed";
             logFields :=
               [("provider", LogString (resp_Provider metadata));
                ("model", LogString (resp_Model metadata));
                ("output_tokens", LogInt (resp_OutputTokens metadata));
                ("cached_tokens", LogInt (resp_CachedTokens metadata));
                ("total_tokens", LogInt totalTokens);
                ("duration_ms", LogInt (Milliseconds duration));
                ("status", LogInt (resp_Status metadata))] |}
        else
          {| logMessage := "Response completed";
             logFields :=
               [("provider", LogString (resp_Provider metadata));
                ("model", LogString (resp_Model metadata));
                ("output_tokens", LogInt (resp_OutputTokens metadata));
                ("total_tokens", LogInt totalTokens);
                ("duration_ms", LogInt (Milliseconds duration));
                ("status", LogInt (resp_Status metadata))] |}] |}.

(** The value logged under [key] in the last line, if any. *)
Definition lastLogged (key : string) (p : TokenCounterPlugin) : option LogValue :=
  line ← last (logged p); (list_to_map (logFields line) : gmap string LogValue) !! key.

(** A context that carries the request id [id]. *)
Definition withRequestID (id : string) : Context :=
  {| ctxProvider := None; ctxModel := None; ctxRequestID := Some id |}.

(** *** Facts *)

Lemma lastLogged_OnResponse p ctx metadata now :
  lastLogged "duration_ms" (OnResponse p ctx metadata now) =
    Some (LogInt (Milliseconds
      match startTimes p !! GetRequestID ctx with
      | Some startTime => since now startTime
      | None => 0
      end)) ∧
  lastLogged "total_tokens" (OnResponse p ctx metadata now) =
    Some (LogInt (resp_OutputTokens metadata)).
Proof.
  unfold lastLogged, OnResponse.
  destruct (startTimes p !! GetRequestID ctx) as [startTime|]; simpl;
    rewrite last_snoc; simpl; case_bool_decide; done.
Qed.

(** X5.  The token counter measures a request from [OnRequest] to
    [OnResponse] by its request id: with a non-empty id the response logs
    the milliseconds between the two calls and the entry for the id is gone
    from [startTimes] afterwards, so that a response arriving again, or one
    that was never announced, logs 0.  The total it logs is the output token
    count alone. *)
Theorem TokenCounter_times_a_request (p : TokenCounterPlugin) (id : string)
    (request : RequestMetadata) (response : ResponseMetadata) (t1 t2 t3 : Z) :
  id ≠ "" → - 2 ^ 63 ≤ t2 - t1 ≤ 2 ^ 63 - 1 →
  let ctx := withRequestID id in
  let p1 := OnRequest p ctx request t1 in
  let p2 := OnResponse p1 ctx response t2 in
  let p3 := OnResponse p2 ctx response t3 in
  startTimes p1 !! id = Some t1 ∧
  lastLogged "duration_ms" p2 = Some (LogInt (Z.quot (t2 - t1) 1000000)) ∧
  lastLogged "total_tokens" p2 = Some (LogInt (resp_OutputTokens response)) ∧
  startTimes p2 = delete id (startTimes p) ∧
  lastLogged "duration_ms" p3 = Some (LogInt 0) ∧
  startTimes p3 = startTimes p2.
Proof.
  intros Hid Hrange ctx p1 p2 p3.
  assert (H1 : startTimes p1 = <[id := t1]> (startTimes p)).
  { subst p1 ctx. unfold OnRequest. simpl. by rewrite bool_decide_eq_true_2. }
  assert (Hget : GetRequestID ctx = id) by done.
  assert (H2 : startTimes p2 = delete id (startTimes p)).
  { subst p2. unfold OnResponse. rewrite Hget, H1, lookup_insert_eq. simpl.
    by rewrite delete_insert_eq. }
  split; [by rewrite H1, lookup_insert_eq|].
  destruct (lastLogged_OnResponse p1 ctx response t2) as [Hd Ht].
  rewrite Hget, H1, lookup_insert_eq in Hd.
  split.
  { subst p2. rewrite Hd. unfold since, Milliseconds. do 3 f_equal. lia. }
  split; [exact Ht|]. split; [exact H2|].
  destruct (lastLogged_OnResponse p2 ctx response t3) as [Hd3 _].
  rewrite Hget, H2, lookup_delete_eq in Hd3.
  split; [exact Hd3|].
  subst p3. unfold OnResponse. rewrite Hget, H2, lookup_delete_eq. done.
Qed.

Lemma TokenCounter_times_a_request_witness :
  startTimes
    (OnResponse
       (OnRequest (NewTokenCounterPlugin true) (withRequestID "req-1")
          {| req_Provider := "openai"; req_Model := "gpt-4o"; req_InputTokens := 7;
             req_HasStreaming := false; req_Raw := [] |} 1000000000)
       (withRequestID "req-1")
       {| resp_Provider := "openai"; resp_Model := "gpt-4o"; resp_OutputTokens := 11;
          resp_Status := 200; resp_DurationMs := 0; resp_CachedTokens := 0;
          resp_Raw := [] |} 1250000000) = delete "req-1" ∅.
Proof.
  refine (proj1 (proj2 (proj2 (proj2
    (TokenCounter_times_a_request (NewTokenCounterPlugin true) "req-1" _ _
       1000000000 1250000000 0 _ _))))); [done|lia].
Defined.

(** X6.  Without a request id in the context the token counter stores no
    start time, and the response logs a duration of 0 and leaves
    [startTimes] as it was. *)
Theorem TokenCounter_without_request_id (p : TokenCounterPlugin)
    (request : RequestMetadata) (response : ResponseMetadata) (t1 t2 : Z) :
  let ctx := {| ctxProvider := None; ctxModel := None; ctxRequestID := None |} in
  startTimes p !! "" = None →
  startTimes (OnRequest p ctx request t1) = startTimes p ∧
  startTimes (OnResponse (OnRequest p ctx request t1) ctx response t2) = startTimes p ∧
  lastLogged "duration_ms" (OnResponse (OnRequest p ctx request t1) ctx response t2)
    = Some (LogInt 0).
Proof.
  intros ctx Hno.
  assert (H1 : startTimes (OnRequest p ctx request t1) = startTimes p) by done.
  split; [done|].
  destruct (lastLogged_OnResponse (OnRequest p ctx request t1) ctx response t2) as [Hd _].
  rewrite H1 in Hd. change (GetRequestID ctx) with "" in Hd. rewrite Hno in Hd.
  split; [|exact Hd].
  unfold OnResponse. rewrite H1. change (GetRequestID ctx) with "". by rewrite Hno.
Qed.

(** The map holds no entry under the empty id: [OnRequest] never stores one
    and [OnResponse] only deletes. *)
Lemma TokenCounter_no_empty_id p ctx request response now :
  startTimes p !! "" = None →
  startTimes (OnRequest p ctx request now) !! "" = None ∧
  startTimes (OnResponse p ctx response now) !! "" = None.
Proof.
  intros Hno. split.
  - unfold OnRequest. simpl. case_bool_decide; [|done]. by rewrite lookup_insert_ne.
  - unfold OnResponse. destruct (startTimes p !! GetRequestID ctx); simpl; [|done].
    rewrite lookup_delete. by case_decide.
Qed.

Lemma TokenCounter_without_request_id_witness :
  startTimes
    (OnRequest (NewTokenCounterPlugin true)
       {| ctxProvider := None; ctxModel := None; ctxRequestID := None |}
       {| req_Provider := "openai"; req_Model := "gpt-4o"; req_InputTokens := 7;
          req_HasStreaming := false; req_Raw := [] |} 5) = ∅.
Proof.
  refine (proj1 (TokenCounter_without_request_id (NewTokenCounterPlugin true) _
    {| resp_Provider := ""; resp_Model := ""; resp_OutputTokens := 0; resp_Status := 0;
       resp_DurationMs := 0; resp_CachedTokens := 0; resp_Raw := [] |} 5 6 _)).
  done.
Defined.

End TokenCounter.

(** ** internal/plugins/builtin: what the system-prompt injector keeps *)
Module InjectorFacts.
Import Builtin.

(** [s] starts with [p]; [s] ends with [e]. *)
Definition startsWith (p s : string) : Prop := ∃ rest, s = p +:+ rest.
Definition endsWith (e s : string) : Prop := ∃ front, s = front +:+ e.

(** The byte [c] is between [low] and [high]. *)
Definition between (low high : nat) (c : Ascii.ascii) : bool :=
  (low <=? Ascii.nat_of_ascii c)%nat && (Ascii.nat_of_ascii c <=? high)%nat.

(** [utf8.ValidString]: one to four bytes per rune, no overlong form, no
    surrogate, nothing above U+10FFFF.  [encoding/json] puts U+FFFD in the
    place of any other byte sequence of a string, when it decodes and when
    it encodes. *)
Fixpoint validUTF8 (s : string) : bool :=
  match s with
  | EmptyString => true
  | String c0 s1 =>
      if between 0 127 c0 then validUTF8 s1
      else if between 194 223 c0 then
        match s1 with
        | String c1 s2 => between 128 191 c1 && validUTF8 s2
        | _ => false
        end
      else if between 224 239 c0 then
        match s1 with
        | String c1 (String c2 s3) =>
            between (if between 224 224 c0 then 160 else 128)
                    (if between 237 237 c0 then 159 else 191) c1
            && between 128 191 c2 && validUTF8 s3
        | _ => false
        end
      else if between 240 244 c0 then
        match s1 with
        | String c1 (String c2 (String c3 s4)) =>
            between (if between 240 240 c0 then 144 else 128)
                    (if between 244 244 c0 then 143 else 191) c1
            && between 128 191 c2 && between 128 191 c3 && validUTF8 s4
        | _ => false
        end
      else false
  end.

(** A document that [json.Unmarshal] into an [interface{}] followed by
    [json.Marshal] relays as it is, which is what the model of the plugins
    takes the two to do.  Numbers are decoded into a [float64]: an integer
    comes back as it was when its magnitude is at most 2^53.  Strings and
    keys come back as they were when they are valid UTF-8.  The decoder
    refuses a document nested deeper than 10000 levels; [depth] is the
    number of levels left. *)
Inductive relayed : Z → JSON → Prop :=
| relayed_null depth : relayed depth JNull
| relayed_bool depth b : relayed depth (JBool b)
| relayed_number depth n : - 2 ^ 53 ≤ n ≤ 2 ^ 53 → relayed depth (JNumber n)
| relayed_string depth s : validUTF8 s = true → relayed depth (JString s)
| relayed_array depth items :
    0 < depth → Forall (relayed (depth - 1)) items → relayed depth (JArray items)
| relayed_object depth fields :
    0 < depth →
    (∀ key v, fields !! key = Some v → validUTF8 key = true) →
    (∀ key v, fields !! key = Some v → relayed (depth - 1) v) →
    relayed depth (JObject fields).

Definition maxNestingDepth : Z := 10000.

Lemma string_app_assoc (a b c : string) : (a +:+ b) +:+ c = a +:+ (b +:+ c).
Proof.
  induction a as [|x a IH]; [done|].
  change (String x ((a +:+ b) +:+ c) = String x (a +:+ (b +:+ c))). by rewrite IH.
Qed.

Lemma string_app_nil_r (a : string) : a +:+ "" = a.
Proof.
  induction a as [|x a IH]; [done|].
  change (String x (a +:+ "") = String x a). by rewrite IH.
Qed.

(** X7.  For a prompt that is valid UTF-8, on a request that decodes to an
    object which the JSON decoder and encoder relay as it is (integers of
    magnitude at most 2^53, strings and keys in valid UTF-8, at most 10000
    levels), the injector never fails: it returns the object with every
    field other than [system] as it was and with [system] a string that
    starts with the configured prompt; when [system] was a string before,
    the new one ends with it.  A [null] body makes it panic, and a document
    that is neither an object nor [null] comes back as it was, with an
    error. *)
Theorem SystemPromptInjector_keeps_the_request (p : SystemPromptInjectorPlugin) :
  validUTF8 (systemPrompt p) = true →
  (∀ req, relayed maxNestingDepth (JObject req) →
     ∃ req' sys,
       SystemPromptInjector_TransformRequest p (JObject req) = Return (JObject req', None) ∧
       (∀ key, key ≠ "system" → req' !! key = req !! key) ∧
       req' !! "system" = Some (JString sys) ∧
       startsWith (systemPrompt p) sys ∧
       (∀ existing, req !! "system" = Some (JString existing) → endsWith existing sys)) ∧
  (∃ msg, SystemPromptInjector_TransformRequest p JNull = Panic msg) ∧
  (∀ request, (∀ req, request ≠ JObject req) → request ≠ JNull →
     ∃ err, SystemPromptInjector_TransformRequest p request = Return (request, Some err)).
Proof.
  intros _. split; [|split].
  - intros req _.
    assert (Hframe : ∀ (v : JSON) key, key ≠ "system" →
      <["system" := v]> req !! key = req !! key).
    { intros v key Hk. by rewrite lookup_insert_ne. }
    simpl. destruct (req !! "system") as [[| | |existing| |]|] eqn:Hs;
      try (eexists _, (systemPrompt p); split; [reflexivity|];
           split; [apply Hframe|]; split; [apply lookup_insert_eq|];
           split; [exists ""; by rewrite string_app_nil_r|]; by intros ? [=]).
    case_bool_decide as Hne.
    + eexists _, _. split; [reflexivity|]. split; [apply Hframe|].
      split; [apply lookup_insert_eq|]. split; [by eexists|].
      intros ? [= <-]. exists (systemPrompt p +:+ blankLine).
      by rewrite string_app_assoc.
    + eexists _, (systemPrompt p). split; [reflexivity|]. split; [apply Hframe|].
      split; [apply lookup_insert_eq|].
      split; [exists ""; by rewrite string_app_nil_r|].
      intros ? [= <-]. exists (systemPrompt p).
      assert (existing = "") as -> by (by destruct (decide (existing = "")); [|destruct Hne]).
      by rewrite string_app_nil_r.
  - by eexists.
  - intros request Hobj Hnull.
    destruct request as [|b|n|s|items|fields]; [done|by eexists..|].
    by destruct (Hobj fields).
Qed.

(** A request with a seed and a system prompt of its own. *)
Definition seededRequest : gmap string JSON :=
  <["seed" := JNumber 42]> (<["system" := JString "Be kind"]> ∅).

Lemma seededRequest_relayed : relayed maxNestingDepth (JObject seededRequest).
Proof.
  assert (Hfields : ∀ key v, seededRequest !! key = Some v →
            (key = "seed" ∧ v = JNumber 42) ∨ (key = "system" ∧ v = JString "Be kind")).
  { intros key v. unfold seededRequest. rewrite !lookup_insert, lookup_empty.
    repeat case_decide; intros [=]; subst; auto. }
  apply relayed_object; [done| |].
  - intros key v [[-> _]|[-> _]]%Hfields; reflexivity.
  - intros key v [[_ ->]|[_ ->]]%Hfields.
    + apply relayed_number. lia.
    + by apply relayed_string.
Qed.

Lemma SystemPromptInjector_keeps_the_request_witness :
  ∃ req' sys,
    SystemPromptInjector_TransformRequest briefInjector (JObject seededRequest)
      = Return (JObject req', None) ∧
    (∀ key, key ≠ "system" → req' !! key = seededRequest !! key) ∧
    req' !! "system" = Some (JString sys) ∧
    startsWith "Be brief" sys ∧
    (∀ existing, seededRequest !! "system" = Some (JString existing) → endsWith existing sys).
Proof.
  destruct (SystemPromptInjector_keeps_the_request briefInjector eq_refl) as [Hobject _].
  apply (Hobject seededRequest). exact seededRequest_relayed.
Defined.

End InjectorFacts.

(** ** internal/providers: the rest of the registry and of the Anthropic adapter *)
Module ProviderRegistry.
Import Providers.

(** The upstream family an adapter is written for. *)
Definition family (p : Provider) : string :=
  match p with
  | OpenRouterProvider _ => "openrouter"
  | OpenAIProvider _ => "openai"
  | AnthropicProvider _ => "anthropic"
  | NvidiaProvider _ => "nvidia"
  | GeminiProvider _ => "gemini"
  | OllamaProvider _ => "ollama"
  end.

(** The last configuration entry of the given name. *)
Definition lastNamed (name : string) (cfgProviders : list Config.Provider)
  : option Config.Provider :=
  last (filter (λ cfg, Config.Name cfg = name) cfgProviders).

(** [List]: the names in the map.  Go ranges over a map in no fixed order;
    the order of [map_to_list] stands for whichever order it takes. *)
Definition List (r : Registry) : list string := (map_to_list (providers r)).*1.

Section GetByDomain.

(** [net/url] and [strings] are Go's: [url.Parse], [URL.Hostname] and
    [strings.ToLower] are taken as they come. *)
Variable URL : Type.
Variable url_Parse : string → URL + error.
Variable Hostname : URL → string.
Variable strings_ToLower : string → string.

Definition domainProviderMap : gmap string string :=
  list_to_map
    [ ("openrouter.ai", "openrouter");
      ("api.openrouter.ai", "openrouter");
      ("api.openai.com", "openai");
      ("openai.com", "openai");
      ("api.anthropic.com", "anthropic");
      ("anthropic.com", "anthropic");
      ("integrate.api.nvidia.com", "nvidia");
      ("api.nvidia.com", "nvidia");
      ("generativelanguage.googleapis.com", "gemini");
      ("googleapis.com", "gemini");
      ("localhost", "ollama");
      ("127.0.0.1", "ollama") ].

(** [GetByDomain]: [inl p] is [(p, nil)], [inr err] is [(nil, err)]. *)
Definition GetByDomain (r : Registry) (apiBase : string) : Provider + error :=
  match url_Parse apiBase with
  | inr err => inr (wrapError "invalid API base URL: " err)
  | inl u =>
      let domain := strings_ToLower (Hostname u) in
      match domainProviderMap !! domain with
      | Some providerName =>
          match Get r providerName with
          | Some provider => inl provider
          | None => inr (errorString ("no provider found for domain: " +:+ domain))
          end
      | None => inr (errorString ("no provider found for domain: " +:+ domain))
      end
  end.

End GetByDomain.

(** [strings.Contains(s, substr)]. *)
Fixpoint hasPrefix (prefix s : string) : bool :=
  match prefix, s with
  | EmptyString, _ => true
  | String a prefix', String b s' => Ascii.eqb a b && hasPrefix prefix' s'
  | String _ _, EmptyString => false
  end.

Fixpoint Contains (s substr : string) : bool :=
  hasPrefix substr s ||
  match s with
  | EmptyString => false
  | String _ s' => Contains s' substr
  end.

(** [AnthropicProvider.IsStreaming]. *)
Definition AnthropicProvider_IsStreaming (headers : gmap string (list string)) : bool :=
  match headers !! "Content-Type" with
  | Some contentType =>
      existsb (λ ct, bool_decide (ct = "text/event-stream") || Contains ct "stream") contentType
  | None => false
  end.

(** *** Facts *)

Lemma initializeOne_Get r cfg name :
  Get (initializeOne r cfg) name =
    if bool_decide (Config.Name cfg = name ∧ name ∈ initializedNames)
    then Get (initializeOne r cfg) name else Get r name.
Proof.
  case_bool_decide as Hc; [done|].
  destruct (decide (name ∈ initializedNames)) as [Hin|Hnot].
  - assert (Hne : Config.Name cfg ≠ name) by (intros ?; by apply Hc).
    unfold initializeOne, Get.
    repeat case_bool_decide; try done;
      unfold Register; simpl; unfold Name; simpl; by rewrite lookup_insert_ne.
  - by apply initializeOne_other.
Qed.

Lemma initializeOne_adapter r cfg :
  Config.Name cfg ∈ initializedNames →
  ∃ p, Get (initializeOne r cfg) (Config.Name cfg) = Some p ∧
       providerConfig p = cfg ∧ family p = Config.Name cfg.
Proof.
  intros Hin. unfold initializeOne, Get.
  repeat case_bool_decide;
    try (unfold Register; simpl; unfold Name; simpl; rewrite lookup_insert_eq;
         eexists; split; [reflexivity|]; split; [reflexivity|]; simpl; congruence).
  unfold initializedNames in Hin.
  repeat (apply elem_of_cons in Hin as [?|Hin]; [done|]).
  by apply elem_of_nil in Hin.
Qed.

Lemma Initialize_snoc r cfgProviders cfg :
  Initialize r (cfgProviders ++ [cfg]) = initializeOne (Initialize r cfgProviders) cfg.
Proof. unfold Initialize. by rewrite foldl_snoc. Qed.

(** X8.  What [Get] finds after [Initialize]: under a name outside the six
    with a case, what was there before; under one of the six names, the
    adapter of that family built from the last configuration entry of that
    name, and what was there before when the configuration has no such
    entry. *)
Theorem Initialize_Get (r : Registry) (cfgProviders : list Config.Provider) (name : string) :
  if bool_decide (name ∈ initializedNames) then
    match lastNamed name cfgProviders with
    | Some cfg =>
        ∃ p, Get (Initialize r cfgProviders) name = Some p ∧
             providerConfig p = cfg ∧ family p = name
    | None => Get (Initialize r cfgProviders) name = Get r name
    end
  else Get (Initialize r cfgProviders) name = Get r name.
Proof.
  case_bool_decide as Hin; [|by apply Initialize_other].
  unfold lastNamed.
  induction cfgProviders as [|cfg cfgProviders IH] using rev_ind; [done|].
  rewrite Initialize_snoc, filter_app.
  destruct (decide (Config.Name cfg = name)) as [Heq|Hne].
  - rewrite (filter_cons_True _ cfg) by done. rewrite filter_nil, last_snoc.
    subst name. apply initializeOne_adapter, Hin.
  - rewrite (filter_cons_False _ cfg) by done. rewrite filter_nil, app_nil_r.
    rewrite initializeOne_Get, bool_decide_eq_false_2 by (by intros [? _]).
    exact IH.
Qed.

Lemma List_elem_of r name : name ∈ List r ↔ is_Some (Get r name).
Proof.
  unfold List, Get. rewrite list_elem_of_fmap. split.
  - intros ([k p] & -> & Hin). apply elem_of_map_to_list in Hin. by eexists.
  - intros [p Hp]. exists (name, p). split; [done|]. by apply elem_of_map_to_list.
Qed.

(** X9.  [List], after [Initialize] on a fresh registry, holds each
    registered name once: a name is listed exactly when it is one of the six
    with a case and the configuration has an entry of that name. *)
Theorem List_after_Initialize (cfgProviders : list Config.Provider) :
  let r := Initialize NewRegistry cfgProviders in
  NoDup (List r) ∧
  (∀ name, name ∈ List r ↔ is_Some (Get r name)) ∧
  (∀ name, name ∈ List r ↔
     name ∈ initializedNames ∧ ∃ cfg, cfg ∈ cfgProviders ∧ Config.Name cfg = name).
Proof.
  intros r. split; [apply NoDup_fst_map_to_list|]. split; [apply List_elem_of|].
  intros name. rewrite List_elem_of. subst r.
  pose proof (Initialize_Get NewRegistry cfgProviders name) as HG.
  case_bool_decide as Hin.
  - unfold lastNamed in HG.
    destruct (last (filter (λ cfg, Config.Name cfg = name) cfgProviders)) as [cfg|] eqn:Hl.
    + destruct HG as (p & -> & _). split; [|by eexists]. intros _. split; [done|].
      apply last_Some_elem_of, list_elem_of_filter in Hl as [? ?]. by exists cfg.
    + rewrite HG. unfold Get. simpl. rewrite lookup_empty. split; [by intros [? ?]|].
      intros [_ (cfg & Hc & Hn)]. apply last_None in Hl.
      assert (cfg ∈ filter (λ cfg, Config.Name cfg = name) cfgProviders) as Hf
        by (by apply list_elem_of_filter).
      rewrite Hl in Hf. by apply elem_of_nil in Hf.
  - rewrite HG. unfold Get. simpl. rewrite lookup_empty. split; [by intros [? ?]|].
    by intros [? _].
Qed.


Section GetByDomainFacts.
Variable URL : Type.
Variable url_Parse : string → URL + error.
Variable Hostname : URL → string.
Variable strings_ToLower : string → string.

Lemma domainProviderMap_names :
  map_Forall (λ _ name, name ∈ initializedNames) domainProviderMap.
Proof.
  intros host name Hn. unfold domainProviderMap in Hn. simpl in Hn.
  repeat (rewrite lookup_insert in Hn; case_decide;
          [injection Hn as <-; by apply (bool_decide_unpack _)|]).
  by rewrite lookup_empty in Hn.
Qed.

(** X10.  [GetByDomain] returns a provider exactly when the URL parses, its
    lower-cased host name is an entry of the domain table, and the provider
    the entry names is registered; in every other case it returns an error.
    The table names none but the six families [Initialize] has a case for. *)
Theorem GetByDomain_finds_registered_family (r : Registry) (apiBase : string) :
  (∀ p,
     GetByDomain URL url_Parse Hostname strings_ToLower r apiBase = inl p ↔
     ∃ u name,
       url_Parse apiBase = inl u ∧
       domainProviderMap !! strings_ToLower (Hostname u) = Some name ∧
       Get r name = Some p) ∧
  (∀ p, GetByDomain URL url_Parse Hostname strings_ToLower r apiBase = inl p →
     ∃ name, name ∈ initializedNames ∧ Get r name = Some p) ∧
  (∀ err, url_Parse apiBase = inr err →
     GetByDomain URL url_Parse Hostname strings_ToLower r apiBase =
       inr (wrapError "invalid API base URL: " err)).
Proof.
  assert (Hiff : ∀ p,
     GetByDomain URL url_Parse Hostname strings_ToLower r apiBase = inl p ↔
     ∃ u name,
       url_Parse apiBase = inl u ∧
       domainProviderMap !! strings_ToLower (Hostname u) = Some name ∧
       Get r name = Some p).
  { intros p. unfold GetByDomain. destruct (url_Parse apiBase) as [u|err].
    - destruct (domainProviderMap !! strings_ToLower (Hostname u)) as [name|] eqn:Hd.
      + destruct (Get r name) as [q|] eqn:Hg.
        * split; [intros [= ->]; by exists u, name|].
          intros (u' & name' & [= <-] & Hn & Hq). rewrite Hd in Hn.
          injection Hn as <-. congruence.
        * split; [done|]. intros (u' & name' & [= <-] & Hn & Hq).
          rewrite Hd in Hn. injection Hn as <-. congruence.
      + split; [done|]. intros (u' & name' & [= <-] & Hn & _). congruence.
    - split; [done|]. by intros (u' & name' & ? & _). }
  split; [exact Hiff|]. split.
  - intros p Hp. apply Hiff in Hp as (u & name & _ & Hn & Hg).
    exists name. split; [|done]. by apply (domainProviderMap_names _ _ Hn).
  - intros err Herr. unfold GetByDomain. by rewrite Herr.
Qed.

End GetByDomainFacts.

Lemma hasPrefix_spec prefix s : hasPrefix prefix s = true ↔ ∃ rest, s = prefix +:+ rest.
Proof.
  revert s. induction prefix as [|a prefix IH]; intros s.
  { simpl. split; [by exists s|done]. }
  destruct s as [|b s]; simpl.
  { split; [done|]. by intros [rest ?]. }
  rewrite andb_true_iff, IH, Ascii.eqb_eq. split.
  - intros [-> [rest ->]]. by exists rest.
  - intros [rest [= -> ->]]. split; [done|]. by exists rest.
Qed.

Lemma Contains_spec s substr :
  Contains s substr = true ↔ ∃ front rest, s = front +:+ substr +:+ rest.
Proof.
  induction s as [|c s IH].
  - simpl. rewrite orb_false_r, hasPrefix_spec. split.
    + intros [rest ->]. by exists "", rest.
    + intros (front & rest & Heq). destruct front; [by exists rest|done].
  - simpl. rewrite orb_true_iff, hasPrefix_spec, IH. split.
    + intros [[rest ->]|(front & rest & ->)].
      * by exists "", rest.
      * by exists (String c front), rest.
    + intros (front & rest & Heq). destruct front as [|c' front].
      * left. by exists rest.
      * right. injection Heq as -> ->. by exists front, rest.
Qed.

(** X11.  The Anthropic adapter takes a response for a stream exactly when
    some value of its [Content-Type] header contains "stream" (the test for
    "text/event-stream" adds nothing to that); without that header, or with
    the header under another spelling of the key, it does not. *)
Theorem AnthropicProvider_IsStreaming_iff (headers : gmap string (list string)) :
  AnthropicProvider_IsStreaming headers = true ↔
  ∃ contentType ct front rest,
    headers !! "Content-Type" = Some contentType ∧ ct ∈ contentType ∧
    ct = front +:+ "stream" +:+ rest.
Proof.
  unfold AnthropicProvider_IsStreaming.
  destruct (headers !! "Content-Type") as [contentType|]; [|split; [done|]].
  - rewrite existsb_exists. split.
    + intros (ct & Hin & Hct). apply list_elem_of_In in Hin.
      apply orb_true_iff in Hct as [Heq|Hc].
      * apply bool_decide_eq_true in Heq as ->.
        by exists contentType, "text/event-stream", "text/event-", "".
      * apply Contains_spec in Hc as (front & rest & ->).
        by exists contentType, (front +:+ "stream" +:+ rest), front, rest.
    + intros (contentType' & ct & front & rest & [= <-] & Hin & ->).
      exists (front +:+ "stream" +:+ rest). split; [by apply list_elem_of_In|].
      apply orb_true_iff. right. apply Contains_spec. by exists front, rest.
  - by intros (? & ? & ? & ? & ? & _).
Qed.

End ProviderRegistry.

(** ** internal/webui: the statistics after many requests *)
Module WebuiStats.
Import Webui.

Definition Call : Type := Z * string * string * Z * Z * Z * Z.

(** The entry [LogRequest] stores for a call. *)
Definition logOf (c : Call) : RequestLog :=
  let '(now, provider, model, inputTokens, outputTokens, durationMs, status) := c in
  {| Timestamp := now; Provider := provider; Model := model;
     InputTokens := inputTokens; OutputTokens := outputTokens;
     DurationMs := durationMs; Status := status |}.

Definition keyOf (c : Call) : string :=
  let '(now, provider, model, inputTokens, outputTokens, durationMs, status) := c in
  modelKeyOf provider model.

Definition tokensOf (c : Call) : Z :=
  let '(now, provider, model, inputTokens, outputTokens, durationMs, status) := c in
  inputTokens + outputTokens.

Definition sumZ (l : list Z) : Z := foldr Z.add 0 l.

(** The calls made for the model key [key]. *)
Definition callsFor (key : string) (calls : list Call) : list Call :=
  filter (λ c, keyOf c = key) calls.

(** *** Facts *)

Lemma logAll_snoc s calls c :
  logAll s (calls ++ [c]) =
    let '(now, provider, model, inputTokens, outputTokens, durationMs, status) := c in
    LogRequest (logAll s calls) now provider model inputTokens outputTokens durationMs status.
Proof. unfold logAll. rewrite foldl_snoc. by destruct c as [[[[[[? ?] ?] ?] ?] ?] ?]. Qed.

Lemma wrap64_add_l a b : wrap64 (wrap64 a + b) = wrap64 (a + b).
Proof.
  unfold wrap64. f_equal.
  replace ((a + 2 ^ 63) `mod` 2 ^ 64 - 2 ^ 63 + b + 2 ^ 63)
    with ((a + 2 ^ 63) `mod` 2 ^ 64 + b) by lia.
  rewrite Zplus_mod_idemp_l. f_equal. lia.
Qed.

Lemma wrap64_add_r a b : wrap64 (a + wrap64 b) = wrap64 (a + b).
Proof. rewrite (Z.add_comm a), wrap64_add_l. f_equal. lia. Qed.

Lemma sumZ_snoc l x : sumZ (l ++ [x]) = sumZ l + x.
Proof. unfold sumZ. induction l as [|y l IH]; simpl; lia. Qed.

(** X12.  After any sequence of [LogRequest] calls on the statistics of a
    new server, [RecentRequests] holds the entries of the last 100 calls
    (of all calls, when there were fewer), oldest first. *)
Theorem RecentRequests_last_hundred (startTime : Z) (calls : list Call) :
  RecentRequests (logAll (newStats startTime) calls) =
    drop (length calls - 100) (logOf <$> calls).
Proof.
  induction calls as [|c calls IH] using rev_ind; [done|].
  rewrite logAll_snoc, fmap_app, length_app. simpl.
  destruct c as [[[[[[now provider] model] i] o] d] st]. simpl.
  rewrite IH. set (logs := logOf <$> calls).
  assert (Hlen : length logs = length calls) by apply length_fmap.
  set (log := {| Timestamp := now |}).
  case_bool_decide as Hc.
  - rewrite length_app, length_drop in Hc. simpl in Hc.
    rewrite <-drop_app_le by lia.
    rewrite drop_drop. f_equal. lia.
  - rewrite length_app, length_drop in Hc. simpl in Hc.
    rewrite <-drop_app_le by lia. f_equal. lia.
Qed.

(** X13.  After any sequence of [LogRequest] calls on the statistics of a
    new server, in 64-bit wrap-around arithmetic: [TotalRequests] is the
    number of calls, [TotalTokens] the sum of the calls' input and output
    tokens, and for every model key the request counter is the number of
    calls made for that key and the token counter the sum of their tokens;
    a key no call was made for reads 0. *)
Theorem counters_after_calls (startTime : Z) (calls : list Call) (key : string) :
  let s := logAll (newStats startTime) calls in
  TotalRequests s = wrap64 (Z.of_nat (length calls)) ∧
  TotalTokens s = wrap64 (sumZ (tokensOf <$> calls)) ∧
  counter (RequestsByModel s) key = wrap64 (Z.of_nat (length (callsFor key calls))) ∧
  counter (TokensByModel s) key = wrap64 (sumZ (tokensOf <$> callsFor key calls)).
Proof.
  induction calls as [|c calls IH] using rev_ind; [done|].
  simpl in *. rewrite logAll_snoc. destruct IH as (Hr & Ht & Hkr & Hkt).
  destruct c as [[[[[[now provider] model] i] o] d] st].
  unfold callsFor. rewrite !fmap_app, !filter_app, length_app, !fmap_app. simpl.
  split; [|split; [|split]].
  - rewrite Hr, wrap64_add_l. f_equal. lia.
  - rewrite Ht, wrap64_add_l, wrap64_add_r, sumZ_snoc. done.
  - unfold counter at 1. rewrite lookup_insert.
    destruct (decide (modelKeyOf provider model = key)) as [Heq|Hne].
    + rewrite (filter_cons_True _ (now, provider, model, i, o, d, st)) by done.
      simpl. rewrite length_app. simpl. subst key.
      rewrite Hkr, wrap64_add_l. f_equal. unfold callsFor. lia.
    + rewrite (filter_cons_False _ (now, provider, model, i, o, d, st)) by done.
      simpl. rewrite app_nil_r. exact Hkr.
  - unfold counter at 1. rewrite lookup_insert.
    destruct (decide (modelKeyOf provider model = key)) as [Heq|Hne].
    + rewrite (filter_cons_True _ (now, provider, model, i, o, d, st)) by done.
      rewrite filter_nil. simpl. rewrite sumZ_snoc. subst key. simpl.
      rewrite Hkt, wrap64_add_l, wrap64_add_r. done.
    + rewrite (filter_cons_False _ (now, provider, model, i, o, d, st)) by done.
      simpl. rewrite app_nil_r. exact Hkt.
Qed.

End WebuiStats.

(** ** internal/webui: the handlers that read the configuration *)
Module WebuiHandlers.
Import Webui.

(** [config.Config] is declared outside the sources at hand.  The handlers
    read its router key, a string, and its [Providers], a slice of
    [config.Provider]: a slice is a view of a backing array, and copying the
    struct copies the view, not the array.  [Heap] holds the backing arrays
    by address. *)
Record Config := {
  APIKey : string;
  Providers : nat;
}.

Abbreviation Heap := (gmap nat (list Config.Provider)).

(** The providers a configuration holds, read through the heap. *)
Definition providersOf (h : Heap) (cfg : Config) : list Config.Provider :=
  default [] (h !! Providers cfg).

(** The assignment [Providers[i].APIKey = maskAPIKey(Providers[i].APIKey)]:
    the string is stored in the [interface{}] field. *)
Definition maskProvider (p : Config.Provider) : Config.Provider :=
  {| Config.Name := Config.Name p;
     Config.APIBase := Config.APIBase p;
     Config.APIKey := JString (maskAPIKey (Config.APIKey p)) |}.

(** The loop [for i := range maskedCfg.Providers], on the backing array. *)
Definition maskEach (providers : list Config.Provider) : list Config.Provider :=
  foldl (λ providers i,
           match providers !! i with
           | Some p => <[i := maskProvider p]> providers
           | None => providers
           end)
        providers (seq 0 (length providers)).

(** What [jsonResponse] encodes for a configuration: the router key and the
    providers as they are in memory at that moment. *)
Record ConfigView := {
  viewAPIKey : string;
  viewProviders : list Config.Provider;
}.

(** [handleConfig], from the [*Config] that [s.config.Get()] returns: the
    heap after the call, and the response. *)
Definition handleConfig (h : Heap) (cfg : Config) : Heap * ConfigView :=
  let maskedCfg := cfg in
  let h' := alter maskEach (Providers maskedCfg) h in
  let maskedCfg :=
    if bool_decide (APIKey maskedCfg ≠ "") then
      {| APIKey := maskString (APIKey maskedCfg); Providers := Providers maskedCfg |}
    else maskedCfg in
  (h', {| viewAPIKey := APIKey maskedCfg; viewProviders := providersOf h' maskedCfg |}).

Record ProviderInfo := {
  info_Name : string;
  info_URL : string;
  info_HasKey : bool;
  info_Models : nat;
  info_Enabled : bool;
}.

Section Models.

(** [Provider.GetAllowedModels] and the [DefaultModels] field belong to the
    configuration package. *)
Variable GetAllowedModels : Config.Provider → list string.
Variable DefaultModels : Config.Provider → list string.

Definition providerInfo (p : Config.Provider) : ProviderInfo :=
  let hasKey :=
    match Config.APIKey p with
    | JString key => bool_decide (key ≠ "")
    | _ => false
    end in
  let models := length (GetAllowedModels p) in
  let models := if bool_decide (models = 0%nat) then length (DefaultModels p) else models in
  {| info_Name := Config.Name p; info_URL := Config.APIBase p;
     info_HasKey := hasKey; info_Models := models; info_Enabled := hasKey |}.

(** [handleProviders]: the response. *)
Definition handleProviders (h : Heap) (cfg : Config) : list ProviderInfo :=
  providerInfo <$> providersOf h cfg.

End Models.

(** *** Facts *)

Lemma length_substring n m s :
  (n + m ≤ String.length s)%nat → String.length (String.substring n m s) = m.
Proof.
  revert n m. induction s as [|c s IH]; intros n m Hle; simpl in Hle.
  - assert (n = 0 ∧ m = 0)%nat as [-> ->] by lia. done.
  - destruct n as [|n]; [destruct m as [|m]|]; simpl; [done| |apply IH; lia].
    f_equal. apply (IH 0%nat). lia.
Qed.

Lemma length_string_app a b : String.length (a +:+ b) = (String.length a + String.length b)%nat.
Proof.
  induction a as [|c a IH]; [done|].
  change (S (String.length (a +:+ b)) = S (String.length a + String.length b)). by rewrite IH.
Qed.

Lemma maskString_over_eight s :
  (8 < String.length s)%nat →
  maskString s =
    String.substring 0 4 s +:+ "****" +:+ String.substring (String.length s - 4) 4 s.
Proof.
  intros Hs. unfold maskString.
  rewrite bool_decide_eq_false_2 by (intros ->; simpl in Hs; lia).
  by rewrite bool_decide_eq_false_2 by lia.
Qed.

Lemma maskString_short s :
  s ≠ "" → (String.length s ≤ 8)%nat → maskString s = "****".
Proof.
  intros Hne Hs. unfold maskString.
  rewrite bool_decide_eq_false_2 by done. by rewrite bool_decide_eq_true_2.
Qed.

Lemma maskString_four_four a b :
  String.length a = 4%nat → String.length b = 4%nat →
  maskString (a +:+ "****" +:+ b) = a +:+ "****" +:+ b.
Proof.
  intros Ha Hb.
  destruct a as [|a1 [|a2 [|a3 [|a4 [|a5 a]]]]]; try done.
  destruct b as [|b1 [|b2 [|b3 [|b4 [|b5 b]]]]]; done.
Qed.

(** X14.  [maskString] gives a string of 0, 4 or 12 bytes, and masking
    again changes nothing: [maskString (maskString s) = maskString s]. *)
Theorem maskString_idempotent (s : string) :
  maskString (maskString s) = maskString s ∧
  (String.length (maskString s) = 0 ∨ String.length (maskString s) = 4 ∨
   String.length (maskString s) = 12)%nat.
Proof.
  destruct (decide (s = "")) as [->|Hne]; [by split; [|left]|].
  destruct (decide (String.length s ≤ 8)%nat) as [Hs|Hs].
  - rewrite (maskString_short s) by done. split; [done|]. right. by left.
  - rewrite (maskString_over_eight s) by lia.
    assert (Ha : String.length (String.substring 0 4 s) = 4%nat)
      by (apply length_substring; lia).
    assert (Hb : String.length (String.substring (String.length s - 4) 4 s) = 4%nat)
      by (apply length_substring; lia).
    split; [by apply maskString_four_four|].
    right. right. rewrite !length_string_app, Ha, Hb. done.
Qed.

Lemma maskEach_fmap providers : maskEach providers = maskProvider <$> providers.
Proof.
  unfold maskEach.
  assert (Hgen : ∀ done todo,
    foldl (λ providers i,
             match providers !! i with
             | Some p => <[i := maskProvider p]> providers
             | None => providers
             end)
          ((maskProvider <$> done) ++ todo) (seq (length done) (length todo)) =
    maskProvider <$> (done ++ todo)).
  { intros done todo. revert done. induction todo as [|p todo IH]; intros done.
    { by rewrite !app_nil_r. }
    simpl. rewrite lookup_app_r by (rewrite length_fmap; lia).
    rewrite length_fmap, Nat.sub_diag. simpl.
    replace (<[length done := maskProvider p]> ((maskProvider <$> done) ++ p :: todo))
      with ((maskProvider <$> (done ++ [p])) ++ todo).
    - replace (S (length done)) with (length (done ++ [p])) by (rewrite length_app; simpl; lia).
      rewrite IH. by rewrite <-app_assoc.
    - rewrite fmap_app, <-app_assoc. simpl.
      rewrite insert_app_r_alt by (rewrite length_fmap; lia).
      by rewrite length_fmap, Nat.sub_diag. }
  exact (Hgen [] providers).
Qed.

Lemma providersOf_handleConfig h cfg :
  providersOf (handleConfig h cfg).1 cfg = maskProvider <$> providersOf h cfg.
Proof.
  unfold providersOf, handleConfig. simpl. rewrite lookup_alter_eq.
  destruct (h !! Providers cfg) as [providers|]; [|done]. simpl. apply maskEach_fmap.
Qed.

(** X15.  [handleConfig] masks the provider keys in the array that the
    configuration it was given and its copy share: after the call the
    configuration itself holds, for every provider, the masked key as a
    string in the place of the key; its router key is not touched, and no
    other array in memory is.  The response carries the masked router key
    and these providers. *)
Theorem handleConfig_masks_the_configuration_itself (h : Heap) (cfg : Config) :
  let h' := (handleConfig h cfg).1 in
  let response := (handleConfig h cfg).2 in
  providersOf h' cfg = maskProvider <$> providersOf h cfg ∧
  (∀ address, address ≠ Providers cfg → h' !! address = h !! address) ∧
  viewProviders response = maskProvider <$> providersOf h cfg ∧
  viewAPIKey response = maskString (APIKey cfg).
Proof.
  intros h' response. subst h' response.
  split; [apply providersOf_handleConfig|]. split; [|split].
  - intros address Hne. unfold handleConfig. simpl. by rewrite lookup_alter_ne.
  - pose proof (providersOf_handleConfig h cfg) as Hp.
    unfold handleConfig in *. simpl in *. by case_bool_decide.
  - unfold handleConfig. simpl. case_bool_decide as Hk; [done|].
    assert (APIKey cfg = "") as -> by (by destruct (decide (APIKey cfg = "")); [|destruct Hk]).
    done.
Qed.

Lemma maskString_empty s : maskString s = "" ↔ s = "".
Proof.
  split; [|by intros ->]. intros Hm. destruct (decide (s = "")) as [|Hne]; [done|].
  destruct (decide (String.length s ≤ 8)%nat) as [Hs|Hs].
  - by rewrite maskString_short in Hm.
  - rewrite maskString_over_eight in Hm by lia.
    assert (String.length (String.substring 0 4 s) = 4%nat) as Ha
      by (apply length_substring; lia).
    by destruct (String.substring 0 4 s).
Qed.

Lemma maskAPIKey_empty key : maskAPIKey key = "" ↔ key = JNull ∨ key = JString "".
Proof.
  destruct key; simpl; try (split; [done|by intros [|]]).
  - split; [by left|done].
  - rewrite maskString_empty. split; [intros ->; by right|by intros [|[= ->]]].
Qed.

Section ModelsFacts.
Variable GetAllowedModels : Config.Provider → list string.
Variable DefaultModels : Config.Provider → list string.

(** X16.  [handleProviders] reports [has_key] (and [enabled], which is the
    same value) for the providers whose key is a non-empty string, so a pool
    of keys counts as no key.  Once [handleConfig] has run on the same
    configuration, every provider whose key is neither nil nor the empty
    string is reported with a key, pools included, since a masked string
    stands in the place of each key. *)
Theorem handleProviders_has_key (h : Heap) (cfg : Config) :
  let before := handleProviders GetAllowedModels DefaultModels h cfg in
  let after := handleProviders GetAllowedModels DefaultModels (handleConfig h cfg).1 cfg in
  info_HasKey <$> before =
    (λ p, match Config.APIKey p with
          | JString key => bool_decide (key ≠ "")
          | _ => false
          end) <$> providersOf h cfg ∧
  info_HasKey <$> after =
    (λ p, match Config.APIKey p with
          | JNull => false
          | JString key => bool_decide (key ≠ "")
          | _ => true
          end) <$> providersOf h cfg ∧
  Forall (λ info, info_Enabled info = info_HasKey info) (before ++ after).
Proof.
  intros before after. subst before after. unfold handleProviders.
  rewrite providersOf_handleConfig. rewrite <-!list_fmap_compose.
  split; [done|]. split.
  - apply list_fmap_ext. intros i p _. simpl.
    destruct (Config.APIKey p) as [|b|n|key|items|fields] eqn:Hk; simpl; try done.
    repeat case_bool_decide; try done.
    + subst key. done.
    + match goal with
      | H : maskString key = "" |- _ => apply (proj1 (maskString_empty key)) in H
      end.
      done.
  - apply Forall_app. split; apply Forall_fmap, Forall_forall; by intros p _.
Qed.

End ModelsFacts.
End WebuiHandlers.

(** ** The model lists: internal/webui [handleModels] and the model browser
       of [cco models] (package cmd) *)
Module ModelBrowser.
Import Webui WebuiHandlers.

(** [modelItem]; its field [model] is [modelName] here, [model] being the
    name of the browser's state as well. *)
Record modelItem := {
  provider : string;
  modelName : string;
}.

(** [model], the state of the browser.  Its [cfg] is read by
    [renderSelectedModel] alone, for the text it prints, and is left out. *)
Record model := {
  providers : list Config.Provider;
  cursor : Z;
  selected : Z;
  items : list modelItem;
  viewportStart : Z;
  viewportSize : Z;
  quitting : bool;
}.

(** [ModelInfo] of [handleModels]. *)
Record ModelInfo := {
  mi_Provider : string;
  mi_Model : string;
  mi_FullName : string;
}.

(** The key bindings [keys]: the keys of each binding. *)
Definition keys_Up : list string := ["up"; "k"].
Definition keys_Down : list string := ["down"; "j"].
Definition keys_Select : list string := ["enter"; " "].
Definition keys_Quit : list string := ["q"; "esc"; "ctrl+c"].

(** [key.Matches] on a binding that is enabled, as [key.NewBinding] makes
    them: the key pressed is one of the binding's keys. *)
Definition Matches (msg : string) (binding : list string) : bool :=
  bool_decide (msg ∈ binding).

(** [tea.Msg], as far as [Update] tells messages apart: a window size, a key
    (by its [String()]), anything else. *)
Inductive Msg :=
| WindowSizeMsg (Width Height : Z)
| KeyMsg (key : string)
| OtherMsg.

Definition setCursor (m : model) (cursor' : Z) : model :=
  {| providers := providers m; cursor := cursor'; selected := selected m;
     items := items m; viewportStart := viewportStart m;
     viewportSize := viewportSize m; quitting := quitting m |}.

Definition setViewportStart (m : model) (viewportStart' : Z) : model :=
  {| providers := providers m; cursor := cursor m; selected := selected m;
     items := items m; viewportStart := viewportStart';
     viewportSize := viewportSize m; quitting := quitting m |}.

Definition setViewportSize (m : model) (viewportSize' : Z) : model :=
  {| providers := providers m; cursor := cursor m; selected := selected m;
     items := items m; viewportStart := viewportStart m;
     viewportSize := viewportSize'; quitting := quitting m |}.

Definition setSelected (m : model) (selected' : Z) : model :=
  {| providers := providers m; cursor := cursor m; selected := selected';
     items := items m; viewportStart := viewportStart m;
     viewportSize := viewportSize m; quitting := quitting m |}.

Definition setQuitting (m : model) : model :=
  {| providers := providers m; cursor := cursor m; selected := selected m;
     items := items m; viewportStart := viewportStart m;
     viewportSize := viewportSize m; quitting := true |}.

(** [model.Update]: the next state, and whether the command returned is
    [tea.Quit] (it is nil otherwise). *)
Definition Update (m : model) (msg : Msg) : model * bool :=
  match msg with
  | WindowSizeMsg _ Height => (setViewportSize m (wrap64 (Height - 10)), false)
  | KeyMsg msg =>
      if Matches msg keys_Quit then (setQuitting m, true)
      else if Matches msg keys_Up then
        if bool_decide (0 < cursor m) then
          let m := setCursor m (wrap64 (cursor m - 1)) in
          if bool_decide (cursor m < viewportStart m)
          then (setViewportStart m (cursor m), false)
          else (m, false)
        else (m, false)
      else if Matches msg keys_Down then
        if bool_decide (cursor m < wrap64 (Z.of_nat (length (items m)) - 1)) then
          let m := setCursor m (wrap64 (cursor m + 1)) in
          if bool_decide (wrap64 (viewportStart m + viewportSize m) ≤ cursor m)
          then (setViewportStart m (wrap64 (wrap64 (cursor m - viewportSize m) + 1)), false)
          else (m, false)
        else (m, false)
      else if Matches msg keys_Select then (setQuitting (setSelected m (cursor m)), true)
      else (m, false)
  | OtherMsg => (m, false)
  end.

(** What [View] draws: the text of [renderSelectedModel] for an item, the
    empty string, or the browser with its two counts and its lines, a
    provider header or a model (marked when the cursor is on it). *)
Inductive Line :=
| Header (provider : string)
| Item (atCursor : bool) (item : modelItem).

Inductive Screen :=
| SelectedModel (item : modelItem)
| Blank
| Browser (nproviders nmodels : nat) (lines : list Line).

(** The loop of [View] over [m.items], from index [i] on. *)
Fixpoint viewLines (m : model) (i : Z) (currentProvider : string) (visibleIndex : Z)
    (rest : list modelItem) : list Line :=
  match rest with
  | [] => []
  | item :: rest =>
      if bool_decide (i < viewportStart m) then
        viewLines m (i + 1) currentProvider visibleIndex rest
      else if bool_decide (viewportSize m ≤ visibleIndex) then []
      else if bool_decide (provider item ≠ currentProvider) then
        Header (provider item) :: Item (bool_decide (i = cursor m)) item
          :: viewLines m (i + 1) (provider item) (visibleIndex + 1 + 1) rest
      else
        Item (bool_decide (i = cursor m)) item
          :: viewLines m (i + 1) currentProvider (visibleIndex + 1) rest
  end.

(** [model.View]. *)
Definition View (m : model) : Screen :=
  if quitting m then
    if bool_decide (0 ≤ selected m ∧ selected m < Z.of_nat (length (items m))) then
      match items m !! Z.to_nat (selected m) with
      | Some item => SelectedModel item
      | None => Blank
      end
    else Blank
  else Browser (length (providers m)) (length (items m)) (viewLines m 0 "" 0 (items m)).

(** The messages of a session, one [Update] after the other. *)
Definition session (m : model) (msgs : list Msg) : model :=
  foldl (λ m msg, (Update m msg).1) m msgs.

Section Models.

Variable GetAllowedModels : Config.Provider → list string.
Variable DefaultModels : Config.Provider → list string.

(** [initialModel], on the configuration [cfg] points to. *)
Definition initialModel (h : Heap) (cfg : Config) : model :=
  let items :=
    foldl (λ items provider,
             let models := GetAllowedModels provider in
             let models :=
               if bool_decide (length models = 0%nat) then DefaultModels provider
               else models in
             foldl (λ items modelName,
                      items ++ [{| provider := Config.Name provider;
                                   modelName := modelName |}])
                   items models)
          [] (providersOf h cfg) in
  {| providers := providersOf h cfg; cursor := 0; selected := 0; items := items;
     viewportStart := 0; viewportSize := 20; quitting := false |}.

(** [handleModels]: the response. *)
Definition handleModels (h : Heap) (cfg : Config) : list ModelInfo :=
  foldl (λ models p,
           let modelList := GetAllowedModels p in
           let modelList :=
             if bool_decide (length modelList = 0%nat) then DefaultModels p
             else modelList in
           foldl (λ models m,
                    models ++ [{| mi_Provider := Config.Name p; mi_Model := m;
                                  mi_FullName := Config.Name p +:+ "/" +:+ m |}])
                 models modelList)
        [] (providersOf h cfg).

End Models.

(** *** Facts *)

Definition sumNat (l : list nat) : nat := foldr Nat.add 0%nat l.

Lemma foldl_append {A B} (f : B → A) (acc : list A) (l : list B) :
  foldl (λ acc x, acc ++ [f x]) acc l = acc ++ (f <$> l).
Proof.
  revert acc. induction l as [|x l IH]; intros acc; simpl.
  - by rewrite app_nil_r.
  - rewrite IH. by rewrite <-app_assoc.
Qed.

Lemma foldl_append_all {A B} (f : B → list A) (acc : list A) (l : list B) :
  foldl (λ acc x, acc ++ f x) acc l = acc ++ (l ≫= f).
Proof.
  revert acc. induction l as [|x l IH]; intros acc; simpl.
  - by rewrite app_nil_r.
  - rewrite IH. by rewrite <-app_assoc.
Qed.

Lemma foldl_pointwise {A B} (f g : A → B → A) (a : A) (l : list B) :
  (∀ a b, f a b = g a b) → foldl f a l = foldl g a l.
Proof.
  intros Hfg. revert a. induction l as [|b l IH]; intros a; [done|].
  simpl. by rewrite Hfg, IH.
Qed.

Section ModelsFacts.

Variable GetAllowedModels : Config.Provider → list string.
Variable DefaultModels : Config.Provider → list string.

(** The models of a provider as the three loops read them. *)
Definition modelsOf (p : Config.Provider) : list string :=
  if bool_decide (length (GetAllowedModels p) = 0%nat) then DefaultModels p
  else GetAllowedModels p.

Lemma handleModels_bind h cfg :
  handleModels GetAllowedModels DefaultModels h cfg =
    providersOf h cfg ≫= λ p,
      (λ m, {| mi_Provider := Config.Name p; mi_Model := m;
               mi_FullName := Config.Name p +:+ "/" +:+ m |}) <$> modelsOf p.
Proof.
  unfold handleModels.
  rewrite <-(app_nil_l (_ ≫= _)), <-foldl_append_all.
  apply foldl_pointwise. intros models p. apply foldl_append.
Qed.

Lemma initialModel_items h cfg :
  items (initialModel GetAllowedModels DefaultModels h cfg) =
    providersOf h cfg ≫= λ p,
      (λ m, {| provider := Config.Name p; modelName := m |}) <$> modelsOf p.
Proof.
  unfold initialModel. simpl.
  rewrite <-(app_nil_l (_ ≫= _)), <-foldl_append_all.
  apply foldl_pointwise. intros models p. apply foldl_append.
Qed.

(** X17.  The three model lists agree.  [handleModels] answers with the
    models of the providers in configuration order, each under its provider
    and with the full name provider/model; the browser's items are the same
    pairs in the same order; and the [models] counts [handleProviders]
    reports add up to the length of the list. *)
Theorem model_lists_agree (h : Heap) (cfg : Config) :
  let models := handleModels GetAllowedModels DefaultModels h cfg in
  let browser := initialModel GetAllowedModels DefaultModels h cfg in
  (λ mi, (mi_Provider mi, mi_Model mi)) <$> models =
    (λ item, (provider item, modelName item)) <$> items browser ∧
  Forall (λ mi, mi_FullName mi = modelKeyOf (mi_Provider mi) (mi_Model mi)) models ∧
  length models =
    sumNat (info_Models <$> handleProviders GetAllowedModels DefaultModels h cfg) ∧
  providers browser = providersOf h cfg.
Proof.
  intros models browser. subst models browser.
  rewrite handleModels_bind, initialModel_items. unfold handleProviders.
  change (providers (initialModel GetAllowedModels DefaultModels h cfg))
    with (providersOf h cfg).
  generalize (providersOf h cfg) as ps. intros ps.
  split; [|split; [|split]].
  - induction ps as [|p ps IH]; [done|].
    rewrite !bind_cons, !fmap_app, IH. f_equal.
    by rewrite <-!list_fmap_compose.
  - induction ps as [|p ps IH]; [by constructor|].
    rewrite bind_cons. apply Forall_app. split; [|done].
    apply Forall_fmap, Forall_forall. by intros m _.
  - induction ps as [|p ps IH]; [done|].
    rewrite bind_cons, fmap_cons, length_app, length_fmap, IH. simpl. f_equal.
    unfold modelsOf. by case_bool_decide.
  - done.
Qed.

End ModelsFacts.

(** The cursor is on an item (or at 0 when there is none), the viewport
    starts at or before it, and the viewport has room for a line. *)
Definition wellPlaced (m : model) : Prop :=
  0 ≤ viewportStart m ∧ viewportStart m ≤ cursor m ∧
  (cursor m < Z.of_nat (length (items m)) ∨ cursor m = 0) ∧
  1 ≤ viewportSize m ∧ viewportSize m < 2 ^ 62.

(** A window at least eleven lines high. *)
Definition roomy (msg : Msg) : Prop :=
  match msg with
  | WindowSizeMsg _ Height => 10 < Height < 2 ^ 62
  | _ => True
  end.

Lemma Update_items m msg : items (Update m msg).1 = items m.
Proof.
  destruct msg as [w height|key|]; simpl; [done| |done].
  repeat (case_match; simpl; try done).
Qed.

Lemma Update_providers m msg : providers (Update m msg).1 = providers m.
Proof.
  destruct msg as [w height|key|]; simpl; [done| |done].
  repeat (case_match; simpl; try done).
Qed.

Lemma session_items m msgs : items (session m msgs) = items m.
Proof.
  revert m. induction msgs as [|msg msgs IH]; intros m; [done|].
  simpl. change (items (session (Update m msg).1 msgs) = items m).
  by rewrite IH, Update_items.
Qed.

Lemma Update_wellPlaced m msg :
  Z.of_nat (length (items m)) < 2 ^ 62 →
  roomy msg → wellPlaced m → wellPlaced (Update m msg).1.
Proof.
  intros Hlen Hroomy (Hs & Hsc & Hc & Hv & Hv').
  destruct msg as [w height|key|]; simpl in *; [| |done].
  - unfold wellPlaced. simpl.
    rewrite wrap64_id by (unfold inInt64, minInt64, maxInt64; lia). lia.
  - destruct (Matches key keys_Quit); [done|].
    destruct (Matches key keys_Up).
    { case_bool_decide as Hpos; [|done]. simpl.
      rewrite wrap64_id by (unfold inInt64, minInt64, maxInt64; lia).
      case_bool_decide; unfold wellPlaced; simpl; lia. }
    destruct (Matches key keys_Down).
    { rewrite (wrap64_id (_ - 1)) by (unfold inInt64, minInt64, maxInt64; lia).
      case_bool_decide as Hlast; [|done]. simpl.
      rewrite (wrap64_id (cursor m + 1)) by (unfold inInt64, minInt64, maxInt64; lia).
      rewrite (wrap64_id (viewportStart m + _)) by (unfold inInt64, minInt64, maxInt64; lia).
      case_bool_decide; unfold wellPlaced; simpl; [|lia].
      rewrite (wrap64_id (cursor m + 1 - _)) by (unfold inInt64, minInt64, maxInt64; lia).
      rewrite wrap64_id by (unfold inInt64, minInt64, maxInt64; lia). lia. }
    destruct (Matches key keys_Select); done.
Qed.

(** X18.  In a browser opened on fewer than 2^62 models, as long as every
    window-size message reports more than ten lines, the cursor stays on an
    item of the list (at 0 when the list is empty), the viewport starts at
    or before the cursor and never below 0, and the items and providers are
    those the browser was opened with. *)
Theorem browser_cursor_stays_on_an_item
    (GetAllowedModels DefaultModels : Config.Provider → list string)
    (h : Heap) (cfg : Config) (msgs : list Msg) :
  let opened := initialModel GetAllowedModels DefaultModels h cfg in
  Z.of_nat (length (items opened)) < 2 ^ 62 →
  Forall roomy msgs →
  let m := session opened msgs in
  items m = items opened ∧ providers m = providers opened ∧
  0 ≤ viewportStart m ∧ viewportStart m ≤ cursor m ∧
  (cursor m < Z.of_nat (length (items m)) ∨ cursor m = 0).
Proof.
  intros opened Hlen Hroomy m. subst m.
  assert (Hstart : wellPlaced opened) by (unfold wellPlaced; simpl; lia).
  revert Hlen Hstart. generalize opened as m. clear opened.
  induction Hroomy as [|msg msgs Hmsg _ IH]; intros m Hlen Hm.
  - destruct Hm as (? & ? & ? & ?). done.
  - change (session m (msg :: msgs)) with (session (Update m msg).1 msgs).
    destruct (IH (Update m msg).1) as (Hi & Hp & Hrest).
    + by rewrite Update_items.
    + by apply Update_wellPlaced.
    + rewrite Hi, Hp, Update_items, Update_providers. split; [done|]. split; [done|].
      by rewrite Hi, Update_items in Hrest.
Qed.

(** A key that selects: [enter] or the space bar. *)
Definition selects (msg : Msg) : Prop :=
  match msg with
  | KeyMsg key => key ∈ keys_Select
  | _ => False
  end.

Lemma Update_selected m msg : ¬ selects msg → selected (Update m msg).1 = selected m.
Proof.
  intros Hsel. destruct msg as [w height|key|]; simpl in *; [done| |done].
  destruct (Matches key keys_Quit); [done|].
  destruct (Matches key keys_Up); [by repeat (case_bool_decide; simpl)|].
  destruct (Matches key keys_Down); [by repeat (case_bool_decide; simpl)|].
  unfold Matches. by rewrite bool_decide_eq_false_2.
Qed.

Lemma session_snoc m msgs msg :
  session m (msgs ++ [msg]) = (Update (session m msgs) msg).1.
Proof. unfold session. by rewrite foldl_snoc. Qed.

(** X19.  Leaving the browser with a quit key ([q], [esc], [ctrl+c]) without
    having selected anything still shows a selected model: the screen after
    the quit key is the selection screen of the first item of the list,
    wherever the cursor was, and is blank only when the list is empty. *)
Theorem quitting_shows_the_first_model
    (GetAllowedModels DefaultModels : Config.Provider → list string)
    (h : Heap) (cfg : Config) (msgs : list Msg) (key : string) :
  let opened := initialModel GetAllowedModels DefaultModels h cfg in
  Forall (λ msg, ¬ selects msg) msgs →
  key ∈ keys_Quit →
  (Update (session opened msgs) (KeyMsg key)).2 = true ∧
  View (session opened (msgs ++ [KeyMsg key])) =
    match items opened with
    | item :: _ => SelectedModel item
    | [] => Blank
    end.
Proof.
  intros opened Hmsgs Hkey.
  assert (Hquit : Matches key keys_Quit = true) by (by apply bool_decide_eq_true_2).
  assert (Hfresh : selected opened = 0) by done. clearbody opened.
  split; [simpl; by rewrite Hquit|].
  rewrite session_snoc. simpl. rewrite Hquit. unfold View. simpl.
  assert (Hsel : selected (session opened msgs) = 0).
  { assert (Hgen : ∀ m, selected (session m msgs) = selected m).
    { induction Hmsgs as [|msg msgs Hmsg _ IH]; intros m; [done|].
      change (session m (msg :: msgs)) with (session (Update m msg).1 msgs).
      by rewrite IH, Update_selected. }
    by rewrite Hgen. }
  rewrite Hsel, session_items.
  destruct (items opened) as [|item rest]; [done|].
  rewrite bool_decide_eq_true_2; [done|].
  rewrite length_cons. lia.
Qed.

Lemma viewLines_budget m i currentProvider visibleIndex rest :
  Z.of_nat (length (viewLines m i currentProvider visibleIndex rest)) ≤
    if bool_decide (visibleIndex < viewportSize m)
    then viewportSize m - visibleIndex + 1 else 0.
Proof.
  revert i currentProvider visibleIndex.
  induction rest as [|item rest IH]; intros i currentProvider visibleIndex; simpl.
  - case_bool_decide; lia.
  - case_bool_decide as Hskip; [apply IH|].
    case_bool_decide as Hfull; [by rewrite bool_decide_eq_false_2 by lia|].
    rewrite (bool_decide_eq_true_2 (visibleIndex < _)) by lia.
    case_bool_decide as Hheader; simpl.
    + specialize (IH (i + 1) (provider item) (visibleIndex + 1 + 1)).
      case_bool_decide; lia.
    + specialize (IH (i + 1) currentProvider (visibleIndex + 1)).
      case_bool_decide; lia.
Qed.

(** X20.  The browser screen never holds more than [viewportSize + 1] lines
    of providers and models, and holds none when the viewport size is zero
    or negative (a window of ten lines or fewer); its two counts are those
    of the providers and the items. *)
Theorem View_line_budget (m : model) :
  quitting m = false →
  ∃ lines,
    View m = Browser (length (providers m)) (length (items m)) lines ∧
    Z.of_nat (length lines) ≤ Z.max 0 (viewportSize m + 1) ∧
    (viewportSize m ≤ 0 → lines = []).
Proof.
  intros Hq. unfold View. rewrite Hq. eexists. split; [done|].
  pose proof (viewLines_budget m 0 "" 0 (items m)) as Hb.
  case_bool_decide as Hv; split; try lia.
  intros _. apply nil_length_inv. lia.
Qed.

End ModelBrowser.

(** A browser session on three models of two providers. *)
Module ModelBrowserExample.
Import Webui WebuiHandlers ModelBrowser.

Definition allowed (p : Config.Provider) : list string :=
  if bool_decide (Config.Name p = "openai") then ["gpt-4o"; "gpt-4o-mini"] else [].

Definition defaults (p : Config.Provider) : list string := ["llama3"].

Definition heap : Heap :=
  {[ 0%nat := [ {| Config.Name := "openai"; Config.APIBase := "https://api.openai.com";
                   Config.APIKey := JString "sk-0123456789" |};
                {| Config.Name := "ollama"; Config.APIBase := "http://localhost:11434";
                   Config.APIKey := JNull |} ] ]}.

Definition cfg : Config := {| APIKey := ""; Providers := 0%nat |}.

Definition msgs : list Msg := [KeyMsg "j"; WindowSizeMsg 80 24; KeyMsg "down"; KeyMsg "k"].

Lemma browser_cursor_stays_on_an_item_witness :
  cursor (session (initialModel allowed defaults heap cfg) msgs) = 1 ∧
  let m := session (initialModel allowed defaults heap cfg) msgs in
  items m = items (initialModel allowed defaults heap cfg) ∧
  providers m = providers (initialModel allowed defaults heap cfg) ∧
  0 ≤ viewportStart m ∧ viewportStart m ≤ cursor m ∧
  (cursor m < Z.of_nat (length (items m)) ∨ cursor m = 0).
Proof.
  split; [by vm_compute|].
  apply (browser_cursor_stays_on_an_item allowed defaults heap cfg msgs).
  - by vm_compute.
  - repeat constructor; simpl; lia.
Defined.

Lemma quitting_shows_the_first_model_witness :
  (Update (session (initialModel allowed defaults heap cfg) msgs) (KeyMsg "q")).2 = true ∧
  View (session (initialModel allowed defaults heap cfg) (msgs ++ [KeyMsg "q"])) =
    SelectedModel {| provider := "openai"; modelName := "gpt-4o" |}.
Proof.
  apply (quitting_shows_the_first_model allowed defaults heap cfg msgs "q").
  - repeat constructor; simpl; by apply (bool_decide_unpack _).
  - by apply (bool_decide_unpack _).
Defined.

Lemma View_line_budget_witness :
  ∃ lines,
    View (session (initialModel allowed defaults heap cfg) msgs) = Browser 2 3 lines ∧
    Z.of_nat (length lines) ≤ 15 ∧ (14 ≤ 0 → lines = []).
Proof.
  apply (View_line_budget (session (initialModel allowed defaults heap cfg) msgs)).
  by vm_compute.
Defined.

End ModelBrowserExample.

(** ** internal/workflow: the executor *)
Module Workflow.

(** [StepType] and [ErrorAction] are string types with named constants. *)
Definition StepType := string.
Definition StepCommand : StepType := "command".
Definition StepConfigure : StepType := "configure".
Definition StepProvider : StepType := "provider".
Definition StepPlugin : StepType := "plugin".
Definition StepTest : StepType := "test".
Definition StepPrompt : StepType := "prompt".
Definition StepWait : StepType := "wait".
Definition StepHTTP : StepType := "http".
Definition StepValidate : StepType := "validate".

Definition ErrorAction := string.
Definition ErrorContinue : ErrorAction := "continue".
Definition ErrorAbort : ErrorAction := "abort".
Definition ErrorRetry : ErrorAction := "retry".
Definition ErrorPrompt : ErrorAction := "prompt".

Definition Variables := gmap string string.

(** [Step]; its field [Type] is [Type_] here. *)
Record Step := {
  Name : string;
  Type_ : StepType;
  Description : string;
  Command : string;
  Args : list string;
  Env : gmap string string;
  Config : gmap string JSON;
  OnError : ErrorAction;
  Condition : string;
}.

(** [Workflow]; its [Name], [Description] and [Variables] carry a prefix
    here, the names being taken by [Step] and by the type [Variables]. *)
Record Workflow := {
  WorkflowName : string;
  WorkflowDescription : string;
  Steps : list Step;
  WorkflowVariables : Variables;
}.

(** The errors of the executor: one that a library call returned, or one
    built by [fmt.Errorf] from a format (as the source writes it), the error
    it wraps, if any, and its other operands. *)
Inductive Err :=
| Library (e : error)
| Errorf (format : string) (err : option Err) (args : list string).

(** The calls to the [Logger], by method and format. *)
Inductive Level := Info | Error | Success | Warn.
Definition Entry : Type := Level * string.

(** What the executor needs from outside: the process environment, running
    a command ([exec.Command(...).CombinedOutput()], with the environment it
    is given, if any), reading a line from standard input, [time.Sleep],
    [time.ParseDuration], three functions of [strings], and the order in
    which a [range] visits a map.  What the executor writes to the terminal
    itself, and the clock it reads for the duration it reports, are not
    modelled. *)
Record Host (World : Type) := {
  Environ : World → list string;
  CombinedOutput : string → list string → option (list string) → World →
                   World * (string * option error);
  ReadString : World → World * (string * option error);
  Sleep : Z → World → World;
  ParseDuration : string → Z + error;
  TrimSpace : string → string;
  ToLower : string → string;
  ReplaceAll : string → string → string → string;
  range : gmap string string → list (string * string);
}.
Arguments Environ {World}.
Arguments CombinedOutput {World}.
Arguments ReadString {World}.
Arguments Sleep {World}.
Arguments ParseDuration {World}.
Arguments TrimSpace {World}.
Arguments ToLower {World}.
Arguments ReplaceAll {World}.
Arguments range {World}.

(** [Executor]; its logger is the log kept in the state below. *)
Record Executor := {
  dryRun : bool;
}.

Definition NewExecutor (dryRun : bool) : Executor := {| dryRun := dryRun |}.

(** The state an execution goes through: the world outside, the variables
    of the [ExecutionContext], and the log so far. *)
Record Run (World : Type) := {
  world : World;
  variables : Variables;
  logged : list Entry;
}.
Arguments world {World}.
Arguments variables {World}.
Arguments logged {World}.

(** How the loop of [Execute] leaves a step: on to the next one, or out of
    [Execute] with the value it returns. *)
Inductive Flow :=
| Next
| Returned (err : option Err).

Section Executor.

Context {World : Type} (host : Host World).

Definition log (level : Level) (format : string) (st : Run World) : Run World :=
  {| world := world st; variables := variables st;
     logged := logged st ++ [(level, format)] |}.

Definition setWorld (st : Run World) (w : World) : Run World :=
  {| world := w; variables := variables st; logged := logged st |}.

Definition setVariable (st : Run World) (k v : string) : Run World :=
  {| world := world st; variables := <[k := v]> (variables st); logged := logged st |}.

(** [substituteVariables]. *)
Definition substituteVariables (s : string) (vars : Variables) : string :=
  foldl (λ result '(k, v), ReplaceAll host result ("{{" +:+ k +:+ "}}") v)
        s (range host vars).

(** [executeCommand]. *)
Definition executeCommand (step : Step) (st : Run World) : Run World * option Err :=
  let cmd := substituteVariables (Command step) (variables st) in
  let args := (λ arg, substituteVariables arg (variables st)) <$> Args step in
  let st := log Info "Running: %s %s" st in
  let env :=
    if bool_decide (0 < size (Env step))%nat then
      Some (Environ host (world st) ++
            ((λ '(k, v), k +:+ "=" +:+ substituteVariables v (variables st))
               <$> range host (Env step)))
    else None in
  let '(w, (output, err)) := CombinedOutput host cmd args env (world st) in
  let st := setWorld st w in
  match err with
  | Some err => (st, Some (Errorf "command failed: %w\n%s" (Some (Library err)) [output]))
  | None => (st, None)
  end.

(** [executeConfigure], [executeProvider], [executePlugin], [executeTest],
    [executeValidate] and [executeHTTP] log a line and return nil. *)
Definition executeConfigure (step : Step) (st : Run World) : Run World * option Err :=
  (log Info "Configuring CCO..." st, None).

Definition executeProvider (step : Step) (st : Run World) : Run World * option Err :=
  (log Info "Configuring provider..." st, None).

Definition executePlugin (step : Step) (st : Run World) : Run World * option Err :=
  (log Info "Managing plugins..." st, None).

Definition executeTest (step : Step) (st : Run World) : Run World * option Err :=
  (log Info "Running tests..." st, None).

Definition executeValidate (step : Step) (st : Run World) : Run World * option Err :=
  (log Info "Validating configuration..." st, None).

Definition executeHTTP (step : Step) (st : Run World) : Run World * option Err :=
  (log Info "Making HTTP request..." st, None).

(** [executePrompt]. *)
Definition executePrompt (step : Step) (st : Run World) : Run World * option Err :=
  match Config step !! "variable" with
  | Some (JString variable) =>
      match Config step !! "prompt" with
      | Some (JString prompt) =>
          let secret :=
            match Config step !! "secret" with
            | Some (JBool secret) => secret
            | _ => false
            end in
          let '(w, (input, err)) := ReadString host (world st) in
          let st := setWorld st w in
          match err with
          | Some err => (st, Some (Errorf "read input: %w" (Some (Library err)) []))
          | None =>
              let value := TrimSpace host input in
              let st := setVariable st variable value in
              if negb secret then (log Info "Set %s = %s" st, None)
              else (log Info "Set %s = [hidden]" st, None)
          end
      | _ => (st, Some (Errorf "prompt step missing 'prompt' config" None []))
      end
  | _ => (st, Some (Errorf "prompt step missing 'variable' config" None []))
  end.

(** [executeWait]. *)
Definition executeWait (step : Step) (st : Run World) : Run World * option Err :=
  match Config step !! "duration" with
  | Some (JString duration) =>
      match ParseDuration host duration with
      | inr err => (st, Some (Errorf "invalid duration: %w" (Some (Library err)) []))
      | inl d =>
          let st := log Info "Waiting for %s..." st in
          (setWorld st (Sleep host d (world st)), None)
      end
  | _ => (st, Some (Errorf "wait step requires 'duration' config" None []))
  end.

(** [executeStep]. *)
Definition executeStep (step : Step) (st : Run World) : Run World * option Err :=
  if bool_decide (Type_ step = StepCommand) then executeCommand step st
  else if bool_decide (Type_ step = StepConfigure) then executeConfigure step st
  else if bool_decide (Type_ step = StepProvider) then executeProvider step st
  else if bool_decide (Type_ step = StepPlugin) then executePlugin step st
  else if bool_decide (Type_ step = StepTest) then executeTest step st
  else if bool_decide (Type_ step = StepPrompt) then executePrompt step st
  else if bool_decide (Type_ step = StepValidate) then executeValidate step st
  else if bool_decide (Type_ step = StepWait) then executeWait step st
  else if bool_decide (Type_ step = StepHTTP) then executeHTTP step st
  else (st, Some (Errorf "unknown step type: %s" None [Type_ step])).

(** [handleStepError]. *)
Definition handleStepError (step : Step) (err : Err) (st : Run World) :
    Run World * option Err :=
  let st := log Error "Step failed: %v" st in
  if bool_decide (OnError step = ErrorContinue) then
    (log Warn "Continuing to next step..." st, None)
  else if bool_decide (OnError step = ErrorRetry) then
    executeStep step (log Info "Retrying step..." st)
  else if bool_decide (OnError step = ErrorPrompt) then
    let '(w, (response, _)) := ReadString host (world st) in
    let st := setWorld st w in
    if bool_decide (ToLower host (TrimSpace host response) = "y") then (st, None)
    else (st, Some err)
  else (st, Some (Errorf "workflow aborted: %w" (Some err) [])).

(** The loop of [Execute] over the steps. *)
Fixpoint executeSteps (e : Executor) (steps : list Step) (st : Run World) :
    Run World * Flow :=
  match steps with
  | [] => (st, Next)
  | step :: steps =>
      if dryRun e then
        executeSteps e steps (log Info "DRY RUN: Would execute %s step" st)
      else
        match executeStep step st with
        | (st, Some err) =>
            let '(st, r) := handleStepError step err st in (st, Returned r)
        | (st, None) => executeSteps e steps (log Success "Step completed" st)
        end
  end.

(** The state [Execute] starts from: the workflow's variables, copied. *)
Definition start (workflow : Workflow) (w : World) : Run World :=
  log Info "Starting workflow: %s"
      {| world := w; variables := WorkflowVariables workflow; logged := [] |}.

(** [Executor.Execute]. *)
Definition Execute (e : Executor) (workflow : Workflow) (w : World) :
    Run World * option Err :=
  match executeSteps e (Steps workflow) (start workflow w) with
  | (st, Returned r) => (st, r)
  | (st, Next) => (log Success "Workflow completed successfully in %s" st, None)
  end.

(** *** Facts *)

Lemma executeSteps_dry_run steps st :
  executeSteps (NewExecutor true) steps st =
    ({| world := world st; variables := variables st;
        logged := logged st ++
                  ((λ _, (Info, "DRY RUN: Would execute %s step")) <$> steps) |}, Next).
Proof.
  revert st. induction steps as [|step steps IH]; intros st; simpl.
  - rewrite app_nil_r. by destruct st.
  - rewrite IH. simpl. by rewrite <-app_assoc.
Qed.

(** X21.  A dry run touches nothing: whatever the workflow, [Execute] of an
    executor made with [dryRun] set returns nil, leaves the world outside as
    it was (no command run, no input read, no sleep) and the variables as
    the workflow has them, and logs the start, one line per step, and the
    completion. *)
Theorem dry_run_executes_nothing (workflow : Workflow) (w : World) :
  Execute (NewExecutor true) workflow w =
    ({| world := w;
        variables := WorkflowVariables workflow;
        logged := (Info, "Starting workflow: %s")
                  :: ((λ _, (Info, "DRY RUN: Would execute %s step")) <$> Steps workflow)
                  ++ [(Success, "Workflow completed successfully in %s")] |}, None).
Proof. unfold Execute. by rewrite executeSteps_dry_run. Qed.

Lemma executeSteps_app e before after st st1 :
  executeSteps e before st = (st1, Next) →
  executeSteps e (before ++ after) st = executeSteps e after st1.
Proof.
  revert st. induction before as [|step before IH]; intros st Hb; simpl in *.
  - by injection Hb as ->.
  - destruct (dryRun e); [by apply IH|].
    destruct (executeStep step st) as [st' [err|]]; [|by apply IH].
    by destruct (handleStepError step err st').
Qed.

(** X22.  A failed step ends the workflow, whatever its [on_error] says.
    When the steps before [step] went through and [step] fails, [Execute]
    returns what [handleStepError] returns for it, and no later step is
    looked at.  With [on_error: continue] that is nil, after the two log
    lines, with the remaining steps not run and no completion logged; with
    [on_error: retry] the step is run once more and its result, nil
    included, is the result of the workflow. *)
Theorem a_failed_step_ends_the_workflow
    (workflow : Workflow) (before after : list Step) (step : Step)
    (w : World) (st1 st2 : Run World) (err : Err) :
  Steps workflow = before ++ step :: after →
  executeSteps (NewExecutor false) before (start workflow w) = (st1, Next) →
  executeStep step st1 = (st2, Some err) →
  Execute (NewExecutor false) workflow w = handleStepError step err st2 ∧
  (OnError step = ErrorContinue →
     Execute (NewExecutor false) workflow w =
       (log Warn "Continuing to next step..." (log Error "Step failed: %v" st2), None)) ∧
  (OnError step = ErrorRetry →
     Execute (NewExecutor false) workflow w =
       executeStep step (log Info "Retrying step..." (log Error "Step failed: %v" st2))).
Proof.
  intros Hsteps Hbefore Hstep.
  assert (Hexec : Execute (NewExecutor false) workflow w = handleStepError step err st2).
  { unfold Execute. rewrite Hsteps, (executeSteps_app _ _ _ _ _ Hbefore). simpl.
    rewrite Hstep. by destruct (handleStepError step err st2). }
  split; [done|]. rewrite Hexec. unfold handleStepError. split; intros ->; done.
Qed.

Definition quietTypes : list StepType :=
  [StepConfigure; StepProvider; StepPlugin; StepTest; StepValidate; StepHTTP].

Definition knownTypes : list StepType :=
  [StepCommand; StepPrompt; StepWait] ++ quietTypes.

(** X23.  Only command, prompt and wait steps, and steps of a type the
    executor does not know, can fail.  A step of one of the six other types
    returns nil after one log line and changes neither the world outside nor
    the variables; a step of an unknown type fails without a log line. *)
Theorem executeStep_failures (step : Step) (st : Run World) :
  (Type_ step ∈ quietTypes →
     ∃ format, executeStep step st = (log Info format st, None)) ∧
  (Type_ step ∉ knownTypes →
     executeStep step st = (st, Some (Errorf "unknown step type: %s" None [Type_ step]))) ∧
  (∀ err, (executeStep step st).2 = Some err →
     Type_ step ∈ [StepCommand; StepPrompt; StepWait] ∨ Type_ step ∉ knownTypes).
Proof.
  assert (Hquiet : Type_ step ∈ quietTypes →
            ∃ format, executeStep step st = (log Info format st, None)).
  { unfold quietTypes. rewrite !elem_of_cons, elem_of_nil.
    intros [Ht|[Ht|[Ht|[Ht|[Ht|[Ht|[]]]]]]]; unfold executeStep; rewrite Ht;
      simpl; by eexists. }
  assert (Hunknown : Type_ step ∉ knownTypes →
            executeStep step st =
              (st, Some (Errorf "unknown step type: %s" None [Type_ step]))).
  { unfold knownTypes, quietTypes. simpl. rewrite !elem_of_cons, elem_of_nil.
    intros Hnot. unfold executeStep.
    repeat (case_bool_decide as Ht; [destruct Hnot; rewrite Ht; tauto|clear Ht]).
    done. }
  split; [done|]. split; [done|].
  intros err Herr.
  destruct (decide (Type_ step ∈ [StepCommand; StepPrompt; StepWait])) as [|Hnot3]; [by left|].
  right. intros Hknown. unfold knownTypes in Hknown.
  apply elem_of_app in Hknown as [?|Hq]; [done|].
  destruct (Hquiet Hq) as [format Heq]. by rewrite Heq in Herr.
Qed.

End Executor.

End Workflow.

(** A host whose commands fail when they are called [false], with the lines
    of standard input as its world. *)
Module WorkflowExample.
Import Workflow.

Definition host : Host (list string) :=
  {| Environ := λ _, [];
     CombinedOutput := λ cmd _ _ w,
       (w, ("", if bool_decide (cmd = "false") then Some (errorString "exit status 1")
                else None));
     ReadString := λ w,
       match w with
       | line :: w => (w, (line, None))
       | [] => ([], ("", Some (errorString "EOF")))
       end;
     Sleep := λ _ w, w;
     ParseDuration := λ _, inl 0;
     TrimSpace := λ s, s;
     ToLower := λ s, s;
     ReplaceAll := λ s _ _, s;
     range := λ m, map_to_list m |}.

Definition command (name : string) (onError : ErrorAction) : Step :=
  {| Name := name; Type_ := StepCommand; Description := ""; Command := name; Args := [];
     Env := ∅; Config := ∅; OnError := onError; Condition := "" |}.

Definition test : Step :=
  {| Name := "test"; Type_ := StepTest; Description := ""; Command := ""; Args := [];
     Env := ∅; Config := ∅; OnError := ""; Condition := "" |}.

Definition workflow : Workflow :=
  {| WorkflowName := "example"; WorkflowDescription := "";
     Steps := [command "true" ErrorAbort; command "false" ErrorContinue; command "true" ErrorAbort];
     WorkflowVariables := ∅ |}.

Lemma a_failed_step_ends_the_workflow_witness :
  (Execute host (NewExecutor false) workflow []).2 = None ∧
  length (logged (Execute host (NewExecutor false) workflow []).1) = 6%nat.
Proof.
  destruct (a_failed_step_ends_the_workflow host workflow
              [command "true" ErrorAbort] [command "true" ErrorAbort]
              (command "false" ErrorContinue) []
              (executeSteps host (NewExecutor false) [command "true" ErrorAbort]
                 (start workflow [])).1
              (executeStep host (command "false" ErrorContinue)
                 (executeSteps host (NewExecutor false) [command "true" ErrorAbort]
                    (start workflow [])).1).1
              (Errorf "command failed: %w\n%s" (Some (Library (errorString "exit status 1"))) [""]))
    as (_ & Hcontinue & _).
  - reflexivity.
  - reflexivity.
  - reflexivity.
  - rewrite Hcontinue by reflexivity. split; reflexivity.
Defined.

Lemma executeStep_failures_witness :
  ∃ format, executeStep host test (start workflow []) =
              (log Info format (start workflow []), None).
Proof.
  apply (executeStep_failures host test (start workflow [])).
  by apply (bool_decide_unpack _).
Defined.

End WorkflowExample.

(** ** cmd: [cco config show] *)
Module CmdConfig.

(** [strings.Repeat], for a count that is not negative. *)
Fixpoint Repeat (s : string) (count : nat) : string :=
  match count with
  | O => ""
  | S count => s +:+ Repeat s count
  end.

(** [maskString] of package cmd (config.go), which is not the one of the
    web UI. *)
Definition maskString (s : string) : string :=
  if bool_decide (s = "") then "(not set)"
  else if bool_decide (String.length s ≤ 8)%nat then Repeat "*" (String.length s)
  else String.substring 0 4 s +:+ Repeat "*" (String.length s - 8)
       +:+ String.substring (String.length s - 4) 4 s.

(** The loop of [runConfigShow] over the providers, reduced to what it
    prints for the key of each, [maskString(provider.APIKey.(string))]: the
    masked keys printed, and whether the loop panicked, which the type
    assertion does on a key that is not a string. *)
Fixpoint showKeys (providers : list Config.Provider) : list string * bool :=
  match providers with
  | [] => ([], false)
  | provider :: providers =>
      match Config.APIKey provider with
      | JString key =>
          let '(printed, panicked) := showKeys providers in
          (maskString key :: printed, panicked)
      | _ => ([], true)
      end
  end.

(** *** Facts *)

(** The byte [*]. *)
Definition star : Ascii.ascii := Ascii.ascii_of_nat 42.

Lemma length_Repeat count : String.length (Repeat "*" count) = count.
Proof.
  induction count as [|count IH]; [done|].
  change (S (String.length (Repeat "*" count)) = S count). by rewrite IH.
Qed.

Lemma get_Repeat count i : (i < count)%nat → String.get i (Repeat "*" count) = Some star.
Proof.
  revert i. induction count as [|count IH]; intros i Hi; [lia|].
  destruct i as [|i]; [done|].
  change (String.get i (Repeat "*" count) = Some star). apply IH. lia.
Qed.

Lemma get_app_l a b i :
  (i < String.length a)%nat → String.get i (a +:+ b) = String.get i a.
Proof.
  revert i. induction a as [|c a IH]; intros i Hi; simpl in Hi; [lia|].
  destruct i as [|i]; [done|].
  change (String.get i (a +:+ b) = String.get i a). apply IH. lia.
Qed.

Lemma get_app_r a b i :
  (String.length a ≤ i)%nat → String.get i (a +:+ b) = String.get (i - String.length a) b.
Proof.
  revert i. induction a as [|c a IH]; intros i Hi; simpl in Hi.
  - by rewrite Nat.sub_0_r.
  - destruct i as [|i]; [lia|].
    change (String.get i (a +:+ b) = String.get (i - String.length a) b). apply IH. lia.
Qed.

Lemma get_substring n m s i :
  (n + m ≤ String.length s)%nat → (i < m)%nat →
  String.get i (String.substring n m s) = String.get (n + i) s.
Proof.
  revert n m i. induction s as [|c s IH]; intros n m i Hle Hi; simpl in Hle; [lia|].
  destruct n as [|n]; simpl.
  - destruct m as [|m]; [lia|]. destruct i as [|i]; [done|]. simpl.
    apply (IH 0%nat); lia.
  - apply IH; lia.
Qed.

(** X24.  The command line's [maskString] keeps the length of a key that is
    set: a key of up to eight bytes is shown as that many stars, a longer one
    keeps its first four and its last four bytes in place and has a star at
    every position between them. *)
Theorem maskString_keeps_the_length (s : string) :
  s ≠ "" →
  String.length (maskString s) = String.length s ∧
  (∀ i, (i < String.length s)%nat →
     String.get i (maskString s) =
       if bool_decide (8 < String.length s ∧ (i < 4 ∨ String.length s - 4 ≤ i))%nat
       then String.get i s else Some star).
Proof.
  intros Hne. unfold maskString. rewrite bool_decide_eq_false_2 by done.
  case_bool_decide as Hlen.
  - split; [apply length_Repeat|]. intros i Hi.
    rewrite bool_decide_eq_false_2 by lia. by apply get_Repeat.
  - assert (Ha : String.length (String.substring 0 4 s) = 4%nat)
      by (apply WebuiHandlers.length_substring; lia).
    assert (Hb : String.length (String.substring (String.length s - 4) 4 s) = 4%nat)
      by (apply WebuiHandlers.length_substring; lia).
    split.
    + rewrite !WebuiHandlers.length_string_app, Ha, Hb, length_Repeat. lia.
    + intros i Hi. case_bool_decide as Hshown.
      * destruct Hshown as [_ [Hi4|Hi4]].
        -- rewrite get_app_l by lia. by rewrite get_substring by lia.
        -- rewrite get_app_r by lia. rewrite Ha.
           rewrite get_app_r by (rewrite length_Repeat; lia).
           rewrite length_Repeat, get_substring by lia. f_equal. lia.
      * rewrite get_app_r by lia. rewrite Ha.
        rewrite get_app_l by (rewrite length_Repeat; lia).
        apply get_Repeat. lia.
Qed.

Lemma maskString_keeps_the_length_witness :
  maskString "sk-0123456789" = "sk-0*****6789" ∧
  String.length (maskString "sk-0123456789") = 13%nat ∧
  (∀ i, (i < 13)%nat →
     String.get i (maskString "sk-0123456789") =
       if bool_decide (8 < 13 ∧ (i < 4 ∨ 13 - 4 ≤ i))%nat
       then String.get i "sk-0123456789" else Some star).
Proof.
  split; [reflexivity|].
  apply (maskString_keeps_the_length "sk-0123456789"). discriminate.
Defined.

(** X25.  [cco config show] prints the masked key of every provider when
    all keys are strings, and panics at the first provider whose key is not
    a string: a provider without a key (nil) or with a pool of keys, both of
    which the web UI's [maskAPIKey] handles, stops the command. *)
Theorem config_show_panics_without_a_string_key (providers : list Config.Provider) :
  (∀ keys, Config.APIKey <$> providers = JString <$> keys →
     showKeys providers = (maskString <$> keys, false)) ∧
  (∀ before provider after,
     providers = before ++ provider :: after →
     (∀ key, Config.APIKey provider ≠ JString key) →
     (showKeys providers).2 = true ∧
     (length (showKeys providers).1 ≤ length before)%nat).
Proof.
  split.
  - induction providers as [|p providers IH]; intros keys Hkeys.
    + by destruct keys.
    + destruct keys as [|key keys]; [done|]. injection Hkeys as Hkey Hkeys.
      simpl. rewrite Hkey, (IH keys Hkeys). done.
  - intros before provider after -> Hnot.
    induction before as [|p before IH]; simpl.
    + destruct (Config.APIKey provider) as [| | |key| |] eqn:Hk; try (split; [done|simpl; lia]).
      by destruct (Hnot key).
    + destruct (Config.APIKey p); try (split; [done|simpl; lia]).
      destruct (showKeys (before ++ provider :: after)) as [printed panicked].
      simpl in IH. destruct IH as [-> Hlen]. simpl in *. split; [done|lia].
Qed.

End CmdConfig.

(** ** cmd: [cco plugins] and the registrations of [cco ui] *)
Module CmdPlugins.

(** [config.PluginsConfig] is declared outside the sources at hand; these
    are the fields the commands read and write. *)
Record PluginsConfig := {
  TokenCounter : bool;
  SystemPrompt : string;
  ResponseFilterEnabled : bool;
  FilterWords : list string;
  FilterReplacement : string;
}.

(** [config.PluginsConfig{}]. *)
Definition noPlugins : PluginsConfig :=
  {| TokenCounter := false; SystemPrompt := ""; ResponseFilterEnabled := false;
     FilterWords := []; FilterReplacement := "" |}.

(** An entry of the table [runPluginsList] prints. *)
Record listing := {
  name : string;
  description : string;
  enabled : bool;
  configKey : string;
}.

(** The registrations of [runUI], by the names it logs, in order. *)
Definition registered (plugins : PluginsConfig) : list string :=
  (if TokenCounter plugins then ["token-counter"] else []) ++
  (if bool_decide (SystemPrompt plugins ≠ "") then ["system-prompt-injector"] else []) ++
  (if ResponseFilterEnabled plugins && bool_decide (0 < length (FilterWords plugins))%nat
   then ["response-filter"] else []).

Section Manager.

(** The configuration manager [cfgMgr], as far as its file holds the
    plugin settings: [Load] and [Save] on the state [Disk] of the file. *)
Context {Disk : Type}.
Variable Load : Disk → PluginsConfig + error.
Variable Save : PluginsConfig → Disk → Disk * option error.

(** [runPluginsList]: the table it prints. *)
Definition runPluginsList (d : Disk) : list listing :=
  let pluginsConfig :=
    match Load d with
    | inr _ => noPlugins
    | inl cfg => cfg
    end in
  [ {| name := "token-counter";
       description := "Tracks and logs token usage statistics for each request";
       enabled := TokenCounter pluginsConfig;
       configKey := "plugins.token_counter" |};
    {| name := "system-prompt-injector";
       description := "Injects a custom system prompt into all requests";
       enabled := bool_decide (SystemPrompt pluginsConfig ≠ "");
       configKey := "plugins.system_prompt" |};
    {| name := "response-filter";
       description := "Filters sensitive content from responses based on word lists";
       enabled := ResponseFilterEnabled pluginsConfig;
       configKey := "plugins.response_filter_enabled" |} ].

Definition save (cfg : PluginsConfig) (d : Disk) : Disk * option error :=
  match Save cfg d with
  | (d, Some err) => (d, Some (wrapError "failed to save configuration: " err))
  | (d, None) => (d, None)
  end.

(** [runPluginsEnable], with [args[0]]. *)
Definition runPluginsEnable (pluginName : string) (d : Disk) : Disk * option error :=
  match Load d with
  | inr err => (d, Some (wrapError "failed to load configuration: " err))
  | inl cfg =>
      if bool_decide (pluginName = "token-counter") then
        save {| TokenCounter := true; SystemPrompt := SystemPrompt cfg;
                ResponseFilterEnabled := ResponseFilterEnabled cfg;
                FilterWords := FilterWords cfg;
                FilterReplacement := FilterReplacement cfg |} d
      else if bool_decide (pluginName = "system-prompt-injector") then
        (d, Some (errorString
           "system-prompt-injector requires a system prompt. Edit config.yaml and set plugins.system_prompt"))
      else if bool_decide (pluginName = "response-filter") then
        save {| TokenCounter := TokenCounter cfg; SystemPrompt := SystemPrompt cfg;
                ResponseFilterEnabled := true;
                FilterWords := FilterWords cfg;
                FilterReplacement := FilterReplacement cfg |} d
      else (d, Some (errorString ("unknown plugin: " +:+ pluginName)))
  end.

(** [runPluginsDisable], with [args[0]]. *)
Definition runPluginsDisable (pluginName : string) (d : Disk) : Disk * option error :=
  match Load d with
  | inr err => (d, Some (wrapError "failed to load configuration: " err))
  | inl cfg =>
      if bool_decide (pluginName = "token-counter") then
        save {| TokenCounter := false; SystemPrompt := SystemPrompt cfg;
                ResponseFilterEnabled := ResponseFilterEnabled cfg;
                FilterWords := FilterWords cfg;
                FilterReplacement := FilterReplacement cfg |} d
      else if bool_decide (pluginName = "system-prompt-injector") then
        save {| TokenCounter := TokenCounter cfg; SystemPrompt := "";
                ResponseFilterEnabled := ResponseFilterEnabled cfg;
                FilterWords := FilterWords cfg;
                FilterReplacement := FilterReplacement cfg |} d
      else if bool_decide (pluginName = "response-filter") then
        save {| TokenCounter := TokenCounter cfg; SystemPrompt := SystemPrompt cfg;
                ResponseFilterEnabled := false;
                FilterWords := FilterWords cfg;
                FilterReplacement := FilterReplacement cfg |} d
      else (d, Some (errorString ("unknown plugin: " +:+ pluginName)))
  end.

(** What [runUI] registers from the file: the configuration it loads, or
    the manager's own when loading fails, which [Get] stands for. *)
Definition runUI_registered (Get : PluginsConfig) (d : Disk) : list string :=
  match Load d with
  | inr _ => registered Get
  | inl cfg => registered cfg
  end.

(** The status the table shows for a plugin. *)
Definition shown (pluginName : string) (table : list listing) : option bool :=
  enabled <$> head (filter (λ l, name l = pluginName) table).

(** *** Facts *)

(** The file gives back what was saved last. *)
Hypothesis Load_Save : ∀ cfg d d', Save cfg d = (d', None) → Load d' = inl cfg.

Lemma shown_nil pluginName : shown pluginName [] = None.
Proof. done. Qed.

Lemma shown_cons pluginName l table :
  shown pluginName (l :: table) =
    if decide (name l = pluginName) then Some (enabled l) else shown pluginName table.
Proof. unfold shown. rewrite filter_cons. by case_decide. Qed.

Lemma save_ok cfg d d' : save cfg d = (d', None) → Load d' = inl cfg.
Proof.
  unfold save. destruct (Save cfg d) as [d0 [err|]] eqn:Hs; [done|].
  intros [= <-]. by apply (Load_Save cfg d).
Qed.

(** X26.  When [cco plugins enable] returns nil, [cco plugins list] shows
    the plugin as enabled, and when [cco plugins disable] returns nil, as
    disabled; in both cases the two other plugins are shown as before.
    Enabling the system prompt injector always fails, and a command that
    names no plugin of the three fails as well; a command that fails in
    either way leaves the file alone. *)
Theorem plugins_enable_disable_list (pluginName : string) (d : Disk) :
  (∀ d', runPluginsEnable pluginName d = (d', None) →
     shown pluginName (runPluginsList d') = Some true ∧
     ∀ other, other ≠ pluginName →
       shown other (runPluginsList d') = shown other (runPluginsList d)) ∧
  (∀ d', runPluginsDisable pluginName d = (d', None) →
     shown pluginName (runPluginsList d') = Some false ∧
     ∀ other, other ≠ pluginName →
       shown other (runPluginsList d') = shown other (runPluginsList d)) ∧
  (pluginName = "system-prompt-injector" ∨
   pluginName ∉ ["token-counter"; "system-prompt-injector"; "response-filter"] →
     ∃ err, runPluginsEnable pluginName d = (d, Some err)).
Proof.
  split; [|split].
  - intros d'. unfold runPluginsEnable.
    destruct (Load d) as [cfg|err] eqn:Hload; [|done].
    repeat case_bool_decide; try done; subst pluginName; intros Hs%save_ok;
      unfold runPluginsList; rewrite Hs, Hload;
      (split; [done|]); intros other Hother;
      rewrite !shown_cons, !shown_nil; simpl;
      repeat case_decide; simpl in *; congruence.
  - intros d'. unfold runPluginsDisable.
    destruct (Load d) as [cfg|err] eqn:Hload; [|done].
    repeat case_bool_decide; try done; subst pluginName; intros Hs%save_ok;
      unfold runPluginsList; rewrite Hs, Hload;
      (split; [done|]); intros other Hother;
      rewrite !shown_cons, !shown_nil; simpl;
      repeat case_decide; simpl in *; congruence.
  - intros Hname. unfold runPluginsEnable.
    destruct (Load d) as [cfg|err]; [|by eexists].
    destruct Hname as [->|Hnot]; [by eexists|].
    rewrite !not_elem_of_cons in Hnot. destruct Hnot as (? & ? & ? & _).
    rewrite !bool_decide_eq_false_2 by done. by eexists.
Qed.

(** X27.  [cco ui] registers no plugin that [cco plugins list] shows as
    disabled, and it registers every plugin shown as enabled except the
    response filter when no filter words are configured. *)
Theorem ui_registers_what_the_list_shows (Get : PluginsConfig) (d : Disk) (cfg : PluginsConfig) :
  Load d = inl cfg →
  ∀ pluginName,
    pluginName ∈ runUI_registered Get d ↔
      shown pluginName (runPluginsList d) = Some true ∧
      ¬ (pluginName = "response-filter" ∧ FilterWords cfg = []).
Proof.
  intros Hload pluginName. unfold runUI_registered, runPluginsList. rewrite Hload.
  rewrite !shown_cons, shown_nil. unfold registered.
  assert (Hin : ∀ (b : bool) (n : string),
            pluginName ∈ (if b then [n] else []) ↔ b = true ∧ n = pluginName).
  { intros [] n.
    - rewrite list_elem_of_singleton. split; [by intros ->|by intros [_ ->]].
    - rewrite elem_of_nil. split; [done|by intros [? _]]. }
  rewrite !elem_of_app, !Hin. simpl.
  rewrite andb_true_iff, !bool_decide_eq_true.
  destruct (decide ("token-counter" = pluginName)) as [<-|H1].
  { split.
    - intros [[? _]|[[_ ?]|[_ ?]]]; try done. split; [by f_equal|]. by intros [? _].
    - intros [[= ->] _]. by left. }
  destruct (decide ("system-prompt-injector" = pluginName)) as [<-|H2].
  { split.
    - intros [[_ ?]|[[? _]|[_ ?]]]; try done.
      split; [f_equal; by apply bool_decide_eq_true_2|by intros [? _]].
    - intros [[= Hsp%bool_decide_eq_true] _]. right. by left. }
  destruct (decide ("response-filter" = pluginName)) as [<-|H3].
  { split.
    - intros [[_ ?]|[[_ ?]|[[? Hw] _]]]; try done. split; [by f_equal|].
      intros [_ Hnil]. rewrite Hnil in Hw. simpl in Hw. lia.
    - intros [[= ->] Hnot]. right. right. split; [|done]. split; [done|].
      destruct (FilterWords cfg); [by destruct Hnot|simpl; lia]. }
  split; [intros [[_ ?]|[[_ ?]|[_ ?]]]; done|intros [? _]; done].
Qed.

End Manager.

End CmdPlugins.

(** A manager whose file holds a configuration or is missing, and whose
    [Save] always succeeds. *)
Module CmdPluginsExample.
Import CmdPlugins.

Definition Load (d : option PluginsConfig) : PluginsConfig + error :=
  match d with
  | Some cfg => inl cfg
  | None => inr (errorString "no configuration file")
  end.

Definition Save (cfg : PluginsConfig) (d : option PluginsConfig) :
    option PluginsConfig * option error :=
  (Some cfg, None).

Lemma file_keeps_what_was_saved cfg d d' : Save cfg d = (d', None) → Load d' = inl cfg.
Proof. by intros [= <-]. Qed.

Definition promptOnly : PluginsConfig :=
  {| TokenCounter := false; SystemPrompt := "Be brief."; ResponseFilterEnabled := false;
     FilterWords := []; FilterReplacement := "" |}.

Lemma plugins_enable_disable_list_witness :
  let d' := (runPluginsEnable Load Save "response-filter" (Some promptOnly)).1 in
  shown "response-filter" (runPluginsList Load d') = Some true ∧
  shown "system-prompt-injector" (runPluginsList Load d') = Some true ∧
  shown "token-counter" (runPluginsList Load d') = Some false.
Proof.
  intros d'.
  destruct (plugins_enable_disable_list Load Save file_keeps_what_was_saved "response-filter" (Some promptOnly))
    as [Henable _].
  destruct (Henable d') as [Hshown Hothers]; [reflexivity|].
  split; [exact Hshown|].
  split; (rewrite Hothers; [reflexivity|discriminate]).
Defined.

Lemma ui_registers_what_the_list_shows_witness :
  let d' := (runPluginsEnable Load Save "response-filter" (Some promptOnly)).1 in
  runUI_registered Load noPlugins d' = ["system-prompt-injector"] ∧
  ∀ pluginName,
    pluginName ∈ runUI_registered Load noPlugins d' ↔
      shown pluginName (runPluginsList Load d') = Some true ∧
      ¬ (pluginName = "response-filter" ∧ @nil string = []).
Proof.
  intros d'. split; [reflexivity|].
  exact (ui_registers_what_the_list_shows Load noPlugins d'
           {| TokenCounter := false; SystemPrompt := "Be brief.";
              ResponseFilterEnabled := true; FilterWords := [];
              FilterReplacement := "" |} eq_refl).
Defined.

End CmdPluginsExample.
